(** * HandMovementRecognitionCalculator

    A shallow embedding of
    [hand_movement_recognition/hand_movement_recognition_calculator.cc]:
    the per-frame classifier that compares the tracked hand rectangle and two
    hand landmarks with what it remembered from the previous frame and emits
    a scrolling, a zooming and a sliding label.

    The C++ code computes on [float] and [double].  Both are modelled by the
    IEEE 754 specification of the standard library ([SpecFloat]), at
    precision 24 (binary32) and 53 (binary64), so every definition below can
    be evaluated on concrete frames. *)

From Stdlib Require Import ZArith Zquot Bool List Lia.
From Stdlib Require Import String.
From Stdlib Require Import Floats.SpecFloat.
Import ListNotations.

#[local] Open Scope Z_scope.

(** ** Floating-point arithmetic *)

(** C++ [float]: IEEE 754 binary32, round to nearest even. *)
Module Float.
Definition prec : Z := 24.
Definition emax : Z := 128.
Definition t : Type := spec_float.

Definition valid (a : t) : bool := valid_binary prec emax a.

Definition add (a b : t) : t := SFadd prec emax a b.
Definition sub (a b : t) : t := SFsub prec emax a b.
Definition mul (a b : t) : t := SFmul prec emax a b.
Definition sqrt (a : t) : t := SFsqrt prec emax a.

(** [a < b], [a <= b], [a > b], [a >= b]: all false when an operand is NaN. *)
Definition ltb (a b : t) : bool := SFltb a b.
Definition leb (a b : t) : bool := SFleb a b.
Definition gtb (a b : t) : bool := SFltb b a.
Definition geb (a b : t) : bool := SFleb b a.
Definition eqb (a b : t) : bool := SFeqb a b.

(** Conversion of an [int] to [float]. *)
Definition of_int (i : Z) : t := binary_normalize prec emax i 0 false.

(** Conversion of a [double] to [float] (rounds, may overflow to an
    infinity). *)
Definition of_double (d : spec_float) : t :=
  match d with
  | S754_finite s m e => binary_round prec emax s m e
  | _ => d
  end.

Definition zero : t := S754_zero false.

(** A [float] used as a condition, [if (f)]: true unless [f] compares equal
    to zero; both zeros are false and NaN is true. *)
Definition truthy (a : t) : bool := negb (eqb a zero).
End Float.

(** C++ [double]: IEEE 754 binary64, round to nearest even. *)
Module Double.
Definition prec : Z := 53.
Definition emax : Z := 1024.
Definition t : Type := spec_float.

Definition valid (a : t) : bool := valid_binary prec emax a.

Definition add (a b : t) : t := SFadd prec emax a b.
Definition mul (a b : t) : t := SFmul prec emax a b.
Definition div (a b : t) : t := SFdiv prec emax a b.
Definition ltb (a b : t) : bool := SFltb a b.
Definition leb (a b : t) : bool := SFleb a b.

Definition of_int (i : Z) : t := binary_normalize prec emax i 0 false.

(** Promotion of a [float]: exact, every binary32 value is a binary64
    value; the mantissa is realigned to 53 bits. *)
Definition of_float (f : Float.t) : t :=
  match f with
  | S754_finite s m e => binary_round prec emax s m e
  | _ => f
  end.

(** A decimal literal [n/d], correctly rounded. *)
Definition literal (n d : Z) : t := div (of_int n) (of_int d).

(** [floor] of <cmath>: the largest integral value not above [d]; zeros,
    infinities and NaN are returned unchanged. *)
Definition floor (d : t) : t :=
  match d with
  | S754_finite s m e =>
      if 0 <=? e then d
      else binary_normalize prec emax
             (Z.shiftr (cond_Zopp s (Zpos m)) (- e)) 0 false
  | _ => d
  end.

Definition INT_MIN : Z := - 2 ^ 31.
Definition INT_MAX : Z := 2 ^ 31 - 1.

(** The cast [(int)d]: truncation toward zero.  C++ leaves the cast
    undefined when the truncated value is no [int] (NaN, infinities, large
    magnitudes); the model returns what the x86-64 conversion instruction
    returns there, [INT_MIN]. *)
Definition to_int (d : t) : Z :=
  match d with
  | S754_zero _ => 0
  | S754_finite s m e =>
      let i := if 0 <=? e then cond_Zopp s (Zpos m) * 2 ^ e
               else Z.quot (cond_Zopp s (Zpos m)) (2 ^ (- e)) in
      if (INT_MIN <=? i) && (i <=? INT_MAX) then i else INT_MIN
  | _ => INT_MIN
  end.

(** The macro [M_PI] of <cmath>, 3.14159265358979323846 as a double
    (0x400921FB54442D18). *)
Definition M_PI : t := S754_finite false 7074237752028440 (-51).
End Double.

(** ** <cmath> functions on [float] *)

(** [std::pow(x, 2)] with a [float] base and an [int] exponent is the
    [double] overload.  The square of a binary32 value has at most 48
    significant bits, so the correctly rounded double product is the exact
    square that [pow] returns. *)
Definition pow_2 (x : Float.t) : Double.t :=
  Double.mul (Double.of_float x) (Double.of_float x).

(** The constants that [atan2f] returns on the axes: pi, pi/2, pi/4 rounded to
    binary32 (0x40490FDB, 0x3FC90FDB, 0x3F490FDB). *)
Definition pi_f : Float.t := S754_finite false 13176795 (-22).
Definition pi_2_f : Float.t := S754_finite false 13176795 (-23).
Definition pi_4_f : Float.t := S754_finite false 13176795 (-24).

Definition copysign (s : bool) (a : Float.t) : Float.t :=
  if s then SFopp a else a.

(** ** Messages and calculator state *)

(** A landmark of the hand, [mediapipe::NormalizedLandmark]; coordinates are
    normalised to the camera frame. *)
Module NormalizedLandmark.
Record t : Type := { x : Float.t; y : Float.t; z : Float.t }.
End NormalizedLandmark.

(** [mediapipe::NormalizedLandmarkList]: [landmark_size()] is the length of
    the list and [landmark(i)] its [i]-th element. *)
Module NormalizedLandmarkList.
Record t : Type := { landmark : list NormalizedLandmark.t }.
Definition landmark_size (l : t) : Z := Z.of_nat (List.length (landmark l)).
(** [landmark(i)] is not range checked by the generated accessor: outside
    the list there is nothing to return. *)
Definition get (l : t) (i : nat) : option NormalizedLandmark.t :=
  nth_error (landmark l) i.
End NormalizedLandmarkList.

(** The tracked hand rectangle, [mediapipe::NormalizedRect]. *)
Module NormalizedRect.
Record t : Type :=
  { x_center : Float.t; y_center : Float.t;
    height : Float.t; width : Float.t; rotation : Float.t }.
End NormalizedRect.

(** The two input streams of one [Process] call. *)
Record Inputs : Type :=
  { NORM_RECT : NormalizedRect.t;
    NORM_LANDMARKS : NormalizedLandmarkList.t }.

(** The three packets added to the output streams by a successful call. *)
Record Outputs : Type :=
  { RECOGNIZED_HAND_MOVEMENT_SCROLLING : string;
    RECOGNIZED_HAND_MOVEMENT_ZOOMING : string;
    RECOGNIZED_HAND_MOVEMENT_SLIDING : string }.

(** The private fields of the calculator object. *)
Record HandMovementRecognitionCalculator : Type :=
  { previous_x_center : Float.t;
    previous_y_center : Float.t;
    previous_angle : Float.t;
    previous_rectangle_width : Float.t;
    previous_rectangle_height : Float.t }.

(** What persists from one call to the next: the calculator object and the
    counter that [cc->GetCounter("HandMovementRecognitionCalculator")]
    returns.  The counter class is part of the framework; its [Increment] adds
    one and [Get] reads the count. *)
Record Node : Type :=
  { this : HandMovementRecognitionCalculator;
    frameCounter : Z }.

Definition Increment (counter : Z) : Z := counter + 1.

(** The class declares its fields without initialisers and has no
    constructor; the framework creates the object zero-filled, and the
    conditions [if (this->previous_x_center)] etc. read a zero as "nothing
    remembered yet".  A fresh node has zero fields and a counter at zero. *)
Definition fresh : Node :=
  {| this := {| previous_x_center := Float.zero;
                previous_y_center := Float.zero;
                previous_angle := Float.zero;
                previous_rectangle_width := Float.zero;
                previous_rectangle_height := Float.zero |};
     frameCounter := 0 |}.

(** The result of a [Process] call. *)
Inductive Outcome : Type :=
| Emitted (n : Node) (out : Outputs)
    (** [OkStatus()], after the three packets were added *)
| Failed (n : Node) (message : string)
    (** a [RET_CHECK] failed: an error status, no packet added *)
| OutOfRange (index : nat)
    (** [landmark(index)] was read past the end of the list: the behaviour of
        the C++ program is undefined from there on *).

Section Libm.

(** The value of [std::atan2(y, x)] when both arguments are finite and
    different from zero comes from the C library and is left open: the
    model is parametric in it. *)
Variable atan2_finite : Float.t -> Float.t -> Float.t.

(** [std::atan2] on two [float]s.  Arguments on an axis, infinite or NaN are
    answered as C (Annex F.10.1.4) prescribes. *)
Definition atan2 (y x : Float.t) : Float.t :=
  match y, x with
  | S754_nan, _ | _, S754_nan => S754_nan
  | S754_zero sy, S754_zero sx
  | S754_zero sy, S754_finite sx _ _
  | S754_zero sy, S754_infinity sx
  | S754_finite sy _ _, S754_infinity sx =>
      if sx then copysign sy pi_f else S754_zero sy
  | S754_finite sy _ _, S754_zero _
  | S754_infinity sy, S754_zero _
  | S754_infinity sy, S754_finite _ _ _ => copysign sy pi_2_f
  | S754_infinity sy, S754_infinity sx =>
      if sx then copysign sy (Float.mul (Float.of_int 3) pi_4_f)
      else copysign sy pi_4_f
  | S754_finite _ _ _, S754_finite _ _ _ => atan2_finite y x
  end.

(** ** Geometry helpers of the calculator *)

Definition get_Euclidean_DistanceAB (a_x a_y b_x b_y : Float.t) : Float.t :=
  let dist :=
    Float.of_double
      (Double.add (pow_2 (Float.sub a_x b_x)) (pow_2 (Float.sub a_y b_y))) in
  Float.sqrt dist.

Definition getAngleABC (a_x a_y b_x b_y c_x c_y : Float.t) : Float.t :=
  let ab_x := Float.sub b_x a_x in
  let ab_y := Float.sub b_y a_y in
  let cb_x := Float.sub b_x c_x in
  let cb_y := Float.sub b_y c_y in
  let dot := Float.add (Float.mul ab_x cb_x) (Float.mul ab_y cb_y) in
  let cross := Float.sub (Float.mul ab_x cb_y) (Float.mul ab_y cb_x) in
  let alpha := atan2 cross dot in
  alpha.

(** [(int)floor(radian * 180. / M_PI + 0.5)], evaluated in [double]. *)
Definition radianToDegree (radian : Float.t) : Z :=
  Double.to_int
    (Double.floor
       (Double.add
          (Double.div
             (Double.mul (Double.of_float radian) (Double.of_int 180))
             Double.M_PI)
          (Double.literal 5 10))).

(** ** Process *)

Definition set_previous_center (c : HandMovementRecognitionCalculator)
    (x_center y_center : Float.t) : HandMovementRecognitionCalculator :=
  {| previous_x_center := x_center;
     previous_y_center := y_center;
     previous_angle := previous_angle c;
     previous_rectangle_width := previous_rectangle_width c;
     previous_rectangle_height := previous_rectangle_height c |}.

Definition set_previous_rectangle_height
    (c : HandMovementRecognitionCalculator) (height : Float.t)
  : HandMovementRecognitionCalculator :=
  {| previous_x_center := previous_x_center c;
     previous_y_center := previous_y_center c;
     previous_angle := previous_angle c;
     previous_rectangle_width := previous_rectangle_width c;
     previous_rectangle_height := height |}.

Definition set_previous_angle (c : HandMovementRecognitionCalculator)
    (angle : Float.t) : HandMovementRecognitionCalculator :=
  {| previous_x_center := previous_x_center c;
     previous_y_center := previous_y_center c;
     previous_angle := angle;
     previous_rectangle_width := previous_rectangle_width c;
     previous_rectangle_height := previous_rectangle_height c |}.

#[local] Open Scope string_scope.

(** Feature 1, lines 132-164: the scrolling label of a frame whose
    rectangle is centred at [(x_center, y_center)]. *)
Definition scrolling (c : HandMovementRecognitionCalculator)
    (x_center y_center height : Float.t) : string :=
  let recognized_hand_movement_scrolling := "___" in
  if Float.truthy (previous_x_center c) then
    let movementDistance :=
      get_Euclidean_DistanceAB x_center y_center
        (previous_x_center c) (previous_y_center c) in
    let movementDistanceFactor := Float.of_double (Double.literal 2 100) in
    let movementDistanceThreshold :=
      Float.mul movementDistanceFactor height in
    if Float.gtb movementDistance movementDistanceThreshold then
      let angle :=
        Float.of_int
          (radianToDegree
             (getAngleABC x_center y_center
                (previous_x_center c) (previous_y_center c)
                (Float.of_double
                   (Double.add (Double.of_float (previous_x_center c))
                      (Double.literal 1 10)))
                (previous_y_center c))) in
      if Float.geb angle (Float.of_int (-45))
         && Float.ltb angle (Float.of_int 45)
      then "Scrolling right"
      else if Float.geb angle (Float.of_int 45)
              && Float.ltb angle (Float.of_int 135)
      then "Scrolling up"
      else if Float.geb angle (Float.of_int 135)
              || Float.ltb angle (Float.of_int (-135))
      then "Scrolling left"
      else if Float.geb angle (Float.of_int (-135))
              && Float.ltb angle (Float.of_int (-45))
      then "Scrolling down"
      else recognized_hand_movement_scrolling
    else recognized_hand_movement_scrolling
  else recognized_hand_movement_scrolling.

(** Feature 2, lines 169-185: the zooming label. *)
Definition zooming (c : HandMovementRecognitionCalculator)
    (height : Float.t) : string :=
  let recognized_hand_movement_zooming := "___" in
  if Float.truthy (previous_rectangle_height c) then
    let heightDifferenceFactor := Float.of_double (Double.literal 3 100) in
    let heightDifferenceThreshold :=
      Float.mul height heightDifferenceFactor in
    if Float.ltb height
         (Float.sub (previous_rectangle_height c) heightDifferenceThreshold)
    then "Zoom out"
    else if Float.gtb height
              (Float.add (previous_rectangle_height c)
                 heightDifferenceThreshold)
    then "Zoom in"
    else recognized_hand_movement_zooming
  else recognized_hand_movement_zooming.

(** Lines 195-196: the angle between the hand (wrist to the MCP of the
    middle finger) and the x axis, in degrees. *)
Definition ang_in_degree (wrist MCP_of_second_finger : NormalizedLandmark.t)
  : Z :=
  let ang_in_radian :=
    getAngleABC
      (NormalizedLandmark.x MCP_of_second_finger)
      (NormalizedLandmark.y MCP_of_second_finger)
      (NormalizedLandmark.x wrist) (NormalizedLandmark.y wrist)
      (Float.of_double
         (Double.add (Double.of_float (NormalizedLandmark.x wrist))
            (Double.literal 1 10)))
      (NormalizedLandmark.y wrist) in
  radianToDegree ang_in_radian.

(** Feature 3, lines 198-215: the sliding label of an evaluated frame. *)
Definition sliding (c : HandMovementRecognitionCalculator)
    (ang_in_degree : Z) : string :=
  let recognized_hand_movement_sliding := "___" in
  if Float.truthy (previous_angle c) then
    let angleDifferenceTreshold := Float.of_int 12 in
    if Float.geb (previous_angle c) (Float.of_int 80)
       && Float.leb (previous_angle c) (Float.of_int 100)
    then
      if Float.gtb (Float.of_int ang_in_degree)
           (Float.add (previous_angle c) angleDifferenceTreshold)
      then "Slide left"
      else if Float.ltb (Float.of_int ang_in_degree)
                (Float.sub (previous_angle c) angleDifferenceTreshold)
      then "Slide right"
      else recognized_hand_movement_sliding
    else recognized_hand_movement_sliding
  else recognized_hand_movement_sliding.

Definition Process (n : Node) (cc : Inputs) : Outcome :=
  let frameCounter := Increment (frameCounter n) in
  let rect := NORM_RECT cc in
  let height := NormalizedRect.height rect in
  let x_center := NormalizedRect.x_center rect in
  let y_center := NormalizedRect.y_center rect in
  let landmarkList := NORM_LANDMARKS cc in
  if negb (NormalizedLandmarkList.landmark_size landmarkList >? 0) then
    Failed {| this := this n; frameCounter := frameCounter |}
      "Input landmark vector is empty."
  else
    (* 1. FEATURE - Scrolling *)
    let recognized_hand_movement_scrolling :=
      scrolling (this n) x_center y_center height in
    let this1 := set_previous_center (this n) x_center y_center in
    (* 2. FEATURE - Zoom in/out *)
    let recognized_hand_movement_zooming := zooming this1 height in
    let this2 := set_previous_rectangle_height this1 height in
    (* 3. FEATURE - Slide left / right *)
    if Z.eqb (Z.rem frameCounter 2) 0 then
      match NormalizedLandmarkList.get landmarkList 0 with
      | None => OutOfRange 0
      | Some wrist =>
          match NormalizedLandmarkList.get landmarkList 9 with
          | None => OutOfRange 9
          | Some MCP_of_second_finger =>
              let ang := ang_in_degree wrist MCP_of_second_finger in
              let recognized_hand_movement_sliding := sliding this2 ang in
              let this3 := set_previous_angle this2 (Float.of_int ang) in
              Emitted {| this := this3; frameCounter := frameCounter |}
                {| RECOGNIZED_HAND_MOVEMENT_SCROLLING :=
                     recognized_hand_movement_scrolling;
                   RECOGNIZED_HAND_MOVEMENT_ZOOMING :=
                     recognized_hand_movement_zooming;
                   RECOGNIZED_HAND_MOVEMENT_SLIDING :=
                     recognized_hand_movement_sliding |}
          end
      end
    else
      Emitted {| this := this2; frameCounter := frameCounter |}
        {| RECOGNIZED_HAND_MOVEMENT_SCROLLING :=
             recognized_hand_movement_scrolling;
           RECOGNIZED_HAND_MOVEMENT_ZOOMING :=
             recognized_hand_movement_zooming;
           RECOGNIZED_HAND_MOVEMENT_SLIDING := "___" |}.

End Libm.

(** ** Running the model

    Closed statements about concrete frames need a value for the open part of
    [atan2].  The frames used below keep the vectors handed to [atan2] on an
    axis, where the open part is not consulted; [atan2_unspecified] fills
    the parameter. *)
Definition atan2_unspecified (y x : Float.t) : Float.t := S754_nan.

(** The decimal literal [n/d] converted to [float]. *)
Definition flt (n d : Z) : Float.t := Float.of_double (Double.literal n d).

Definition point (x y : Float.t) : NormalizedLandmark.t :=
  {| NormalizedLandmark.x := x; NormalizedLandmark.y := y;
     NormalizedLandmark.z := Float.zero |}.

Definition rect (x_center y_center height : Float.t) : NormalizedRect.t :=
  {| NormalizedRect.x_center := x_center;
     NormalizedRect.y_center := y_center;
     NormalizedRect.height := height;
     NormalizedRect.width := height;
     NormalizedRect.rotation := Float.zero |}.

(** A hand of [k + 2] landmarks: the wrist, [k] copies of a filler point and
    a last point. *)
Definition hand (wrist filler last : NormalizedLandmark.t) (k : nat)
  : NormalizedLandmarkList.t :=
  {| NormalizedLandmarkList.landmark := wrist :: repeat filler k ++ [last] |}.

(** Ten landmarks, wrist at (0.5, 0.5) and the MCP of the middle finger
    straight above it in the image, at (0.5, 0.25): the hand is at 90
    degrees. *)
Definition upright_hand : NormalizedLandmarkList.t :=
  hand (point (flt 1 2) (flt 1 2)) (point (flt 1 2) (flt 1 2))
       (point (flt 1 2) (flt 1 4)) 8.

(** Ten landmarks, the MCP of the middle finger to the right of the wrist, at
    (0.75, 0.5): the hand is at 0 degrees. *)
Definition flat_hand : NormalizedLandmarkList.t :=
  hand (point (flt 1 2) (flt 1 2)) (point (flt 1 2) (flt 1 2))
       (point (flt 3 4) (flt 1 2)) 8.

(** Three landmarks only. *)
Definition short_hand : NormalizedLandmarkList.t :=
  hand (point (flt 1 2) (flt 1 2)) (point (flt 1 2) (flt 1 2))
       (point (flt 1 2) (flt 1 4)) 1.

Definition no_hand : NormalizedLandmarkList.t :=
  {| NormalizedLandmarkList.landmark := [] |}.

Definition frame (x_center y_center height : Float.t)
    (l : NormalizedLandmarkList.t) : Inputs :=
  {| NORM_RECT := rect x_center y_center height; NORM_LANDMARKS := l |}.

(** A node that remembers a rectangle centred at [(x, y)] of height [h], a
    hand angle of [a] degrees, and has counted [k] frames. *)
Definition node (x y h : Float.t) (a k : Z) : Node :=
  {| this := {| previous_x_center := x;
                previous_y_center := y;
                previous_angle := Float.of_int a;
                previous_rectangle_width := Float.zero;
                previous_rectangle_height := h |};
     frameCounter := k |}.

(** The node left behind by an outcome, when there is one. *)
Definition node_after (o : Outcome) : option Node :=
  match o with
  | Emitted n _ => Some n
  | Failed n _ => Some n
  | OutOfRange _ => None
  end.

(** The conditions under which [Process] reaches its end. *)
Definition enough_landmarks (n : Node) (cc : Inputs) : bool :=
  let size := NormalizedLandmarkList.landmark_size (NORM_LANDMARKS cc) in
  (size >? 0)
  && (negb (Z.rem (Increment (frameCounter n)) 2 =? 0) || (size >=? 10)).

(** The angle of the hand in a frame, when landmarks 0 and 9 exist. *)
Definition hand_angle (atan2_finite : Float.t -> Float.t -> Float.t)
    (cc : Inputs) : option Z :=
  match NormalizedLandmarkList.get (NORM_LANDMARKS cc) 0,
        NormalizedLandmarkList.get (NORM_LANDMARKS cc) 9 with
  | Some wrist, Some MCP_of_second_finger =>
      Some (ang_in_degree atan2_finite wrist MCP_of_second_finger)
  | _, _ => None
  end.

(** ** The helper that nobody calls *)

(** [isThumbNearFirstFinger], lines 51-55: declared by the class and called
    by no one.  The [float] distance is promoted to [double] for the
    comparison with the literal 0.1. *)
Definition isThumbNearFirstFinger (point1 point2 : NormalizedLandmark.t)
  : bool :=
  let distance :=
    get_Euclidean_DistanceAB
      (NormalizedLandmark.x point1) (NormalizedLandmark.y point1)
      (NormalizedLandmark.x point2) (NormalizedLandmark.y point2) in
  Double.ltb (Double.of_float distance) (Double.literal 1 10).

(** ** The contract of the calculator *)

(** The packet type declared for a stream of the contract; [AnyType] stands
    for a stream whose type was not declared yet. *)
Inductive PacketType : Type :=
| AnyType
| NormalizedLandmarkListType
| NormalizedRectType
| StdStringType.

(** [cc->Inputs()] and [cc->Outputs()]: the streams of the node, each with
    its tag, in the order of the graph config. *)
Definition PacketTypeSet : Type := list (string * PacketType).

(** [HasTag(tag)] *)
Definition HasTag (s : PacketTypeSet) (tag : string) : bool :=
  existsb (fun entry => String.eqb (fst entry) tag) s.

(** [Tag(tag)]: the first stream with that tag. *)
Definition Tag (s : PacketTypeSet) (tag : string) : option PacketType :=
  option_map snd (find (fun entry => String.eqb (fst entry) tag) s).

(** [Tag(tag).Set<T>()].  [GetContract] calls it after [HasTag(tag)] was
    checked only; without such a stream the set is returned as it is. *)
Fixpoint Set_ (s : PacketTypeSet) (tag : string) (T : PacketType)
  : PacketTypeSet :=
  match s with
  | [] => []
  | (t, T0) :: rest =>
      if String.eqb t tag then (t, T) :: rest
      else (t, T0) :: Set_ rest tag T
  end.

Record CalculatorContract : Type :=
  { contract_Inputs : PacketTypeSet;
    contract_Outputs : PacketTypeSet }.

Definition normRectTag : string := "NORM_RECT".
Definition normalizedLandmarkListTag : string := "NORM_LANDMARKS".
Definition recognizedHandMovementScrollingTag : string :=
  "RECOGNIZED_HAND_MOVEMENT_SCROLLING".
Definition recognizedHandMovementZoomingTag : string :=
  "RECOGNIZED_HAND_MOVEMENT_ZOOMING".
Definition recognizedHandMovementSlidingTag : string :=
  "RECOGNIZED_HAND_MOVEMENT_SLIDING".

(** The status that a [GetContract] call returns; a failed [RET_CHECK]
    returns an error status, named here after the tag that was looked for. *)
Inductive Status : Type :=
| OkStatus
| RetCheckFailure (tag : string).

Definition set_input (cc : CalculatorContract) (tag : string) (T : PacketType)
  : CalculatorContract :=
  {| contract_Inputs := Set_ (contract_Inputs cc) tag T;
     contract_Outputs := contract_Outputs cc |}.

Definition set_output (cc : CalculatorContract) (tag : string) (T : PacketType)
  : CalculatorContract :=
  {| contract_Inputs := contract_Inputs cc;
     contract_Outputs := Set_ (contract_Outputs cc) tag T |}.

(** [GetContract], lines 80-99: the contract object is updated in place, so
    a failing call leaves behind the types declared before the failing
    check. *)
Definition GetContract (cc : CalculatorContract) : Status * CalculatorContract :=
  if negb (HasTag (contract_Inputs cc) normalizedLandmarkListTag)
  then (RetCheckFailure normalizedLandmarkListTag, cc) else
  let cc := set_input cc normalizedLandmarkListTag NormalizedLandmarkListType in
  if negb (HasTag (contract_Inputs cc) normRectTag)
  then (RetCheckFailure normRectTag, cc) else
  let cc := set_input cc normRectTag NormalizedRectType in
  if negb (HasTag (contract_Outputs cc) recognizedHandMovementScrollingTag)
  then (RetCheckFailure recognizedHandMovementScrollingTag, cc) else
  let cc := set_output cc recognizedHandMovementScrollingTag StdStringType in
  if negb (HasTag (contract_Outputs cc) recognizedHandMovementZoomingTag)
  then (RetCheckFailure recognizedHandMovementZoomingTag, cc) else
  let cc := set_output cc recognizedHandMovementZoomingTag StdStringType in
  if negb (HasTag (contract_Outputs cc) recognizedHandMovementSlidingTag)
  then (RetCheckFailure recognizedHandMovementSlidingTag, cc) else
  let cc := set_output cc recognizedHandMovementSlidingTag StdStringType in
  (OkStatus, cc).

(** ** Nodes and floats of the statements *)

(** A node with another value in the field [previous_rectangle_width]. *)
Definition with_previous_rectangle_width (n : Node) (w : Float.t) : Node :=
  {| this := {| previous_x_center := previous_x_center (this n);
                previous_y_center := previous_y_center (this n);
                previous_angle := previous_angle (this n);
                previous_rectangle_width := w;
                previous_rectangle_height := previous_rectangle_height (this n) |};
     frameCounter := frameCounter n |}.

(** ** Values

    The statements that quantify over floats speak about their values: a
    finite float is read as an integer number of units of [2 ^ - off]. *)

(** The value of a finite float in units of [2 ^ (- off)]; the sign of a zero
    is forgotten. *)
Definition Zval (off : Z) (x : spec_float) : Z :=
  match x with
  | S754_finite s m e => cond_Zopp s (Zpos m * 2 ^ (e + off))
  | _ => 0
  end.

Definition is_finite (x : spec_float) : bool :=
  match x with
  | S754_zero _ | S754_finite _ _ _ => true
  | _ => false
  end.

(** What [binary_round_aux] returns once the mantissa [m], counted in units
    of [2 ^ E], has been chosen: a zero, or the canonical float of that
    value, or an infinity when its exponent leaves the format. *)
Definition round_result (prec emax : Z) (s : bool) (m E : Z) (R : spec_float)
  : Prop :=
  (m = 0 /\ R = S754_zero s)
  \/ (exists mR eR,
        0 < m /\ E <= eR /\ Zpos mR * 2 ^ (eR - E) = m
        /\ canonical_mantissa prec emax mR eR = true
        /\ eR = fexp prec emax (Zdigits2 m + E)
        /\ R = if eR <=? emax - prec then S754_finite s mR eR
               else S754_infinity s).

(** Values are counted in units of [2 ^ -1074], the smallest positive
    double. *)
Definition off : Z := 1074.
Definition sv (x : spec_float) : Z := Zval off x.

(** Constants of the conversion to degrees: 180 pi and 180 * 2^-149 as
    doubles, 180.25, 180.75 and -179.75. *)
Definition deg_T0 : spec_float := S754_finite false 4974073557811200 (-43).
Definition deg_T1 : spec_float := S754_finite false 6333186975989760 (-194).
Definition deg_U0 : spec_float := S754_finite false 6341983069011968 (-45).
Definition deg_hi : spec_float := S754_finite false 6359575255056384 (-45).
Definition deg_lo : spec_float := S754_finite true 6324390882967552 (-45).

Ltac hide_powers :=
  repeat match goal with
  | |- context [2 ^ ?k] =>
      let x := fresh "pw" in set (x := 2 ^ k) in *; clearbody x
  | H : context [2 ^ ?k] |- _ =>
      let x := fresh "pw" in set (x := 2 ^ k) in *; clearbody x
  end.

(** Float constants used as bounds: powers of two. *)
Definition f_pow2 (k : Z) : spec_float := S754_finite false 8388608 (k - 23).
Definition d_pow2 (k : Z) : spec_float := S754_finite false 4503599627370496 (k - 52).

(** A coordinate normalised to the camera frame: a valid float in [0, 1]. *)
Definition normalized (v : Float.t) : bool :=
  Float.valid v && Float.leb Float.zero v && Float.leb v (Float.of_int 1).

(** The double that [radianToDegree] hands to [floor]. *)
Definition degrees_plus_half (radian : Float.t) : Double.t :=
  Double.add
    (Double.div (Double.mul (Double.of_float radian) (Double.of_int 180))
       Double.M_PI)
    (Double.literal 5 10).

(** [std::isnan] *)
Definition is_nan (x : spec_float) : bool :=
  match x with
  | S754_nan => true
  | _ => false
  end.

(** A float that is not below zero: [+0], a positive number or plus
    infinity; or a NaN, which is below nothing. *)
Definition not_negative (x : spec_float) : bool :=
  match x with
  | S754_zero s | S754_infinity s | S754_finite s _ _ => negb s
  | S754_nan => true
  end.

(** What the C library promises of [atan2] on finite arguments, away from
    the axes: a float between -pi and pi. *)
Definition atan2_in_range (atan2_finite : Float.t -> Float.t -> Float.t)
  : Prop :=
  forall sy my ey sx mx ex,
    Float.valid
      (atan2_finite (S754_finite sy my ey) (S754_finite sx mx ex)) = true
    /\ Float.leb (SFopp pi_f)
         (atan2_finite (S754_finite sy my ey) (S754_finite sx mx ex)) = true
    /\ Float.leb
         (atan2_finite (S754_finite sy my ey) (S754_finite sx mx ex)) pi_f
       = true.

(** A landmark whose x and y are normalised to the camera frame. *)
Definition normalized_landmark (p : NormalizedLandmark.t) : bool :=
  normalized (NormalizedLandmark.x p) && normalized (NormalizedLandmark.y p).

(** * Floating-point arithmetic on arbitrary arguments

    The statements on thresholds and angles hold for every frame, so they need
    the operations of [SpecFloat] on arguments that are not known: how many
    digits a mantissa has, what a shift loses, where rounding lands.  The
    main fact is that rounding never crosses a number of the format: a bound
    on the exact result that is itself a float is a bound on the rounded
    result. *)

(** ** Digits of a mantissa *)

Lemma digits2_pos_bounds (m : positive) :
  2 ^ (Zpos (digits2_pos m) - 1) <= Zpos m < 2 ^ Zpos (digits2_pos m).
Proof.
  induction m as [m IH|m IH|]; cbn [digits2_pos].
  - rewrite Pos2Z.inj_succ. replace (Z.succ (Zpos (digits2_pos m)) - 1) with (Zpos (digits2_pos m)) by lia.
    rewrite Z.pow_succ_r by lia.
    assert (H : 2 ^ Zpos (digits2_pos m) = 2 * 2 ^ (Zpos (digits2_pos m) - 1)).
    { rewrite <- Z.pow_succ_r by lia. f_equal. lia. }
    rewrite (Pos2Z.inj_xI m).
    set (a := 2 ^ Zpos (digits2_pos m)) in *. set (b := 2 ^ (Zpos (digits2_pos m) - 1)) in *.
    clearbody a b. lia.
  - rewrite Pos2Z.inj_succ. replace (Z.succ (Zpos (digits2_pos m)) - 1) with (Zpos (digits2_pos m)) by lia.
    rewrite Z.pow_succ_r by lia.
    assert (H : 2 ^ Zpos (digits2_pos m) = 2 * 2 ^ (Zpos (digits2_pos m) - 1)).
    { rewrite <- Z.pow_succ_r by lia. f_equal. lia. }
    rewrite (Pos2Z.inj_xO m).
    set (a := 2 ^ Zpos (digits2_pos m)) in *. set (b := 2 ^ (Zpos (digits2_pos m) - 1)) in *.
    clearbody a b. lia.
  - simpl. lia.
Qed.

(* uniqueness of the digit count *)
Lemma digits_unique (m d : Z) : 0 < d -> 2 ^ (d - 1) <= m < 2 ^ d -> forall p, m = Zpos p -> Zpos (digits2_pos p) = d.
Proof.
  intros Hd H p ->. pose proof (digits2_pos_bounds p) as Hp.
  set (d' := Zpos (digits2_pos p)) in *.
  assert (Hd' : 0 < d') by (unfold d'; lia).
  destruct (Z.lt_trichotomy d' d) as [Hlt|[Heq|Hgt]]; [|exact Heq|].
  - exfalso. assert (2 ^ d' <= 2 ^ (d - 1)) by (apply Z.pow_le_mono_r; lia). lia.
  - exfalso. assert (2 ^ d <= 2 ^ (d' - 1)) by (apply Z.pow_le_mono_r; lia). lia.
Qed.

Lemma shr_1_spec m r s : 0 <= m ->
  shr_1 (Build_shr_record m r s) = Build_shr_record (m / 2) (Z.odd m) (r || s).
Proof.
  intros Hm. destruct m as [|p|p]; [reflexivity| |lia].
  destruct p as [p|p|]; cbn [shr_1].
  - f_equal. rewrite (Pos2Z.inj_xI p). apply Z.div_unique with 1; lia.
  - f_equal. rewrite (Pos2Z.inj_xO p). apply Z.div_unique with 0; lia.
  - reflexivity.
Qed.

Lemma iter_pos_nat {A} (f : A -> A) (p : positive) (x : A) :
  iter_pos f p x = Nat.iter (Pos.to_nat p) f x.
Proof.
  revert x. induction p as [p IH|p IH|]; intros x; cbn [iter_pos].
  - rewrite !IH. rewrite Pos2Nat.inj_xI.
    replace (S (2 * Pos.to_nat p)) with (Pos.to_nat p + (Pos.to_nat p + 1))%nat by lia.
    rewrite !Nat.iter_add. reflexivity.
  - rewrite !IH. rewrite Pos2Nat.inj_xO.
    replace (2 * Pos.to_nat p)%nat with (Pos.to_nat p + Pos.to_nat p)%nat by lia.
    rewrite Nat.iter_add. reflexivity.
  - reflexivity.
Qed.

(* k shifts of a nonnegative mantissa *)
Lemma iter_shr_1 (k : nat) m r s : 0 <= m ->
  shr_m (Nat.iter k shr_1 (Build_shr_record m r s)) = m / 2 ^ Z.of_nat k
  /\ (r = false -> s = false -> m mod 2 ^ Z.of_nat k = 0 ->
      shr_r (Nat.iter k shr_1 (Build_shr_record m r s)) = false
      /\ shr_s (Nat.iter k shr_1 (Build_shr_record m r s)) = false).
Proof.
  intros Hm. induction k as [|k IH].
  - simpl. split; [rewrite Z.div_1_r; reflexivity|]. intros -> -> _. split; reflexivity.
  - rewrite !Nat.iter_succ. destruct IH as [IHm IHrs].
    destruct (Nat.iter k shr_1 _) as [mk rk sk] eqn:E. cbn [shr_m shr_r shr_s] in *.
    assert (Hmk : 0 <= mk) by (subst mk; apply Z.div_pos; lia).
    rewrite shr_1_spec by exact Hmk. cbn [shr_m shr_r shr_s].
    rewrite Nat2Z.inj_succ, Z.pow_succ_r by lia.
    split.
    + subst mk. rewrite Z.div_div by lia. f_equal. lia.
    + intros Hr Hs Hmod.
      assert (Hk : m mod 2 ^ Z.of_nat k = 0).
      { apply Z.mod_divide in Hmod; [|lia]. apply Z.mod_divide; [lia|].
        destruct Hmod as [c Hc]. exists (c * 2). lia. }
      destruct (IHrs Hr Hs Hk) as [-> ->]. split; [|reflexivity].
      subst mk. apply Z.mod_divide in Hmod; [|lia]. destruct Hmod as [c Hc].
      subst m. replace (c * (2 * 2 ^ Z.of_nat k)) with (c * 2 * 2 ^ Z.of_nat k) by lia.
      rewrite Z.div_mul by lia. rewrite Z.odd_mul. simpl. apply andb_false_r.
Qed.

(* one shift more than the mantissa has digits: the round bit is clear *)
Lemma iter_shr_1_round_bit (k : nat) m r s : 0 <= m < 2 ^ Z.of_nat k ->
  shr_r (Nat.iter (S k) shr_1 (Build_shr_record m r s)) = false.
Proof.
  intros Hm. rewrite Nat.iter_succ.
  destruct (iter_shr_1 k m r s (proj1 Hm)) as [Hk _].
  destruct (Nat.iter k shr_1 _) as [mk rk sk]. cbn [shr_m] in Hk.
  rewrite Z.div_small in Hk by exact Hm. subst mk. reflexivity.
Qed.

(** ** Digits of an integer, shifts to the right *)

Lemma Zdigits2_pos_bounds m : 0 < m ->
  0 < Zdigits2 m /\ 2 ^ (Zdigits2 m - 1) <= m < 2 ^ Zdigits2 m.
Proof.
  intros H. destruct m as [|p|p]; try lia. cbn [Zdigits2].
  split; [lia|apply digits2_pos_bounds].
Qed.

Lemma Zdigits2_0 : Zdigits2 0 = 0.
Proof. reflexivity. Qed.

Lemma Zdigits2_nonneg m : 0 <= m -> 0 <= Zdigits2 m.
Proof. intros H. destruct m; cbn [Zdigits2]; lia. Qed.

Lemma Zdigits2_le_pow m k : 0 <= k -> 0 <= m < 2 ^ k -> Zdigits2 m <= k.
Proof.
  intros Hk [H0 H]. destruct (Z.eq_dec m 0) as [->|Hm]; [cbn; lia|].
  destruct (Zdigits2_pos_bounds m ltac:(lia)) as (Hd & Hlo & _).
  destruct (Z.le_gt_cases (Zdigits2 m) k) as [|Hgt]; [assumption|exfalso].
  assert (2 ^ k <= 2 ^ (Zdigits2 m - 1)) by (apply Z.pow_le_mono_r; lia). lia.
Qed.

Lemma Zdigits2_gt_pow m k : 0 <= k -> 2 ^ k <= m -> k < Zdigits2 m.
Proof.
  intros Hk H. assert (0 < 2 ^ k) by (apply Z.pow_pos_nonneg; lia).
  destruct (Zdigits2_pos_bounds m ltac:(lia)) as (Hd & _ & Hhi).
  destruct (Z.lt_ge_cases k (Zdigits2 m)) as [|Hge]; [assumption|exfalso].
  assert (2 ^ Zdigits2 m <= 2 ^ k) by (apply Z.pow_le_mono_r; lia). lia.
Qed.

Lemma Zdigits2_mono a b : 0 <= a <= b -> Zdigits2 a <= Zdigits2 b.
Proof.
  intros [Ha Hab]. destruct (Z.eq_dec a 0) as [->|Hna].
  - cbn. apply Zdigits2_nonneg. lia.
  - destruct (Zdigits2_pos_bounds a ltac:(lia)) as (Hd & Hlo & _).
    assert (Zdigits2 a - 1 < Zdigits2 b) by (apply Zdigits2_gt_pow; lia). lia.
Qed.

Lemma loc_of_shr_record_of_loc m l : loc_of_shr_record (shr_record_of_loc m l) = l.
Proof. destruct l as [|[| |]]; reflexivity. Qed.

Lemma shr_m_of_loc m l : shr_m (shr_record_of_loc m l) = m.
Proof. destruct l as [|[| |]]; reflexivity. Qed.

Lemma round_nearest_even_bounds m l :
  m <= round_nearest_even m l <= m + 1.
Proof.
  destruct l as [|[| |]]; cbn [round_nearest_even]; try lia.
  destruct (Z.even m); lia.
Qed.

Section Shifts.

Variables prec emax : Z.
Hypothesis Hprec : 0 < prec.

Let fexp := SpecFloat.fexp prec emax.
Let emin := SpecFloat.emin prec emax.

Lemma fexp_mono a b : a <= b -> fexp a <= fexp b.
Proof. unfold fexp, emin, SpecFloat.fexp. lia. Qed.

Lemma fexp_succ a : fexp (a + 1) <= fexp a + 1.
Proof. unfold fexp, emin, SpecFloat.fexp. lia. Qed.

Lemma fexp_ge_emin a : emin <= fexp a.
Proof. unfold fexp, emin, SpecFloat.fexp. lia. Qed.

Lemma shr_spec m r s e n : 0 <= m -> 0 <= n ->
  exists mrs, shr (Build_shr_record m r s) e n = (mrs, e + n)
    /\ shr_m mrs = m / 2 ^ n
    /\ (n = 0 -> mrs = Build_shr_record m r s)
    /\ (r = false -> s = false -> m mod 2 ^ n = 0 ->
        shr_r mrs = false /\ shr_s mrs = false)
    /\ (0 < n -> m < 2 ^ (n - 1) -> shr_r mrs = false).
Proof.
  intros Hm Hn. unfold shr. destruct n as [|p|p]; [| |lia].
  - exists (Build_shr_record m r s). rewrite Z.add_0_r, Z.div_1_r.
    repeat split; auto. lia.
  - eexists. split; [reflexivity|]. rewrite iter_pos_nat.
    destruct (iter_shr_1 (Pos.to_nat p) m r s Hm) as [H1 H2].
    rewrite positive_nat_Z in H1, H2. split; [exact H1|]. split; [discriminate|].
    split; [exact H2|]. intros _ Hlt.
    destruct (Pos.to_nat p) as [|k] eqn:Ek; [lia|].
    apply iter_shr_1_round_bit. split; [exact Hm|].
    replace (Z.of_nat k) with (Zpos p - 1) by lia. exact Hlt.
Qed.

Lemma shr_fexp_spec m e l : 0 <= m ->
  let n := fexp (Zdigits2 m + e) - e in
  0 <= n ->
  exists mrs, shr_fexp prec emax m e l = (mrs, e + n)
    /\ shr_m mrs = m / 2 ^ n
    /\ (n = 0 -> loc_of_shr_record mrs = l)
    /\ (l = loc_Exact -> m mod 2 ^ n = 0 -> loc_of_shr_record mrs = loc_Exact)
    /\ (0 < n -> m < 2 ^ (n - 1) -> shr_r mrs = false).
Proof.
  intros Hm n Hn. unfold shr_fexp. fold fexp. fold n.
  destruct (shr_record_of_loc m l) as [m0 r0 s0] eqn:E.
  assert (Hm0 : m0 = m) by (rewrite <- (shr_m_of_loc m l), E; reflexivity).
  subst m0.
  destruct (shr_spec m r0 s0 e n Hm Hn) as (mrs & H1 & H2 & H3 & H4 & H5).
  exists mrs. split; [exact H1|]. split; [exact H2|]. split; [|split; [|exact H5]].
  - intros H0. rewrite (H3 H0), <- E. apply loc_of_shr_record_of_loc.
  - intros -> Hmod. cbn in E. injection E as <- <-.
    destruct (H4 eq_refl eq_refl Hmod) as [Hr Hs].
    destruct mrs as [a b c]. cbn in Hr, Hs. subst. reflexivity.
Qed.

End Shifts.

(** ** Rounding a mantissa and its location: [binary_round_aux] *)

Lemma div_pow2_lt m d n : 0 <= n <= d -> 0 <= m < 2 ^ d -> m / 2 ^ n < 2 ^ (d - n).
Proof.
  intros Hn Hm. apply Z.div_lt_upper_bound; [apply Z.pow_pos_nonneg; lia|].
  rewrite <- Z.pow_add_r by lia. replace (n + (d - n)) with d by lia. lia.
Qed.

Lemma div_pow2_ge m d n : 0 <= n <= d -> 2 ^ d <= m -> 2 ^ (d - n) <= m / 2 ^ n.
Proof.
  intros Hn Hm. apply Z.div_le_lower_bound; [apply Z.pow_pos_nonneg; lia|].
  rewrite <- Z.pow_add_r by lia. replace (n + (d - n)) with d by lia. lia.
Qed.

Lemma div_pow2_small m d n : 0 <= d <= n -> 0 <= m < 2 ^ d -> m / 2 ^ n = 0.
Proof.
  intros Hn Hm. apply Z.div_small. split; [lia|].
  assert (2 ^ d <= 2 ^ n) by (apply Z.pow_le_mono_r; lia). lia.
Qed.

Lemma pow2_pred k : 0 < k -> 2 ^ k = 2 ^ (k - 1) * 2.
Proof.
  intros H. rewrite Z.mul_comm, <- Z.pow_succ_r by lia. f_equal. lia.
Qed.

Section RoundAux.

Variables prec emax : Z.
Hypothesis Hprec : 0 < prec.

Let fexp := SpecFloat.fexp prec emax.
Let emin := SpecFloat.emin prec emax.

Lemma binary_round_aux_spec s p e l :
  let E := fexp (Zpos (digits2_pos p) + e) in
  e <= E ->
  exists m,
    Zpos p / 2 ^ (E - e) <= m <= Zpos p / 2 ^ (E - e) + 1
    /\ (l = loc_Exact -> Zpos p mod 2 ^ (E - e) = 0 -> m = Zpos p / 2 ^ (E - e))
    /\ (0 < E - e -> Zpos p < 2 ^ (E - e - 1) -> m = 0)
    /\ round_result prec emax s m E (binary_round_aux prec emax s (Zpos p) e l).
Proof.
  intros E HE. set (d := Zpos (digits2_pos p)) in *.
  set (n := E - e). assert (Hn : 0 <= n) by (unfold n; lia).
  pose proof (digits2_pos_bounds p) as Hp. fold d in Hp.
  assert (Hd : 0 < d) by (unfold d; lia).
  assert (HEd : d + e - prec <= E) by (unfold E, fexp, SpecFloat.fexp; lia).
  assert (HEmin : emin <= E) by (unfold E, emin; apply fexp_ge_emin).
  unfold binary_round_aux.
  destruct (shr_fexp_spec prec emax (Zpos p) e l ltac:(lia))
    as (mrs1 & H1 & Hq & _ & Hex1 & Hrb).
  { cbn [Zdigits2]. fold d. fold fexp. fold E. lia. }
  cbn [Zdigits2] in H1, Hq, Hex1, Hrb. fold d fexp E n in H1, Hq, Hex1, Hrb.
  rewrite H1. replace (e + n) with E by (unfold n; lia).
  set (q := Zpos p / 2 ^ n) in *.
  assert (Hq0 : 0 <= q) by (apply Z.div_pos; [lia|apply Z.pow_pos_nonneg; lia]).
  set (m := round_nearest_even (shr_m mrs1) (loc_of_shr_record mrs1)).
  assert (Hm : q <= m <= q + 1).
  { unfold m. rewrite Hq. apply round_nearest_even_bounds. }
  assert (Hmex : l = loc_Exact -> Zpos p mod 2 ^ n = 0 -> m = q).
  { intros Hl Hmod. unfold m. rewrite (Hex1 Hl Hmod), Hq. reflexivity. }
  assert (Hm0' : 0 < n -> Zpos p < 2 ^ (n - 1) -> m = 0).
  { intros Hn0 Hlt. specialize (Hrb Hn0 Hlt).
    assert (Hq' : q = 0).
    { unfold q. apply Z.div_small. split; [lia|].
      assert (2 ^ (n - 1) <= 2 ^ n) by (apply Z.pow_le_mono_r; lia). lia. }
    unfold m. rewrite Hq, Hq'. destruct mrs1 as [m1 r1 s1]. cbn [shr_r] in Hrb.
    subst r1. destruct s1; reflexivity. }
  exists m. split; [exact Hm|]. split; [exact Hmex|]. split; [exact Hm0'|].
  set (n2 := fexp (Zdigits2 m + E) - E).
  (* the second normalisation shifts by 0 or 1 *)
  assert (Hqhi : q < 2 ^ (d - n) \/ (d < n /\ q = 0)).
  { destruct (Z.le_gt_cases n d) as [Hnd|Hnd].
    - left. apply div_pow2_lt; lia.
    - right. split; [lia|]. apply (div_pow2_small _ d); lia. }
  assert (Hn2 : m = 0 \/ (0 < m /\ (n2 = 0 \/ (n2 = 1 /\ m = 2 ^ prec)))).
  { destruct (Z.eq_dec m 0) as [Hm0|Hm0]; [left; exact Hm0|right].
    split; [lia|].
    destruct (Zdigits2_pos_bounds m ltac:(lia)) as (Hdm & Hmlo & Hmhi).
    destruct Hqhi as [Hqhi|[Hdn Hq']].
    - (* d - n digits are left after the shift *)
      assert (Hdn : n <= d).
      { destruct (Z.le_gt_cases n d); [assumption|].
        rewrite Z.pow_neg_r in Hqhi by lia. lia. }
      assert (Hup : Zdigits2 m <= d - n + 1).
      { apply Zdigits2_le_pow; [lia|]. split; [lia|].
        rewrite Z.pow_add_r by lia. change (2 ^ 1) with 2. lia. }
      assert (Hlo : d - n <= Zdigits2 m).
      { destruct (Z.eq_dec d n) as [Hdn_eq|Hne]; [lia|].
        assert (2 ^ (d - 1 - n) <= q) by (apply div_pow2_ge; lia).
        assert (d - 1 - n < Zdigits2 m) by (apply Zdigits2_gt_pow; lia). lia. }
      assert (HfE : fexp (d - n + E) = E).
      { replace (d - n + E) with (d + e) by (unfold n; lia). reflexivity. }
      assert (Hf1 : E <= fexp (Zdigits2 m + E)).
      { rewrite <- HfE at 1. apply (fexp_mono prec emax). lia. }
      assert (Hf2 : fexp (Zdigits2 m + E) <= E + 1).
      { pose proof (fexp_mono prec emax (Zdigits2 m + E) (d - n + E + 1) ltac:(lia)) as Ha.
        pose proof (fexp_succ prec emax (d - n + E)) as Hb.
        fold fexp in Ha, Hb. rewrite HfE in Hb. lia. }
      destruct (Z.eq_dec n2 0) as [H0|H0]; [left; exact H0|right].
      assert (Hn21 : n2 = 1) by (unfold n2 in *; lia).
      split; [exact Hn21|].
      assert (Hdm' : Zdigits2 m = prec + 1).
      { unfold n2, fexp, SpecFloat.fexp in Hn21. fold emin in Hn21. lia. }
      assert (Hdp : d - n = prec) by (unfold n in *; lia).
      rewrite Hdm' in Hmlo. replace (prec + 1 - 1) with prec in Hmlo by lia.
      rewrite Hdp in Hqhi. lia.
    - (* everything was shifted out *)
      assert (Hm1 : m = 1) by lia.
      assert (HEe : E = emin).
      { unfold E, fexp, SpecFloat.fexp. fold emin.
        unfold E, fexp, SpecFloat.fexp in HEd. fold emin in HEd.
        unfold n, E, fexp, SpecFloat.fexp in Hdn. fold emin in Hdn. lia. }
      left. unfold n2. rewrite Hm1. cbn [Zdigits2 digits2_pos].
      unfold fexp, SpecFloat.fexp. fold emin. lia. }
  destruct Hn2 as [Hm0|(Hmpos & Hn2)].
  - (* zero *)
    left. split; [exact Hm0|]. fold m. rewrite Hm0.
    unfold shr_fexp. cbn [Zdigits2 shr_record_of_loc].
    assert (Hs : SpecFloat.fexp prec emax (0 + E) - E <= 0).
    { unfold SpecFloat.fexp. fold emin. lia. }
    unfold shr. destruct (SpecFloat.fexp prec emax (0 + E) - E); try lia; reflexivity.
  - right. fold m.
    destruct (shr_fexp_spec prec emax m E loc_Exact ltac:(lia)) as (mrs2 & H2 & Hq2 & _).
    { fold fexp. fold n2. lia. }
    fold fexp in H2, Hq2. fold n2 in H2, Hq2. rewrite H2.
    assert (Hdiv : shr_m mrs2 * 2 ^ n2 = m /\ 0 < shr_m mrs2).
    { rewrite Hq2. destruct Hn2 as [->|[-> ->]].
      - rewrite Z.pow_0_r, Z.div_1_r. lia.
      - change (2 ^ 1) with 2.
        replace (2 ^ prec) with (2 ^ (prec - 1) * 2).
        2:{ symmetry. apply pow2_pred. exact Hprec. }
        rewrite Z.div_mul by lia. split; [reflexivity|apply Z.pow_pos_nonneg; lia]. }
    destruct Hdiv as [Hdiv HmR]. destruct (shr_m mrs2) as [|mR|mR] eqn:EmR; try lia.
    exists mR, (E + n2). split; [exact Hmpos|]. split; [lia|].
    replace (E + n2 - E) with n2 by lia. split; [exact Hdiv|].
    assert (HeR : E + n2 = fexp (Zdigits2 m + E)) by (unfold n2; lia).
    split; [|split; [exact HeR|reflexivity]].
    unfold canonical_mantissa. apply Z.eqb_eq. fold fexp.
    destruct Hn2 as [H0|[H1' Hm2]].
    + rewrite H0, Z.pow_0_r, Z.mul_1_r in Hdiv. rewrite H0, Z.add_0_r.
      change (Zpos (digits2_pos mR)) with (Zdigits2 (Zpos mR)). rewrite Hdiv.
      unfold n2 in H0. lia.
    + assert (HmR' : Zpos mR = 2 ^ (prec - 1)).
      { rewrite H1', Hm2 in Hdiv. change (2 ^ 1) with 2 in Hdiv.
        pose proof (pow2_pred prec Hprec). lia. }
      assert (Hdig : Zpos (digits2_pos mR) = prec).
      { apply (digits_unique (2 ^ (prec - 1)) prec Hprec); [|symmetry; exact HmR'].
        split; [lia|]. apply Z.pow_lt_mono_r; lia. }
      rewrite Hdig. unfold fexp, SpecFloat.fexp. fold emin. lia.
Qed.

End RoundAux.

(** ** The order of canonical floats is the order of their values *)

Lemma pow2_pos k : 0 <= k -> 0 < 2 ^ k.
Proof. intros. apply Z.pow_pos_nonneg; lia. Qed.

Lemma pow2_split a b : 0 <= a -> 0 <= b -> 2 ^ (a + b) = 2 ^ a * 2 ^ b.
Proof. intros. apply Z.pow_add_r; lia. Qed.

Lemma Zdigits2_mul_pow2 m k : 0 < m -> 0 <= k -> Zdigits2 (m * 2 ^ k) = Zdigits2 m + k.
Proof.
  intros Hm Hk. destruct (Zdigits2_pos_bounds m Hm) as (Hd & Hlo & Hhi).
  pose proof (pow2_pos k Hk) as Hpk.
  assert (Hmk : 0 < m * 2 ^ k) by lia.
  destruct (m * 2 ^ k) as [|p|p] eqn:E; try lia.
  cbn [Zdigits2]. apply (digits_unique (Zpos p)); [lia| |reflexivity].
  rewrite <- E. replace (Zdigits2 m + k - 1) with (Zdigits2 m - 1 + k) by lia.
  rewrite !pow2_split by lia. split.
  - apply Z.mul_le_mono_nonneg_r; lia.
  - apply Z.mul_lt_mono_pos_r; lia.
Qed.

Section Order.

Variables prec emax : Z.
Hypothesis Hprec : 0 < prec.

Let fexp := SpecFloat.fexp prec emax.
Let emin := SpecFloat.emin prec emax.

Lemma canonical_exponent m e :
  canonical_mantissa prec emax m e = true ->
  emin <= e /\ Zpos (digits2_pos m) <= prec
  /\ (emin < e -> Zpos (digits2_pos m) = prec).
Proof.
  unfold canonical_mantissa. intros H. apply Z.eqb_eq in H.
  unfold SpecFloat.fexp in H. fold emin in H. lia.
Qed.

(** On canonical mantissas the order of the values is read off the
    exponents first. *)
Lemma canonical_lt_exponent m1 e1 m2 e2 off :
  canonical_mantissa prec emax m1 e1 = true ->
  canonical_mantissa prec emax m2 e2 = true ->
  0 <= e1 + off -> e1 < e2 ->
  Zpos m1 * 2 ^ (e1 + off) < Zpos m2 * 2 ^ (e2 + off).
Proof.
  intros H1 H2 Hoff Hlt.
  destruct (canonical_exponent _ _ H1) as (He1 & Hd1 & _).
  destruct (canonical_exponent _ _ H2) as (He2 & _ & Hd2).
  specialize (Hd2 ltac:(lia)).
  pose proof (digits2_pos_bounds m1) as B1. pose proof (digits2_pos_bounds m2) as B2.
  rewrite Hd2 in B2.
  assert (Hm1 : Zpos m1 < 2 ^ prec).
  { assert (2 ^ Zpos (digits2_pos m1) <= 2 ^ prec) by (apply Z.pow_le_mono_r; lia).
    hide_powers. lia. }
  replace (e2 + off) with ((e2 - e1 - 1) + 1 + (e1 + off)) by lia.
  rewrite (pow2_split (e2 - e1 - 1 + 1) (e1 + off)), (pow2_split (e2 - e1 - 1) 1) by lia.
  change (2 ^ 1) with 2.
  pose proof (pow2_pos (e1 + off) Hoff). pose proof (pow2_pos (e2 - e1 - 1) ltac:(lia)).
  pose proof (pow2_pred prec Hprec) as Hpp.
  set (A := 2 ^ (e1 + off)) in *. set (K := 2 ^ (e2 - e1 - 1)) in *.
  set (P := 2 ^ prec) in *. set (P1 := 2 ^ (prec - 1)) in *.
  clearbody A K P P1.
  assert (Zpos m1 < Zpos m2 * (K * 2)) by nia.
  nia.
Qed.

Lemma SFcompare_Zval a b off :
  valid_binary prec emax a = true -> valid_binary prec emax b = true ->
  is_finite a = true -> is_finite b = true ->
  0 <= emin + off ->
  SFcompare a b = Some (Zval off a ?= Zval off b).
Proof.
  intros Va Vb Fa Fb Hoff.
  destruct a as [sa|sa| |sa ma ea], b as [sb|sb| |sb mb eb]; try discriminate;
    cbn [SFcompare Zval].
  - reflexivity.
  - cbn in Vb. apply andb_prop in Vb. destruct Vb as [Cb _].
    destruct (canonical_exponent _ _ Cb) as (Heb & _).
    pose proof (pow2_pos (eb + off) ltac:(lia)).
    destruct sb; cbn [cond_Zopp]; f_equal; symmetry.
    + apply Z.compare_gt_iff. lia.
    + apply Z.compare_lt_iff. lia.
  - cbn in Va. apply andb_prop in Va. destruct Va as [Ca _].
    destruct (canonical_exponent _ _ Ca) as (Hea & _).
    pose proof (pow2_pos (ea + off) ltac:(lia)).
    destruct sa; cbn [cond_Zopp]; f_equal; symmetry.
    + apply Z.compare_lt_iff. lia.
    + apply Z.compare_gt_iff. lia.
  - cbn in Va, Vb. apply andb_prop in Va, Vb. destruct Va as [Ca _], Vb as [Cb _].
    destruct (canonical_exponent _ _ Ca) as (Hea & _).
    destruct (canonical_exponent _ _ Cb) as (Heb & _).
    pose proof (pow2_pos (ea + off) ltac:(lia)) as Pa.
    pose proof (pow2_pos (eb + off) ltac:(lia)) as Pb.
    f_equal.
    destruct sa, sb; cbn [cond_Zopp].
    + (* both negative *)
      destruct (Z.compare_spec ea eb) as [Heq|Hlt|Hgt].
      * subst eb. rewrite Pos.compare_cont_spec. cbn [Pos.switch_Eq].
        destruct (Pos.compare_spec ma mb) as [E|E|E]; cbn [CompOpp]; symmetry.
        -- apply Z.compare_eq_iff. rewrite E. reflexivity.
        -- apply Z.compare_gt_iff. apply Pos2Z.pos_lt_pos in E. nia.
        -- apply Z.compare_lt_iff. apply Pos2Z.pos_lt_pos in E. nia.
      * symmetry. apply Z.compare_gt_iff.
        pose proof (canonical_lt_exponent _ _ _ _ off Ca Cb ltac:(lia) Hlt). lia.
      * symmetry. apply Z.compare_lt_iff.
        pose proof (canonical_lt_exponent _ _ _ _ off Cb Ca ltac:(lia) Hgt). lia.
    + symmetry. apply Z.compare_lt_iff. nia.
    + symmetry. apply Z.compare_gt_iff. nia.
    + destruct (Z.compare_spec ea eb) as [Heq|Hlt|Hgt].
      * subst eb. rewrite Pos.compare_cont_spec. cbn [Pos.switch_Eq].
        destruct (Pos.compare_spec ma mb) as [E|E|E]; symmetry.
        -- apply Z.compare_eq_iff. rewrite E. reflexivity.
        -- apply Z.compare_lt_iff. apply Pos2Z.pos_lt_pos in E. nia.
        -- apply Z.compare_gt_iff. apply Pos2Z.pos_lt_pos in E. nia.
      * symmetry. apply Z.compare_lt_iff.
        apply (canonical_lt_exponent _ _ _ _ off Ca Cb ltac:(lia) Hlt).
      * symmetry. apply Z.compare_gt_iff.
        pose proof (canonical_lt_exponent _ _ _ _ off Cb Ca ltac:(lia) Hgt). lia.
Qed.

End Order.

(** ** Rounding does not cross a float *)

Lemma pow2_lt_inv a b : 0 <= b -> 2 ^ a < 2 ^ b -> a < b.
Proof.
  intros Hb H. destruct (Z.lt_ge_cases a b) as [|Hge]; [assumption|exfalso].
  assert (2 ^ b <= 2 ^ a) by (apply Z.pow_le_mono_r; lia). lia.
Qed.

Lemma binary_round_aux_opp prec emax s m e l :
  binary_round_aux prec emax (negb s) m e l
  = SFopp (binary_round_aux prec emax s m e l).
Proof.
  unfold binary_round_aux.
  destruct (shr_fexp prec emax m e l) as [mrs1 e1].
  destruct (shr_fexp prec emax _ e1 loc_Exact) as [mrs2 e2].
  destruct (shr_m mrs2); [reflexivity| |reflexivity].
  destruct (e2 <=? emax - prec); reflexivity.
Qed.

Section RoundBounds.

Variables prec emax : Z.
Hypothesis Hprec : 0 < prec.

Let fexp := SpecFloat.fexp prec emax.
Let emin := SpecFloat.emin prec emax.

(** Rounding does not cross a representable number above. *)
Lemma round_le s p e l mB eB off :
  e <= fexp (Zpos (digits2_pos p) + e) ->
  bounded prec emax mB eB = true ->
  0 <= e + off -> 0 <= eB + off ->
  Zpos p * 2 ^ (e + off) < Zpos mB * 2 ^ (eB + off)
  \/ (Zpos p * 2 ^ (e + off) = Zpos mB * 2 ^ (eB + off) /\ l = loc_Exact) ->
  binary_round_aux prec emax s (Zpos p) e l = S754_zero s
  \/ exists mR eR,
      binary_round_aux prec emax s (Zpos p) e l = S754_finite s mR eR
      /\ bounded prec emax mR eR = true
      /\ Zpos mR * 2 ^ (eR + off) <= Zpos mB * 2 ^ (eB + off).
Proof.
  intros Hgrid HB Hoff HoffB Hle.
  apply andb_prop in HB. destruct HB as [CB HeB]. apply Z.leb_le in HeB.
  pose proof CB as CB'. unfold canonical_mantissa in CB'. apply Z.eqb_eq in CB'.
  fold fexp in CB'.
  destruct (binary_round_aux_spec prec emax Hprec s p e l Hgrid) as (m & Hm & Hex & _ & HR).
  fold fexp in Hm, Hex, HR.
  set (d := Zpos (digits2_pos p)) in *. set (dB := Zpos (digits2_pos mB)) in *.
  set (E := fexp (d + e)) in *.
  pose proof (digits2_pos_bounds p) as Bp. fold d in Bp.
  pose proof (digits2_pos_bounds mB) as BB. fold dB in BB.
  assert (Hd : 0 < d) by (unfold d; lia). assert (HdB : 0 < dB) by (unfold dB; lia).
  pose proof (pow2_pos (e + off) Hoff) as PA.
  pose proof (pow2_pos (eB + off) HoffB) as PB.
  (* the binade of the value is not above the binade of the bound *)
  assert (Hbin : d + e <= dB + eB).
  { assert (H1 : 2 ^ (d - 1 + (e + off)) <= Zpos p * 2 ^ (e + off)).
    { rewrite (pow2_split (d - 1) (e + off)) by lia. apply Z.mul_le_mono_nonneg_r; lia. }
    assert (H2 : Zpos mB * 2 ^ (eB + off) < 2 ^ (dB + (eB + off))).
    { rewrite (pow2_split dB (eB + off)) by lia. apply Z.mul_lt_mono_pos_r; lia. }
    assert (H3 : 2 ^ (d - 1 + (e + off)) < 2 ^ (dB + (eB + off))) by lia.
    apply pow2_lt_inv in H3; lia. }
  assert (HE : E <= eB).
  { rewrite <- CB'. apply (fexp_mono prec emax). exact Hbin. }
  set (n := E - e) in *. assert (Hn : 0 <= n) by (unfold n; lia).
  set (K := Zpos mB * 2 ^ (eB - E)).
  pose proof (pow2_pos (eB - E) ltac:(lia)) as PK.
  pose proof (pow2_pos n Hn) as Pn.
  assert (HKpos : 0 < K) by (unfold K; lia).
  assert (HBK : Zpos mB * 2 ^ (eB + off) = K * 2 ^ n * 2 ^ (e + off)).
  { unfold K. replace (eB + off) with ((eB - E) + n + (e + off)) by (unfold n; lia).
    rewrite (pow2_split (eB - E + n) (e + off)), (pow2_split (eB - E) n) by lia. ring. }
  assert (HmK : m <= K).
  { destruct Hle as [Hlt|[Heq Hl]].
    - assert (Hlt' : Zpos p < 2 ^ n * K) by (rewrite HBK in Hlt; nia).
      apply Z.div_lt_upper_bound in Hlt'; [|lia]. lia.
    - assert (Heq' : Zpos p = K * 2 ^ n) by (rewrite HBK in Heq; nia).
      rewrite (Hex Hl); rewrite Heq'.
      + rewrite Z.div_mul by lia. lia.
      + apply Z.mod_mul. lia. }
  destruct HR as [[Hm0 HR]|(mR & eR & Hmpos & HEeR & HmR & CR & HeR & HR)].
  - left. exact HR.
  - right. exists mR, eR.
    assert (HeRB : eR <= eB).
    { rewrite HeR, <- CB'. apply (fexp_mono prec emax).
      assert (Zdigits2 m <= Zdigits2 K) by (apply Zdigits2_mono; lia).
      assert (Zdigits2 K = dB + (eB - E)).
      { unfold K. rewrite Zdigits2_mul_pow2 by lia. reflexivity. }
      lia. }
    assert (Hle' : (eR <=? emax - prec) = true) by (apply Z.leb_le; lia).
    rewrite Hle' in HR. split; [exact HR|]. split.
    + unfold bounded. rewrite CR, Hle'. reflexivity.
    + replace (eR + off) with ((eR - E) + (n + (e + off))) by (unfold n; lia).
      rewrite (pow2_split (eR - E) (n + (e + off))), (pow2_split n (e + off)) by lia.
      rewrite HBK. pose proof (pow2_pos (eR - E) ltac:(lia)).
      rewrite Z.mul_assoc, HmR. nia.
Qed.

(** Rounding does not cross a representable number below. *)
Lemma round_ge s p e l mB eB off :
  e <= fexp (Zpos (digits2_pos p) + e) ->
  bounded prec emax mB eB = true ->
  0 <= e + off -> 0 <= eB + off ->
  Zpos mB * 2 ^ (eB + off) <= Zpos p * 2 ^ (e + off) ->
  binary_round_aux prec emax s (Zpos p) e l = S754_infinity s
  \/ exists mR eR,
      binary_round_aux prec emax s (Zpos p) e l = S754_finite s mR eR
      /\ bounded prec emax mR eR = true
      /\ Zpos mB * 2 ^ (eB + off) <= Zpos mR * 2 ^ (eR + off).
Proof.
  intros Hgrid HB Hoff HoffB Hge.
  apply andb_prop in HB. destruct HB as [CB HeB]. apply Z.leb_le in HeB.
  destruct (canonical_exponent prec emax _ _ CB) as (HeBmin & HdBp & _).
  fold emin in HeBmin.
  destruct (binary_round_aux_spec prec emax Hprec s p e l Hgrid) as (m & Hm & _ & _ & HR).
  fold fexp in Hm, HR.
  set (d := Zpos (digits2_pos p)) in *. set (dB := Zpos (digits2_pos mB)) in *.
  set (E := fexp (d + e)) in *.
  pose proof (digits2_pos_bounds p) as Bp. fold d in Bp.
  pose proof (digits2_pos_bounds mB) as BB. fold dB in BB.
  assert (Hd : 0 < d) by (unfold d; lia). assert (HdB : 0 < dB) by (unfold dB; lia).
  pose proof (pow2_pos (e + off) Hoff) as PA.
  pose proof (pow2_pos (eB + off) HoffB) as PB.
  set (n := E - e) in *. assert (Hn : 0 <= n) by (unfold n; lia).
  pose proof (pow2_pos n Hn) as Pn.
  assert (Hval : 0 < m /\ Zpos mB * 2 ^ (eB + off) <= m * 2 ^ (n + (e + off))).
  { destruct (Z.le_gt_cases E eB) as [HE|HE].
    - set (K := Zpos mB * 2 ^ (eB - E)).
      pose proof (pow2_pos (eB - E) ltac:(lia)) as PK.
      assert (HKpos : 0 < K) by (unfold K; lia).
      assert (HBK : Zpos mB * 2 ^ (eB + off) = K * 2 ^ n * 2 ^ (e + off)).
      { unfold K. replace (eB + off) with ((eB - E) + n + (e + off)) by (unfold n; lia).
        rewrite (pow2_split (eB - E + n) (e + off)), (pow2_split (eB - E) n) by lia. ring. }
      assert (HKq : K <= Zpos p / 2 ^ n).
      { apply Z.div_le_lower_bound; [lia|]. rewrite HBK in Hge. nia. }
      split; [lia|]. rewrite HBK, (pow2_split n (e + off)) by lia. nia.
    - assert (HEn : E = d + e - prec).
      { unfold E, fexp, SpecFloat.fexp. fold emin.
        unfold E, fexp, SpecFloat.fexp in HE. fold emin in HE. lia. }
      assert (Hnd : n = d - prec) by (unfold n; lia).
      assert (Hq : 2 ^ (d - 1 - n) <= Zpos p / 2 ^ n) by (apply div_pow2_ge; lia).
      replace (d - 1 - n) with (prec - 1) in Hq by lia.
      pose proof (pow2_pos (prec - 1) ltac:(lia)) as PP.
      split; [lia|].
      assert (H1 : Zpos mB * 2 ^ (eB + off) < 2 ^ (prec + (eB + off))).
      { rewrite (pow2_split prec (eB + off)) by lia.
        assert (2 ^ dB <= 2 ^ prec) by (apply Z.pow_le_mono_r; lia).
        apply Z.mul_lt_mono_pos_r; lia. }
      assert (H2 : 2 ^ (prec + (eB + off)) <= 2 ^ (prec - 1 + (n + (e + off)))).
      { apply Z.pow_le_mono_r; [lia|]. unfold n. lia. }
      assert (H3 : 2 ^ (prec - 1 + (n + (e + off))) <= m * 2 ^ (n + (e + off))).
      { rewrite (pow2_split (prec - 1) (n + (e + off))) by lia.
        apply Z.mul_le_mono_nonneg_r; [|lia].
        apply Z.lt_le_incl, pow2_pos. lia. }
      lia. }
  destruct Hval as [Hmpos Hval].
  destruct HR as [[Hm0 HR]|(mR & eR & _ & HEeR & HmR & CR & HeR & HR)]; [lia|].
  destruct (eR <=? emax - prec) eqn:Hle; [right|left; exact HR].
  exists mR, eR. split; [exact HR|]. split.
  - unfold bounded. rewrite CR, Hle. reflexivity.
  - replace (eR + off) with ((eR - E) + (n + (e + off))) by (unfold n; lia).
    rewrite (pow2_split (eR - E) (n + (e + off))) by lia.
    rewrite Z.mul_assoc, HmR. exact Hval.
Qed.

End RoundBounds.

(** ** [binary_round] *)

(** Comparisons of dyadic numbers do not depend on the unit. *)
Lemma dyadic_le_shift m1 e1 m2 e2 o o' :
  0 <= e1 + o -> 0 <= e2 + o -> 0 <= e1 + o' -> 0 <= e2 + o' ->
  m1 * 2 ^ (e1 + o) <= m2 * 2 ^ (e2 + o) ->
  m1 * 2 ^ (e1 + o') <= m2 * 2 ^ (e2 + o').
Proof.
  intros H1 H2 H1' H2' H.
  destruct (Z.le_ge_cases o o') as [Hle|Hge].
  - replace (e1 + o') with ((e1 + o) + (o' - o)) by lia.
    replace (e2 + o') with ((e2 + o) + (o' - o)) by lia.
    rewrite (pow2_split (e1 + o) (o' - o)), (pow2_split (e2 + o) (o' - o)) by lia.
    pose proof (pow2_pos (o' - o) ltac:(lia)). nia.
  - replace (e1 + o) with ((e1 + o') + (o - o')) in H by lia.
    replace (e2 + o) with ((e2 + o') + (o - o')) in H by lia.
    rewrite (pow2_split (e1 + o') (o - o')), (pow2_split (e2 + o') (o - o')) in H by lia.
    pose proof (pow2_pos (o - o') ltac:(lia)). nia.
Qed.

Lemma dyadic_lt_shift m1 e1 m2 e2 o o' :
  0 <= e1 + o -> 0 <= e2 + o -> 0 <= e1 + o' -> 0 <= e2 + o' ->
  m1 * 2 ^ (e1 + o) < m2 * 2 ^ (e2 + o) ->
  m1 * 2 ^ (e1 + o') < m2 * 2 ^ (e2 + o').
Proof.
  intros H1 H2 H1' H2' H.
  destruct (Z.lt_ge_cases (m1 * 2 ^ (e1 + o')) (m2 * 2 ^ (e2 + o'))) as [|Hge];
    [assumption|exfalso].
  pose proof (dyadic_le_shift m2 e2 m1 e1 o' o H2' H1' H2 H1 Hge). lia.
Qed.

Lemma iter_xO m d : Zpos (Pos.iter xO m d) = Zpos m * 2 ^ Zpos d.
Proof.
  induction d as [|d IH] using Pos.peano_ind.
  - cbn [Pos.iter]. rewrite (Pos2Z.inj_xO m). change (2 ^ 1) with 2. ring.
  - rewrite Pos.iter_succ, (Pos2Z.inj_xO (Pos.iter xO m d)), IH.
    rewrite Pos2Z.inj_succ, Z.pow_succ_r by lia. ring.
Qed.

Lemma shl_align_spec mx ex ex' :
  exists mz ez,
    shl_align mx ex ex' = (mz, ez)
    /\ ez = Z.min ex ex'
    /\ Zpos mz = Zpos mx * 2 ^ (ex - ez).
Proof.
  unfold shl_align. destruct (ex' - ex) as [|d|d] eqn:E.
  - exists mx, ex. replace (ex - ex) with 0 by lia. split; [reflexivity|]. split; lia.
  - exists mx, ex. replace (ex - ex) with 0 by lia. split; [reflexivity|]. split; lia.
  - eexists. eexists. split; [reflexivity|]. split; [lia|].
    replace (ex - ex') with (Zpos d) by lia. apply iter_xO.
Qed.

Section Round.

Variables prec emax : Z.
Hypothesis Hprec : 0 < prec.

Let fexp := SpecFloat.fexp prec emax.
Let emin := SpecFloat.emin prec emax.

(** [binary_round] first aligns the mantissa on the exponent of the format,
    when that loses nothing, and then rounds. *)
Lemma binary_round_spec s p e :
  exists mz ez,
    binary_round prec emax s p e
    = binary_round_aux prec emax s (Zpos mz) ez loc_Exact
    /\ ez = Z.min e (fexp (Zpos (digits2_pos p) + e))
    /\ Zpos mz = Zpos p * 2 ^ (e - ez)
    /\ ez <= fexp (Zpos (digits2_pos mz) + ez).
Proof.
  unfold binary_round. fold fexp.
  destruct (shl_align_spec p e (fexp (Zpos (digits2_pos p) + e)))
    as (mz & ez & Hs & Hez & Hmz).
  rewrite Hs. exists mz, ez. split; [reflexivity|]. split; [exact Hez|].
  split; [exact Hmz|].
  assert (Hd : Zpos (digits2_pos mz) = Zpos (digits2_pos p) + (e - ez)).
  { change (Zpos (digits2_pos mz)) with (Zdigits2 (Zpos mz)). rewrite Hmz.
    rewrite Zdigits2_mul_pow2 by lia. reflexivity. }
  rewrite Hd. replace (Zpos (digits2_pos p) + (e - ez) + ez)
    with (Zpos (digits2_pos p) + e) by lia. lia.
Qed.

Lemma binary_round_le s p e mB eB off :
  bounded prec emax mB eB = true ->
  0 <= e + off -> 0 <= emin + off ->
  Zpos p * 2 ^ (e + off) <= Zpos mB * 2 ^ (eB + off) ->
  binary_round prec emax s p e = S754_zero s
  \/ exists mR eR,
      binary_round prec emax s p e = S754_finite s mR eR
      /\ bounded prec emax mR eR = true
      /\ Zpos mR * 2 ^ (eR + off) <= Zpos mB * 2 ^ (eB + off).
Proof.
  intros HB He Hmin Hle.
  destruct (binary_round_spec s p e) as (mz & ez & -> & Hez & Hmz & Hgrid).
  assert (HeB : emin <= eB).
  { apply andb_prop in HB. destruct HB as [CB _].
    apply (canonical_exponent prec emax) in CB. fold emin in CB. lia. }
  assert (Hez' : 0 <= ez + off).
  { pose proof (fexp_ge_emin prec emax (Zpos (digits2_pos p) + e)) as Hf.
    fold fexp emin in Hf. lia. }
  assert (Hval : Zpos mz * 2 ^ (ez + off) = Zpos p * 2 ^ (e + off)).
  { rewrite Hmz. replace (e + off) with ((e - ez) + (ez + off)) by lia.
    rewrite (pow2_split (e - ez) (ez + off)) by lia. ring. }
  apply (round_le prec emax Hprec s mz ez loc_Exact mB eB off Hgrid HB Hez' ltac:(lia)).
  rewrite Hval. destruct (Z.eq_dec (Zpos p * 2 ^ (e + off)) (Zpos mB * 2 ^ (eB + off))).
  - right. split; [assumption|reflexivity].
  - left. lia.
Qed.

Lemma binary_round_ge s p e mB eB off :
  bounded prec emax mB eB = true ->
  0 <= e + off -> 0 <= emin + off ->
  Zpos mB * 2 ^ (eB + off) <= Zpos p * 2 ^ (e + off) ->
  binary_round prec emax s p e = S754_infinity s
  \/ exists mR eR,
      binary_round prec emax s p e = S754_finite s mR eR
      /\ bounded prec emax mR eR = true
      /\ Zpos mB * 2 ^ (eB + off) <= Zpos mR * 2 ^ (eR + off).
Proof.
  intros HB He Hmin Hle.
  destruct (binary_round_spec s p e) as (mz & ez & -> & Hez & Hmz & Hgrid).
  assert (HeB : emin <= eB).
  { apply andb_prop in HB. destruct HB as [CB _].
    apply (canonical_exponent prec emax) in CB. fold emin in CB. lia. }
  assert (Hez' : 0 <= ez + off).
  { pose proof (fexp_ge_emin prec emax (Zpos (digits2_pos p) + e)) as Hf.
    fold fexp emin in Hf. lia. }
  assert (Hval : Zpos mz * 2 ^ (ez + off) = Zpos p * 2 ^ (e + off)).
  { rewrite Hmz. replace (e + off) with ((e - ez) + (ez + off)) by lia.
    rewrite (pow2_split (e - ez) (ez + off)) by lia. ring. }
  apply (round_ge prec emax Hprec s mz ez loc_Exact mB eB off Hgrid HB Hez' ltac:(lia)).
  rewrite Hval. exact Hle.
Qed.

(** A number that fits the format is not changed. *)
Lemma binary_round_exact s p e :
  fexp (Zpos (digits2_pos p) + e) <= e ->
  fexp (Zpos (digits2_pos p) + e) <= emax - prec ->
  exists mR eR,
    binary_round prec emax s p e = S754_finite s mR eR
    /\ bounded prec emax mR eR = true
    /\ eR = fexp (Zpos (digits2_pos p) + e)
    /\ Zpos mR = Zpos p * 2 ^ (e - eR).
Proof.
  intros Hfit Hmax.
  destruct (binary_round_spec s p e) as (mz & ez & -> & Hez & Hmz & Hgrid).
  assert (Hez' : ez = fexp (Zpos (digits2_pos p) + e)) by lia.
  assert (Hd : Zpos (digits2_pos mz) + ez = Zpos (digits2_pos p) + e).
  { change (Zpos (digits2_pos mz)) with (Zdigits2 (Zpos mz)). rewrite Hmz.
    rewrite Zdigits2_mul_pow2 by lia. cbn [Zdigits2]. lia. }
  destruct (binary_round_aux_spec prec emax Hprec s mz ez loc_Exact Hgrid)
    as (m & Hm & Hex & _ & HR).
  fold fexp in Hm, Hex, HR. rewrite Hd, <- Hez' in Hm, Hex, HR.
  replace (ez - ez) with 0 in Hm, Hex by lia.
  rewrite Z.pow_0_r, Z.div_1_r in Hm, Hex.
  specialize (Hex eq_refl (Z.mod_1_r _)). subst m.
  destruct HR as [[H0 _]|(mR & eR & _ & _ & HmR & CR & HeR & HR)]; [lia|].
  fold fexp in HeR. change (Zdigits2 (Zpos mz)) with (Zpos (digits2_pos mz)) in HeR.
  rewrite Hd, <- Hez' in HeR. subst eR.
  replace (ez - ez) with 0 in HmR by lia. rewrite Z.pow_0_r, Z.mul_1_r in HmR.
  assert (Hle : (ez <=? emax - prec) = true) by (apply Z.leb_le; lia).
  rewrite Hle in HR. exists mR, ez. split; [exact HR|]. split.
  - unfold bounded. rewrite CR, Hle. reflexivity.
  - split; [exact Hez'|]. rewrite HmR. exact Hmz.
Qed.

End Round.

(** ** Multiplication *)

Section Mul.

Variables prec emax : Z.
Hypothesis Hprec : 0 < prec.
Hypothesis Hemax : 3 <= emax + prec.

Let fexp := SpecFloat.fexp prec emax.
Let emin := SpecFloat.emin prec emax.

Lemma emin_nonpos : emin <= 0.
Proof. unfold emin, SpecFloat.emin. lia. Qed.

Lemma bounded_emin m e : bounded prec emax m e = true -> emin <= e.
Proof.
  intros H. apply andb_prop in H. destruct H as [C _].
  apply (canonical_exponent prec emax) in C. fold emin in C. lia.
Qed.

(** The exact product of two canonical mantissas has enough digits for the
    exponent at which it is handed to the rounding. *)
Lemma mul_grid ma ea mc ec :
  bounded prec emax ma ea = true -> bounded prec emax mc ec = true ->
  ea + ec <= fexp (Zpos (digits2_pos (ma * mc)) + (ea + ec)).
Proof.
  intros Ha Hc. apply andb_prop in Ha, Hc. destruct Ha as [Ca _], Hc as [Cc _].
  destruct (canonical_exponent prec emax _ _ Ca) as (Hea & Hda & Hna).
  destruct (canonical_exponent prec emax _ _ Cc) as (Hec & Hdc & Hnc).
  fold emin in Hea, Hec, Hna, Hnc.
  pose proof (digits2_pos_bounds ma) as Ba. pose proof (digits2_pos_bounds mc) as Bc.
  set (da := Zpos (digits2_pos ma)) in *. set (dc := Zpos (digits2_pos mc)) in *.
  assert (Hda0 : 0 < da) by (unfold da; lia). assert (Hdc0 : 0 < dc) by (unfold dc; lia).
  assert (Hd : da + dc - 1 <= Zpos (digits2_pos (ma * mc))).
  { change (Zpos (digits2_pos (ma * mc))) with (Zdigits2 (Zpos (ma * mc))).
    assert (H : da + dc - 2 < Zdigits2 (Zpos (ma * mc))).
    { apply Zdigits2_gt_pow; [lia|]. rewrite Pos2Z.inj_mul.
      replace (da + dc - 2) with ((da - 1) + (dc - 1)) by lia.
      rewrite (pow2_split (da - 1) (dc - 1)) by lia.
      pose proof (pow2_pos (da - 1) ltac:(lia)). pose proof (pow2_pos (dc - 1) ltac:(lia)).
      nia. }
    lia. }
  pose proof emin_nonpos as Hmin.
  unfold fexp, SpecFloat.fexp. fold emin.
  destruct (Z.eq_dec ea emin) as [Ea|Ea]; destruct (Z.eq_dec ec emin) as [Ec|Ec].
  - lia.
  - specialize (Hnc ltac:(lia)). fold dc in Hnc. lia.
  - specialize (Hna ltac:(lia)). fold da in Hna. lia.
  - specialize (Hna ltac:(lia)). fold da in Hna. lia.
Qed.

Lemma SFmul_le sa ma ea sc mc ec mB eB off :
  bounded prec emax ma ea = true -> bounded prec emax mc ec = true ->
  bounded prec emax mB eB = true -> 0 <= emin + off ->
  (Zpos ma * 2 ^ (ea + off)) * (Zpos mc * 2 ^ (ec + off))
  <= Zpos mB * 2 ^ (eB + off) * 2 ^ off ->
  let R := SFmul prec emax (S754_finite sa ma ea) (S754_finite sc mc ec) in
  R = S754_zero (xorb sa sc)
  \/ exists mR eR,
      R = S754_finite (xorb sa sc) mR eR
      /\ bounded prec emax mR eR = true
      /\ Zpos mR * 2 ^ (eR + off) <= Zpos mB * 2 ^ (eB + off).
Proof.
  intros Ha Hc HB Hoff Hle R. unfold R. cbn [SFmul].
  pose proof (bounded_emin _ _ Ha) as Hea. pose proof (bounded_emin _ _ Hc) as Hec.
  pose proof (bounded_emin _ _ HB) as HeB.
  assert (Hoff0 : 0 <= off) by (pose proof emin_nonpos; lia).
  assert (Hle' : Zpos (ma * mc) * 2 ^ (ea + ec + (off + off))
                 <= Zpos mB * 2 ^ (eB + (off + off))).
  { rewrite Pos2Z.inj_mul.
    replace (ea + ec + (off + off)) with ((ea + off) + (ec + off)) by lia.
    replace (eB + (off + off)) with ((eB + off) + off) by lia.
    rewrite (pow2_split (ea + off) (ec + off)), (pow2_split (eB + off) off) by lia.
    lia. }
  assert (Hle'' : Zpos (ma * mc) * 2 ^ (ea + ec + (off + off))
                  < Zpos mB * 2 ^ (eB + (off + off))
                  \/ (Zpos (ma * mc) * 2 ^ (ea + ec + (off + off))
                      = Zpos mB * 2 ^ (eB + (off + off)) /\ loc_Exact = loc_Exact)).
  { destruct (Z.eq_dec (Zpos (ma * mc) * 2 ^ (ea + ec + (off + off)))
                (Zpos mB * 2 ^ (eB + (off + off)))).
    - right. split; [assumption|reflexivity].
    - left. lia. }
  assert (Ho1 : 0 <= ea + ec + (off + off)) by lia.
  assert (Ho2 : 0 <= eB + (off + off)) by lia.
  destruct (round_le prec emax Hprec (xorb sa sc) (ma * mc) (ea + ec) loc_Exact
              mB eB (off + off) (mul_grid ma ea mc ec Ha Hc) HB Ho1 Ho2 Hle'')
    as [HR|(mR & eR & HR & HbR & Hv)].
  - left. exact HR.
  - right. exists mR, eR. split; [exact HR|]. split; [exact HbR|].
    pose proof (bounded_emin _ _ HbR) as HeR.
    apply (dyadic_le_shift _ _ _ _ (off + off) off); first [lia | exact Hv].
Qed.

Lemma SFmul_ge sa ma ea sc mc ec mB eB off :
  bounded prec emax ma ea = true -> bounded prec emax mc ec = true ->
  bounded prec emax mB eB = true -> 0 <= emin + off ->
  Zpos mB * 2 ^ (eB + off) * 2 ^ off
  <= (Zpos ma * 2 ^ (ea + off)) * (Zpos mc * 2 ^ (ec + off)) ->
  let R := SFmul prec emax (S754_finite sa ma ea) (S754_finite sc mc ec) in
  R = S754_infinity (xorb sa sc)
  \/ exists mR eR,
      R = S754_finite (xorb sa sc) mR eR
      /\ bounded prec emax mR eR = true
      /\ Zpos mB * 2 ^ (eB + off) <= Zpos mR * 2 ^ (eR + off).
Proof.
  intros Ha Hc HB Hoff Hle R. unfold R. cbn [SFmul].
  pose proof (bounded_emin _ _ Ha) as Hea. pose proof (bounded_emin _ _ Hc) as Hec.
  pose proof (bounded_emin _ _ HB) as HeB.
  assert (Hoff0 : 0 <= off) by (pose proof emin_nonpos; lia).
  assert (Hle' : Zpos mB * 2 ^ (eB + (off + off))
                 <= Zpos (ma * mc) * 2 ^ (ea + ec + (off + off))).
  { rewrite Pos2Z.inj_mul.
    replace (ea + ec + (off + off)) with ((ea + off) + (ec + off)) by lia.
    replace (eB + (off + off)) with ((eB + off) + off) by lia.
    rewrite (pow2_split (ea + off) (ec + off)), (pow2_split (eB + off) off) by lia.
    lia. }
  assert (Ho1 : 0 <= ea + ec + (off + off)) by lia.
  assert (Ho2 : 0 <= eB + (off + off)) by lia.
  destruct (round_ge prec emax Hprec (xorb sa sc) (ma * mc) (ea + ec) loc_Exact
              mB eB (off + off) (mul_grid ma ea mc ec Ha Hc) HB Ho1 Ho2 Hle')
    as [HR|(mR & eR & HR & HbR & Hv)].
  - left. exact HR.
  - right. exists mR, eR. split; [exact HR|]. split; [exact HbR|].
    pose proof (bounded_emin _ _ HbR) as HeR.
    apply (dyadic_le_shift _ _ _ _ (off + off) off); first [lia | exact Hv].
Qed.

End Mul.

(** ** Division *)

Lemma new_location_0 n : new_location n 0 = loc_Exact.
Proof.
  unfold new_location, new_location_even, new_location_odd.
  destruct (Z.even n); reflexivity.
Qed.

Section Div.

Variables prec emax : Z.
Hypothesis Hprec : 0 < prec.
Hypothesis Hemax : 3 <= emax + prec.

Let fexp := SpecFloat.fexp prec emax.
Let emin := SpecFloat.emin prec emax.

Lemma SFdiv_le sa ma ea sc mc ec mB eB off :
  bounded prec emax ma ea = true -> bounded prec emax mc ec = true ->
  bounded prec emax mB eB = true -> 0 <= emin + off ->
  emin + prec <= Zpos (digits2_pos ma) + ea - (Zpos (digits2_pos mc) + ec) ->
  (Zpos ma * 2 ^ (ea + off)) * 2 ^ off
  <= Zpos mB * 2 ^ (eB + off) * (Zpos mc * 2 ^ (ec + off)) ->
  let R := SFdiv prec emax (S754_finite sa ma ea) (S754_finite sc mc ec) in
  R = S754_zero (xorb sa sc)
  \/ exists mR eR,
      R = S754_finite (xorb sa sc) mR eR
      /\ bounded prec emax mR eR = true
      /\ Zpos mR * 2 ^ (eR + off) <= Zpos mB * 2 ^ (eB + off).
Proof.
  intros Ha Hc HB Hoff Hnormal Hle R. unfold R. clear R.
  pose proof (bounded_emin prec emax _ _ Ha) as Hea.
  pose proof (bounded_emin prec emax _ _ Hc) as Hec.
  pose proof (bounded_emin prec emax _ _ HB) as HeB.
  fold emin in Hea, Hec, HeB.
  pose proof (emin_nonpos prec emax Hemax) as Hmin. fold emin in Hmin.
  assert (Hoff0 : 0 <= off) by lia.
  pose proof (digits2_pos_bounds ma) as Ba. pose proof (digits2_pos_bounds mc) as Bc.
  cbn [SFdiv]. unfold SFdiv_core_binary. cbn [Zdigits2].
  set (da := Zpos (digits2_pos ma)) in *. set (dc := Zpos (digits2_pos mc)) in *.
  assert (Hda0 : 0 < da) by (unfold da; lia). assert (Hdc0 : 0 < dc) by (unfold dc; lia).
  fold fexp.
  set (D := da + ea - (dc + ec)) in *.
  assert (HfD : fexp D = D - prec).
  { unfold fexp, SpecFloat.fexp. fold emin. lia. }
  set (e' := Z.min (fexp D) (ea - ec)).
  set (s := ea - ec - e'). assert (Hs : 0 <= s) by (unfold s, e'; lia).
  assert (Hs' : prec - da + dc <= s) by (unfold s, e', D in *; lia).
  set (m' := match s with Zpos _ => Z.shiftl (Zpos ma) s | 0 => Zpos ma | Zneg _ => 0 end).
  assert (Hm' : m' = Zpos ma * 2 ^ s).
  { unfold m'. destruct s as [|ps|ps] eqn:Es; [| |lia].
    - rewrite Z.pow_0_r. lia.
    - apply Z.shiftl_mul_pow2. lia. }
  clearbody m'.
  pose proof (Z_div_mod m' (Zpos mc) ltac:(lia)) as Hdm.
  destruct (Z.div_eucl m' (Zpos mc)) as [q r]. destruct Hdm as [Hqr Hr].
  (* the quotient has at least [prec] digits *)
  set (k := da - 1 + s - dc). assert (Hk : prec - 1 <= k) by (unfold k; lia).
  assert (Hq : 2 ^ k <= q).
  { assert (H1 : 2 ^ k * 2 ^ dc <= m').
    { rewrite Hm', <- (pow2_split k dc) by lia.
      replace (k + dc) with ((da - 1) + s) by (unfold k; lia).
      rewrite (pow2_split (da - 1) s) by lia.
      pose proof (pow2_pos s Hs). nia. }
    pose proof (pow2_pos k ltac:(lia)) as Pk.
    destruct (Z.le_gt_cases (2 ^ k) q) as [|Hlt]; [assumption|exfalso].
    assert (q * Zpos mc + r < 2 ^ k * Zpos mc) by (clear - Hlt Hr; nia).
    assert (2 ^ k * Zpos mc < 2 ^ k * 2 ^ dc) by (clear - Bc Pk; fold dc in Bc; nia).
    clear - H H0 H1 Hqr. lia. }
  pose proof (pow2_pos k ltac:(lia)) as Pk.
  destruct q as [|pq|pq]; try lia.
  assert (Hdq : prec <= Zpos (digits2_pos pq)).
  { change (Zpos (digits2_pos pq)) with (Zdigits2 (Zpos pq)).
    assert (k < Zdigits2 (Zpos pq)) by (apply Zdigits2_gt_pow; lia). lia. }
  assert (Hgrid : e' <= fexp (Zpos (digits2_pos pq) + e')).
  { unfold fexp, SpecFloat.fexp. lia. }
  set (off' := Z.max off (- e')).
  assert (Ho1 : 0 <= e' + off') by (unfold off'; lia).
  assert (Ho2 : 0 <= eB + off') by (unfold off'; lia).
  set (A := 2 ^ (e' + off')). set (T := Zpos mB * 2 ^ (eB + off')).
  assert (HA : 0 < A) by (apply pow2_pos; exact Ho1).
  assert (HmA : m' * A <= T * Zpos mc).
  { assert (H0 : Zpos ma * 2 ^ (ea + (off + off))
                 <= (Zpos mB * Zpos mc) * 2 ^ ((eB + ec) + (off + off))).
    { replace (ea + (off + off)) with ((ea + off) + off) by lia.
      replace (eB + ec + (off + off)) with ((eB + off) + (ec + off)) by lia.
      rewrite (pow2_split (ea + off) off), (pow2_split (eB + off) (ec + off)) by lia.
      lia. }
    apply (dyadic_le_shift _ _ _ _ (off + off) (off' - ec)) in H0; try lia.
    replace (eB + ec + (off' - ec)) with (eB + off') in H0 by lia.
    replace (ea + (off' - ec)) with (s + (e' + off')) in H0 by (unfold s; lia).
    rewrite (pow2_split s (e' + off')) in H0 by lia.
    unfold A, T. rewrite Hm'. lia. }
  assert (Hcase : Zpos pq * A < T \/ (Zpos pq * A = T /\ new_location (Zpos mc) r = loc_Exact)).
  { destruct (Z.lt_trichotomy (Zpos pq * A) T) as [Hlt|[Heq|Hgt]].
    - left. exact Hlt.
    - right. split; [exact Heq|].
      assert (r = 0) by (clear - Hqr Hr HmA Heq HA; clearbody A T; nia).
      subst r. apply new_location_0.
    - exfalso. clear - Hqr Hr HmA Hgt HA. clearbody A T. nia. }
  destruct (round_le prec emax Hprec (xorb sa sc) pq e' (new_location (Zpos mc) r)
              mB eB off' Hgrid HB Ho1 Ho2 Hcase)
    as [HR|(mR & eR & HR & HbR & Hv)].
  - left. exact HR.
  - right. exists mR, eR. split; [exact HR|]. split; [exact HbR|].
    pose proof (bounded_emin prec emax _ _ HbR) as HeR. fold emin in HeR.
    apply (dyadic_le_shift _ _ _ _ off' off);
      first [exact Hv | clear - HeR HeB Hoff; try unfold off'; lia].
Qed.

(** The possible results of a rounding. *)
Lemma binary_round_aux_shape s p e l :
  e <= fexp (Zpos (digits2_pos p) + e) ->
  let R := binary_round_aux prec emax s (Zpos p) e l in
  R = S754_zero s \/ R = S754_infinity s
  \/ exists mR eR, R = S754_finite s mR eR /\ bounded prec emax mR eR = true.
Proof.
  intros Hgrid R. unfold R.
  destruct (binary_round_aux_spec prec emax Hprec s p e l Hgrid) as (m & _ & _ & _ & HR).
  destruct HR as [[_ HR]|(mR & eR & _ & _ & _ & CR & _ & HR)].
  - left. exact HR.
  - right. destruct (eR <=? emax - prec) eqn:Hle.
    + right. exists mR, eR. split; [exact HR|]. unfold bounded. rewrite CR, Hle. reflexivity.
    + left. exact HR.
Qed.

Lemma binary_round_shape s p e :
  let R := binary_round prec emax s p e in
  R = S754_zero s \/ R = S754_infinity s
  \/ exists mR eR, R = S754_finite s mR eR /\ bounded prec emax mR eR = true.
Proof.
  destruct (binary_round_spec prec emax s p e) as (mz & ez & HR & _ & _ & Hgrid).
  cbv zeta. rewrite HR. apply binary_round_aux_shape. exact Hgrid.
Qed.

End Div.

(** ** Addition *)

Section Add.

Variables prec emax : Z.
Hypothesis Hprec : 0 < prec.
Hypothesis Hemax : 3 <= emax + prec.

Let fexp := SpecFloat.fexp prec emax.
Let emin := SpecFloat.emin prec emax.

Lemma binary_normalize_le z e B off :
  valid_binary prec emax B = true -> is_finite B = true ->
  0 <= e + off -> 0 <= emin + off ->
  z * 2 ^ (e + off) <= Zval off B ->
  let R := binary_normalize prec emax z e false in
  R = S754_infinity true
  \/ (valid_binary prec emax R = true /\ is_finite R = true
      /\ Zval off R <= Zval off B).
Proof.
  intros VB FB He Hmin Hle R. unfold R. clear R.
  pose proof (pow2_pos (e + off) He) as Pe.
  destruct z as [|p|p]; cbn [binary_normalize].
  - right. repeat split. cbn [Zval]. lia.
  - destruct B as [sB|sB| |sB mB eB]; try discriminate; cbn [Zval] in Hle; try lia.
    destruct sB; cbn [cond_Zopp] in Hle.
    { pose proof (bounded_emin prec emax _ _ VB) as HeB. fold emin in HeB.
      pose proof (pow2_pos (eB + off) ltac:(lia)). lia. }
    destruct (binary_round_le prec emax Hprec false p e mB eB off VB He Hmin Hle)
      as [HR|(mR & eR & HR & HbR & Hv)]; rewrite HR; right.
    + repeat split. cbn [Zval cond_Zopp].
      pose proof (bounded_emin prec emax _ _ VB) as HeB. fold emin in HeB.
      pose proof (pow2_pos (eB + off) ltac:(lia)). lia.
    + repeat split; [exact HbR|]. cbn [Zval cond_Zopp]. exact Hv.
  - assert (Hshape := binary_round_shape prec emax Hprec true p e). cbv zeta in Hshape.
    destruct B as [sB|sB| |sB mB eB]; try discriminate.
    + destruct Hshape as [HR|[HR|(mR & eR & HR & HbR)]]; rewrite HR.
      * right. repeat split. cbn [Zval]. lia.
      * left. reflexivity.
      * right. repeat split; [exact HbR|]. cbn [Zval cond_Zopp].
        pose proof (bounded_emin prec emax _ _ HbR) as HeR. fold emin in HeR.
        pose proof (pow2_pos (eR + off) ltac:(lia)). lia.
    + destruct sB; cbn [Zval cond_Zopp] in Hle |- *.
      * assert (Hge : Zpos mB * 2 ^ (eB + off) <= Zpos p * 2 ^ (e + off)) by lia.
        destruct (binary_round_ge prec emax Hprec true p e mB eB off VB He Hmin Hge)
          as [HR|(mR & eR & HR & HbR & Hv)]; rewrite HR.
        -- left. reflexivity.
        -- right. repeat split; [exact HbR|]. cbn [Zval cond_Zopp]. lia.
      * pose proof (bounded_emin prec emax _ _ VB) as HeB. fold emin in HeB.
        pose proof (pow2_pos (eB + off) ltac:(lia)).
        destruct Hshape as [HR|[HR|(mR & eR & HR & HbR)]]; rewrite HR.
        -- right. repeat split. cbn [Zval]. lia.
        -- left. reflexivity.
        -- right. repeat split; [exact HbR|]. cbn [Zval cond_Zopp].
           pose proof (bounded_emin prec emax _ _ HbR) as HeR. fold emin in HeR.
           pose proof (pow2_pos (eR + off) ltac:(lia)). lia.
Qed.

Lemma binary_normalize_ge z e B off :
  valid_binary prec emax B = true -> is_finite B = true ->
  0 <= e + off -> 0 <= emin + off ->
  Zval off B <= z * 2 ^ (e + off) ->
  let R := binary_normalize prec emax z e false in
  R = S754_infinity false
  \/ (valid_binary prec emax R = true /\ is_finite R = true
      /\ Zval off B <= Zval off R).
Proof.
  intros VB FB He Hmin Hle R. unfold R. clear R.
  pose proof (pow2_pos (e + off) He) as Pe.
  destruct z as [|p|p]; cbn [binary_normalize].
  - right. repeat split. cbn [Zval]. lia.
  - assert (Hshape := binary_round_shape prec emax Hprec false p e). cbv zeta in Hshape.
    destruct B as [sB|sB| |sB mB eB]; try discriminate.
    + destruct Hshape as [HR|[HR|(mR & eR & HR & HbR)]]; rewrite HR.
      * right. repeat split. cbn [Zval]. lia.
      * left. reflexivity.
      * right. repeat split; [exact HbR|]. cbn [Zval cond_Zopp].
        pose proof (bounded_emin prec emax _ _ HbR) as HeR. fold emin in HeR.
        pose proof (pow2_pos (eR + off) ltac:(lia)). lia.
    + destruct sB; cbn [Zval cond_Zopp] in Hle |- *.
      * pose proof (bounded_emin prec emax _ _ VB) as HeB. fold emin in HeB.
        pose proof (pow2_pos (eB + off) ltac:(lia)).
        destruct Hshape as [HR|[HR|(mR & eR & HR & HbR)]]; rewrite HR.
        -- right. repeat split. cbn [Zval]. lia.
        -- left. reflexivity.
        -- right. repeat split; [exact HbR|]. cbn [Zval cond_Zopp].
           pose proof (bounded_emin prec emax _ _ HbR) as HeR. fold emin in HeR.
           pose proof (pow2_pos (eR + off) ltac:(lia)). lia.
      * destruct (binary_round_ge prec emax Hprec false p e mB eB off VB He Hmin Hle)
          as [HR|(mR & eR & HR & HbR & Hv)]; rewrite HR.
        -- left. reflexivity.
        -- right. repeat split; [exact HbR|]. cbn [Zval cond_Zopp]. lia.
  - destruct B as [sB|sB| |sB mB eB]; try discriminate; cbn [Zval] in Hle; try lia.
    destruct sB; cbn [cond_Zopp] in Hle.
    2:{ pose proof (bounded_emin prec emax _ _ VB) as HeB. fold emin in HeB.
        pose proof (pow2_pos (eB + off) ltac:(lia)). lia. }
    assert (Hle' : Zpos p * 2 ^ (e + off) <= Zpos mB * 2 ^ (eB + off)) by lia.
    destruct (binary_round_le prec emax Hprec true p e mB eB off VB He Hmin Hle')
      as [HR|(mR & eR & HR & HbR & Hv)]; rewrite HR; right.
    + repeat split. cbn [Zval cond_Zopp].
      pose proof (bounded_emin prec emax _ _ VB) as HeB. fold emin in HeB.
      pose proof (pow2_pos (eB + off) ltac:(lia)). lia.
    + repeat split; [exact HbR|]. cbn [Zval cond_Zopp]. lia.
Qed.

(** The sum that [SFadd] rounds is the exact sum of its operands. *)
Lemma SFadd_finite sa ma ea sc mc ec off :
  0 <= ea + off -> 0 <= ec + off ->
  exists z,
    SFadd prec emax (S754_finite sa ma ea) (S754_finite sc mc ec)
    = binary_normalize prec emax z (Z.min ea ec) false
    /\ z * 2 ^ (Z.min ea ec + off)
       = Zval off (S754_finite sa ma ea) + Zval off (S754_finite sc mc ec).
Proof.
  intros Ha Hc. cbn [SFadd Zval]. eexists. split; [reflexivity|].
  set (ez := Z.min ea ec).
  destruct (shl_align_spec ma ea ez) as (ma' & ea' & Hsa & Hea' & Hma').
  destruct (shl_align_spec mc ec ez) as (mc' & ec' & Hsc & Hec' & Hmc').
  rewrite Hsa, Hsc. cbn [fst].
  assert (Ea : ea' = ez) by (unfold ez in *; lia).
  assert (Ec : ec' = ez) by (unfold ez in *; lia).
  rewrite Ea in Hma'. rewrite Ec in Hmc'. rewrite Hma', Hmc'.
  replace (ea + off) with ((ea - ez) + (ez + off)) by lia.
  replace (ec + off) with ((ec - ez) + (ez + off)) by lia.
  rewrite (pow2_split (ea - ez) (ez + off)), (pow2_split (ec - ez) (ez + off))
    by (unfold ez; lia).
  destruct sa, sc; cbn [cond_Zopp]; ring.
Qed.

Lemma SFadd_le a c B off :
  valid_binary prec emax a = true -> is_finite a = true ->
  valid_binary prec emax c = true -> is_finite c = true ->
  valid_binary prec emax B = true -> is_finite B = true ->
  0 <= emin + off ->
  Zval off a + Zval off c <= Zval off B ->
  let R := SFadd prec emax a c in
  R = S754_infinity true
  \/ (valid_binary prec emax R = true /\ is_finite R = true
      /\ Zval off R <= Zval off B).
Proof.
  intros Va Fa Vc Fc VB FB Hmin Hle R. unfold R. clear R.
  destruct a as [sa|sa| |sa ma ea], c as [sc|sc| |sc mc ec]; try discriminate.
  - right. destruct sa, sc; cbn [SFadd]; repeat split; exact Hle.
  - right. cbn [SFadd]. repeat split; [exact Vc|]. exact Hle.
  - right. cbn [SFadd]. repeat split; [exact Va|].
    cbn [Zval] in Hle |- *. lia.
  - pose proof (bounded_emin prec emax _ _ Va) as Hea.
    pose proof (bounded_emin prec emax _ _ Vc) as Hec. fold emin in Hea, Hec.
    destruct (SFadd_finite sa ma ea sc mc ec off ltac:(lia) ltac:(lia)) as (z & -> & Hz).
    apply binary_normalize_le; try assumption; try lia.
Qed.

Lemma SFadd_ge a c B off :
  valid_binary prec emax a = true -> is_finite a = true ->
  valid_binary prec emax c = true -> is_finite c = true ->
  valid_binary prec emax B = true -> is_finite B = true ->
  0 <= emin + off ->
  Zval off B <= Zval off a + Zval off c ->
  let R := SFadd prec emax a c in
  R = S754_infinity false
  \/ (valid_binary prec emax R = true /\ is_finite R = true
      /\ Zval off B <= Zval off R).
Proof.
  intros Va Fa Vc Fc VB FB Hmin Hle R. unfold R. clear R.
  destruct a as [sa|sa| |sa ma ea], c as [sc|sc| |sc mc ec]; try discriminate.
  - right. destruct sa, sc; cbn [SFadd]; repeat split; exact Hle.
  - right. cbn [SFadd]. repeat split; [exact Vc|]. exact Hle.
  - right. cbn [SFadd]. repeat split; [exact Va|].
    cbn [Zval] in Hle |- *. lia.
  - pose proof (bounded_emin prec emax _ _ Va) as Hea.
    pose proof (bounded_emin prec emax _ _ Vc) as Hec. fold emin in Hea, Hec.
    destruct (SFadd_finite sa ma ea sc mc ec off ltac:(lia) ltac:(lia)) as (z & -> & Hz).
    apply binary_normalize_ge; try assumption; try lia.
Qed.

End Add.

(** * binary32 and binary64

    ** The conversion to degrees stays within 180.75 *)

Lemma prec32 : 0 < Float.prec. Proof. reflexivity. Qed.
Lemma prec64 : 0 < Double.prec. Proof. reflexivity. Qed.
Lemma emax32 : 3 <= Float.emax + Float.prec. Proof. discriminate. Qed.
Lemma emax64 : 3 <= Double.emax + Double.prec. Proof. discriminate. Qed.
Lemma off32 : 0 <= emin Float.prec Float.emax + off. Proof. discriminate. Qed.
Lemma off64 : 0 <= emin Double.prec Double.emax + off. Proof. discriminate. Qed.

Lemma bounded32 m e : bounded Float.prec Float.emax m e = true ->
  -149 <= e <= 104 /\ Zpos (digits2_pos m) <= 24.
Proof.
  intros H. apply andb_prop in H. destruct H as [C L]. apply Z.leb_le in L.
  destruct (canonical_exponent Float.prec Float.emax m e C) as (H1 & H2 & _).
  change (emin Float.prec Float.emax) with (-149) in H1.
  change Float.prec with 24 in *. change Float.emax with 128 in *. lia.
Qed.

Lemma bounded64 m e : bounded Double.prec Double.emax m e = true ->
  -1074 <= e <= 971 /\ Zpos (digits2_pos m) <= 53.
Proof.
  intros H. apply andb_prop in H. destruct H as [C L]. apply Z.leb_le in L.
  destruct (canonical_exponent Double.prec Double.emax m e C) as (H1 & H2 & _).
  change (emin Double.prec Double.emax) with (-1074) in H1.
  change Double.prec with 53 in *. change Double.emax with 1024 in *. lia.
Qed.

(** The promotion of a float to double is exact. *)
Lemma of_float_exact s m e :
  bounded Float.prec Float.emax m e = true ->
  exists mR eR,
    Double.of_float (S754_finite s m e) = S754_finite s mR eR
    /\ bounded Double.prec Double.emax mR eR = true
    /\ Zpos mR * 2 ^ (eR + off) = Zpos m * 2 ^ (e + off).
Proof.
  intros Hb. destruct (bounded32 m e Hb) as (He & Hd).
  cbn [Double.of_float].
  destruct (binary_round_exact Double.prec Double.emax prec64 s m e)
    as (mR & eR & HR & HbR & HeR & HmR).
  - unfold fexp, emin. change Double.prec with 53. change Double.emax with 1024. lia.
  - unfold fexp, emin. change Double.prec with 53. change Double.emax with 1024. lia.
  - exists mR, eR. split; [exact HR|]. split; [exact HbR|].
    destruct (bounded64 mR eR HbR) as (HeR' & _).
    assert (HeRe : eR <= e).
    { rewrite HeR. unfold fexp, emin.
      change Double.prec with 53. change Double.emax with 1024. lia. }
    rewrite HmR. replace (e + off) with ((e - eR) + (eR + off)) by lia.
    rewrite (pow2_split (e - eR) (eR + off)) by (unfold off; lia). ring.
Qed.

Lemma of_int_180 : Double.of_int 180 = S754_finite false 6333186975989760 (-45).
Proof. vm_compute. reflexivity. Qed.

Lemma literal_half : Double.literal 5 10 = S754_finite false 4503599627370496 (-53).
Proof. vm_compute. reflexivity. Qed.

Lemma deg_check_mul_hi :
  (13176795 * 2 ^ (-22 + off)) * (6333186975989760 * 2 ^ (-45 + off))
  <= 4974073557811200 * 2 ^ (-43 + off) * 2 ^ off.
Proof. apply Z.leb_le. vm_compute. reflexivity. Qed.

Lemma deg_check_mul_lo :
  6333186975989760 * 2 ^ (-194 + off) * 2 ^ off
  <= (1 * 2 ^ (-149 + off)) * (6333186975989760 * 2 ^ (-45 + off)).
Proof. apply Z.leb_le. vm_compute. reflexivity. Qed.

Lemma deg_check_div :
  (4974073557811200 * 2 ^ (-43 + off)) * 2 ^ off
  <= 6341983069011968 * 2 ^ (-45 + off) * (7074237752028440 * 2 ^ (-51 + off)).
Proof. apply Z.leb_le. vm_compute. reflexivity. Qed.

Lemma deg_check_add :
  sv deg_U0 + sv (S754_finite false 4503599627370496 (-53)) <= sv deg_hi
  /\ sv deg_lo <= - sv deg_U0 + sv (S754_finite false 4503599627370496 (-53))
  /\ -180 * 2 ^ off <= sv deg_lo
  /\ sv deg_hi < 181 * 2 ^ off.
Proof.
  split; [apply Z.leb_le; vm_compute; reflexivity|].
  split; [apply Z.leb_le; vm_compute; reflexivity|].
  split; [apply Z.leb_le; vm_compute; reflexivity|].
  apply Z.ltb_lt. vm_compute. reflexivity.
Qed.

(** [radian * 180. / M_PI] stays within 180.25 in magnitude when the radian
    value is within pi (as a float) in magnitude. *)
Lemma degrees_bounded s m e :
  bounded Float.prec Float.emax m e = true ->
  Zpos m * 2 ^ (e + off) <= 13176795 * 2 ^ (-22 + off) ->
  let R := Double.div
             (Double.mul (Double.of_float (S754_finite s m e)) (Double.of_int 180))
             Double.M_PI in
  valid_binary Double.prec Double.emax R = true /\ is_finite R = true
  /\ - sv deg_U0 <= sv R <= sv deg_U0.
Proof.
  intros Hb Hle R. unfold R. clear R.
  destruct (bounded32 m e Hb) as (He & Hd).
  destruct (of_float_exact s m e Hb) as (md & ed & -> & Hbd & Hvd).
  rewrite of_int_180.
  assert (Hb180 : bounded Double.prec Double.emax 6333186975989760 (-45) = true)
    by reflexivity.
  assert (HbT0 : bounded Double.prec Double.emax 4974073557811200 (-43) = true)
    by reflexivity.
  assert (HbT1 : bounded Double.prec Double.emax 6333186975989760 (-194) = true)
    by reflexivity.
  assert (HbU0 : bounded Double.prec Double.emax 6341983069011968 (-45) = true)
    by reflexivity.
  assert (HbPI : bounded Double.prec Double.emax 7074237752028440 (-51) = true)
    by reflexivity.
  pose proof (pow2_pos (e + off) ltac:(unfold off; lia)) as Pe.
  pose proof (pow2_pos (-45 + off) ltac:(unfold off; lia)) as P45.
  pose proof (pow2_pos (-51 + off) ltac:(unfold off; lia)) as P51.
  (* the product *)
  assert (Hup : (Zpos md * 2 ^ (ed + off)) * (6333186975989760 * 2 ^ (-45 + off))
                <= 4974073557811200 * 2 ^ (-43 + off) * 2 ^ off).
  { rewrite Hvd. etransitivity; [|exact deg_check_mul_hi].
    apply Z.mul_le_mono_nonneg_r; [lia|exact Hle]. }
  assert (Hlow : 6333186975989760 * 2 ^ (-194 + off) * 2 ^ off
                 <= (Zpos md * 2 ^ (ed + off)) * (6333186975989760 * 2 ^ (-45 + off))).
  { rewrite Hvd. etransitivity; [exact deg_check_mul_lo|].
    apply Z.mul_le_mono_nonneg_r; [lia|].
    replace (e + off) with ((e + 149) + (-149 + off)) by lia.
    rewrite (pow2_split (e + 149) (-149 + off)) by (unfold off; lia).
    pose proof (pow2_pos (e + 149) ltac:(lia)) as Q1.
    pose proof (pow2_pos (-149 + off) ltac:(unfold off; lia)) as Q2.
    set (q1 := 2 ^ (e + 149)) in *. set (q2 := 2 ^ (-149 + off)) in *.
    clearbody q1 q2. assert (1 <= Zpos m * q1) by nia. nia. }
  destruct (SFmul_le Double.prec Double.emax prec64 emax64 s md ed false _ _ _ _ off
              Hbd Hb180 HbT0 off64 Hup) as [Hz|(mt & et & Ht & Hbt & Hvt)].
  { (* the product is not zero *)
    destruct (SFmul_ge Double.prec Double.emax prec64 emax64 s md ed false _ _ _ _ off
                Hbd Hb180 HbT1 off64 Hlow) as [Hi|(mt & et & Ht & _)];
      unfold Double.mul, Double.prec, Double.emax in *; congruence. }
  destruct (SFmul_ge Double.prec Double.emax prec64 emax64 s md ed false _ _ _ _ off
              Hbd Hb180 HbT1 off64 Hlow) as [Hi|(mt' & et' & Ht' & _ & Hvt')].
  { unfold Double.mul, Double.prec, Double.emax in *. congruence. }
  assert (Heq : mt' = mt /\ et' = et).
  { unfold Double.mul, Double.prec, Double.emax in *. rewrite Ht in Ht'.
    injection Ht' as -> ->. split; reflexivity. }
  destruct Heq as [-> ->]. clear Ht'.
  unfold Double.mul. unfold Double.mul in Ht. rewrite Ht. clear Ht.
  rewrite xorb_false_r.
  destruct (bounded64 mt et Hbt) as (Het & Hdt).
  pose proof (pow2_pos (et + off) ltac:(unfold off; lia)) as Pt.
  (* the binade of the product *)
  assert (Hbin : -142 <= Zpos (digits2_pos mt) + et).
  { pose proof (digits2_pos_bounds mt) as Bt.
    set (dt := Zpos (digits2_pos mt)) in *.
    assert (H1 : 2 ^ ((-142) + off) <= 6333186975989760 * 2 ^ (-194 + off)).
    { apply Z.leb_le. vm_compute. reflexivity. }
    assert (H2 : Zpos mt * 2 ^ (et + off) < 2 ^ (dt + (et + off))).
    { rewrite (pow2_split dt (et + off)) by (unfold dt, off; lia).
      apply Z.mul_lt_mono_pos_r; lia. }
    assert (H3 : 2 ^ (-142 + off) < 2 ^ (dt + (et + off))) by lia.
    apply pow2_lt_inv in H3; [lia|unfold dt, off; lia]. }
  (* the quotient *)
  assert (Hdivle : (Zpos mt * 2 ^ (et + off)) * 2 ^ off
                   <= 6341983069011968 * 2 ^ (-45 + off)
                      * (7074237752028440 * 2 ^ (-51 + off))).
  { etransitivity; [|exact deg_check_div].
    apply Z.mul_le_mono_nonneg_r; [apply Z.lt_le_incl, pow2_pos; unfold off; lia|].
    exact Hvt. }
  unfold Double.div, Double.M_PI.
  destruct (SFdiv_le Double.prec Double.emax prec64 emax64 s mt et false _ _ _ _ off
              Hbt HbPI HbU0 off64) as [Hz|(mu & eu & Hu & Hbu & Hvu)].
  - change (emin Double.prec Double.emax) with (-1074).
    change Double.prec with 53. change (Zpos (digits2_pos 7074237752028440)) with 53. lia.
  - exact Hdivle.
  - rewrite Hz. repeat split; unfold sv, deg_U0; cbn [Zval cond_Zopp]; lia.
  - rewrite Hu. split; [exact Hbu|]. split; [reflexivity|].
    destruct (bounded64 mu eu Hbu) as (Heu & _).
    pose proof (pow2_pos (eu + off) ltac:(unfold off; lia)) as Pu.
    unfold sv, deg_U0. cbn [Zval]. rewrite xorb_false_r.
    destruct s; cbn [cond_Zopp]; lia.
Qed.

Lemma SFleb_Zval prec emax a b o :
  0 < prec ->
  valid_binary prec emax a = true -> valid_binary prec emax b = true ->
  is_finite a = true -> is_finite b = true ->
  0 <= emin prec emax + o ->
  SFleb a b = true <-> Zval o a <= Zval o b.
Proof.
  intros Hp Va Vb Fa Fb Ho. unfold SFleb.
  rewrite (SFcompare_Zval prec emax Hp a b o Va Vb Fa Fb Ho).
  destruct (Z.compare_spec (Zval o a) (Zval o b)); split; intros; try lia;
    try reflexivity; discriminate.
Qed.

Lemma SFltb_Zval prec emax a b o :
  0 < prec ->
  valid_binary prec emax a = true -> valid_binary prec emax b = true ->
  is_finite a = true -> is_finite b = true ->
  0 <= emin prec emax + o ->
  SFltb a b = true <-> Zval o a < Zval o b.
Proof.
  intros Hp Va Vb Fa Fb Ho. unfold SFltb.
  rewrite (SFcompare_Zval prec emax Hp a b o Va Vb Fa Fb Ho).
  destruct (Z.compare_spec (Zval o a) (Zval o b)); split; intros; try lia;
    try reflexivity; discriminate.
Qed.

Lemma to_int_of_small_int z :
  -180 <= z <= 180 -> Double.to_int (Double.of_int z) = z.
Proof.
  intros Hz.
  assert (Hall : forallb (fun n => Double.to_int (Double.of_int (Z.of_nat n - 180))
                                   =? Z.of_nat n - 180) (seq 0 361) = true).
  { vm_compute. reflexivity. }
  rewrite forallb_forall in Hall.
  specialize (Hall (Z.to_nat (z + 180))).
  rewrite Z2Nat.id in Hall by lia. replace (z + 180 - 180) with z in Hall by lia.
  apply Z.eqb_eq, Hall. apply in_seq. lia.
Qed.

(** ** Subtraction, and the two tests of the zoom feature *)

Lemma SFsub_as_add prec emax a c :
  is_finite a = true -> is_finite c = true ->
  SFsub prec emax a c = SFadd prec emax a (SFopp c).
Proof.
  intros Fa Fc.
  destruct a as [sa|sa| |sa ma ea], c as [sc|sc| |sc mc ec]; try discriminate.
  - destruct sa, sc; reflexivity.
  - reflexivity.
  - reflexivity.
  - cbn [SFsub SFadd SFopp]. f_equal. destruct sc; cbn [cond_Zopp negb]; lia.
Qed.

Lemma Zval_opp o x : Zval o (SFopp x) = - Zval o x.
Proof.
  destruct x as [s|s| |s m e]; cbn [SFopp Zval]; try reflexivity.
  destruct s; cbn [negb cond_Zopp]; lia.
Qed.

Lemma valid_opp prec emax x :
  valid_binary prec emax (SFopp x) = valid_binary prec emax x.
Proof. destruct x; reflexivity. Qed.

Lemma is_finite_opp x : is_finite (SFopp x) = is_finite x.
Proof. destruct x; reflexivity. Qed.

Lemma SFmul_shape prec emax sa ma ea sc mc ec :
  0 < prec -> 3 <= emax + prec ->
  bounded prec emax ma ea = true -> bounded prec emax mc ec = true ->
  let R := SFmul prec emax (S754_finite sa ma ea) (S754_finite sc mc ec) in
  R = S754_zero (xorb sa sc) \/ R = S754_infinity (xorb sa sc)
  \/ exists mR eR, R = S754_finite (xorb sa sc) mR eR
                   /\ bounded prec emax mR eR = true.
Proof.
  intros Hp He Ha Hc. cbn [SFmul].
  apply (binary_round_aux_shape prec emax Hp).
  apply (mul_grid prec emax He); assumption.
Qed.

(** With a height that is not negative, the two tests of the zoom feature
    exclude each other: [height < previous - threshold] and
    [height > previous + threshold] cannot both hold. *)
Lemma zoom_tests_exclusive (height previous : Float.t) :
  Float.valid height = true -> Float.valid previous = true ->
  Float.leb Float.zero height = true ->
  let threshold := Float.mul height (flt 3 100) in
  Float.ltb height (Float.sub previous threshold) = true ->
  Float.gtb height (Float.add previous threshold) = false.
Proof.
  intros Vh Vp Hh threshold Hlt.
  assert (Ec : flt 3 100 = S754_finite false 16106127 (-29)) by (vm_compute; reflexivity).
  assert (Vc : bounded Float.prec Float.emax 16106127 (-29) = true) by reflexivity.
  unfold threshold in *. clear threshold. rewrite Ec in *.
  unfold Float.valid, Float.leb, Float.ltb, Float.gtb, Float.sub, Float.add,
    Float.mul, Float.zero in *.
  destruct (SFltb (SFadd Float.prec Float.emax previous
                     (SFmul Float.prec Float.emax height (S754_finite false 16106127 (-29))))
              height) eqn:Hgt; [exfalso|reflexivity].
  (* the threshold is a zero, positive and finite, or plus infinity *)
  assert (Ht : exists t, SFmul Float.prec Float.emax height (S754_finite false 16106127 (-29)) = t
               /\ (t = S754_infinity false
                   \/ (valid_binary Float.prec Float.emax t = true
                       /\ is_finite t = true /\ 0 <= Zval off t))).
  { eexists. split; [reflexivity|].
    destruct height as [s|s| |s m e]; try discriminate.
    - right. cbn. repeat split. lia.
    - destruct s; [discriminate|]. left. reflexivity.
    - destruct s; [discriminate|].
      destruct (SFmul_shape Float.prec Float.emax false m e false 16106127 (-29)
                  prec32 emax32 Vh Vc) as [HR|[HR|(mR & eR & HR & HbR)]]; rewrite HR.
      + right. cbn. repeat split. lia.
      + left. reflexivity.
      + right. repeat split; [exact HbR|]. cbn [Zval xorb cond_Zopp].
        destruct (bounded32 mR eR HbR) as (HeR & _).
        pose proof (pow2_pos (eR + off) ltac:(unfold off; lia)). lia. }
  destruct Ht as (t & Et & Ht). rewrite Et in *. clear Et.
  assert (Fh : is_finite height = true).
  { destruct height as [s|s| |s m e]; try reflexivity; try discriminate.
    destruct s; [discriminate|].
    destruct (SFsub Float.prec Float.emax previous t) as [?|[|]| |? ? ?];
      cbn in Hlt; discriminate. }
  destruct Ht as [->|(Vt & Ft & Ht0)].
  - (* previous - infinity is minus infinity or NaN *)
    destruct previous as [s|s| |s m e], height as [s'|s'| |s' m' e'];
      try destruct s; try destruct s'; discriminate.
  - destruct previous as [s|s| |s m e] eqn:Ep.
    4:{ (* finite *)
      rewrite <- Ep in *. assert (Fp : is_finite previous = true) by (rewrite Ep; reflexivity).
      clear Ep.
      rewrite (SFsub_as_add Float.prec Float.emax previous t Fp Ft) in Hlt.
      destruct (SFadd_le Float.prec Float.emax prec32 previous (SFopp t) previous off
                  Vp Fp ltac:(rewrite valid_opp; exact Vt)
                  ltac:(rewrite is_finite_opp; exact Ft) Vp Fp off32
                  ltac:(rewrite Zval_opp; lia)) as [Hinf|(V1 & F1 & H1)].
      { rewrite Hinf in Hlt. destruct height as [?|?| |? ? ?]; discriminate. }
      destruct (SFadd_ge Float.prec Float.emax prec32 previous t previous off
                  Vp Fp Vt Ft Vp Fp off32 ltac:(lia)) as [Hinf|(V2 & F2 & H2)].
      { rewrite Hinf in Hgt. destruct height as [?|?| |? ? ?]; discriminate. }
      apply (SFltb_Zval Float.prec Float.emax _ _ off prec32 Vh V1 Fh F1 off32) in Hlt.
      apply (SFltb_Zval Float.prec Float.emax _ _ off prec32 V2 Vh F2 Fh off32) in Hgt.
      lia. }
    + (* previous is a zero *)
      assert (Fp : is_finite (S754_zero s) = true) by reflexivity.
      rewrite (SFsub_as_add Float.prec Float.emax _ t Fp Ft) in Hlt.
      destruct (SFadd_le Float.prec Float.emax prec32 (S754_zero s) (SFopp t) (S754_zero s) off
                  Vp Fp ltac:(rewrite valid_opp; exact Vt)
                  ltac:(rewrite is_finite_opp; exact Ft) Vp Fp off32
                  ltac:(rewrite Zval_opp; lia)) as [Hinf|(V1 & F1 & H1)].
      { rewrite Hinf in Hlt. destruct height as [?|?| |? ? ?]; discriminate. }
      destruct (SFadd_ge Float.prec Float.emax prec32 (S754_zero s) t (S754_zero s) off
                  Vp Fp Vt Ft Vp Fp off32 ltac:(lia)) as [Hinf|(V2 & F2 & H2)].
      { rewrite Hinf in Hgt. destruct height as [?|?| |? ? ?]; discriminate. }
      apply (SFltb_Zval Float.prec Float.emax _ _ off prec32 Vh V1 Fh F1 off32) in Hlt.
      apply (SFltb_Zval Float.prec Float.emax _ _ off prec32 V2 Vh F2 Fh off32) in Hgt.
      lia.
    + (* previous is an infinity *)
      destruct s, t as [?|?| |? ? ?], height as [?|?| |? ? ?]; try discriminate.
    + discriminate.
Qed.

(** ** Underflow, powers of two, normalised coordinates *)

(** A value below half of the smallest positive number of the format is
    rounded to zero. *)
Lemma binary_round_underflow prec emax s p e :
  0 < prec ->
  Zpos (digits2_pos p) + e < emin prec emax ->
  binary_round prec emax s p e = S754_zero s.
Proof.
  intros Hprec Hlt.
  destruct (binary_round_spec prec emax s p e) as (mz & ez & -> & Hez & Hmz & Hgrid).
  assert (Hf : fexp prec emax (Zpos (digits2_pos p) + e) = emin prec emax).
  { unfold fexp. lia. }
  rewrite Hf in Hez. assert (Eez : ez = e) by lia. clear Hez. subst ez.
  replace (e - e) with 0 in Hmz by lia. rewrite Z.pow_0_r, Z.mul_1_r in Hmz.
  injection Hmz as ->.
  destruct (binary_round_aux_spec prec emax Hprec s p e loc_Exact Hgrid)
    as (m & _ & _ & Hm0 & HR).
  rewrite Hf in Hm0, HR.
  assert (H0 : m = 0).
  { apply Hm0; [lia|]. pose proof (digits2_pos_bounds p) as Bp.
    assert (2 ^ Zpos (digits2_pos p) <= 2 ^ (emin prec emax - e - 1))
      by (apply Z.pow_le_mono_r; lia). lia. }
  destruct HR as [[_ HR]|(mR & eR & Hpos & _)]; [exact HR|lia].
Qed.

Lemma f_pow2_value k : 0 <= k - 23 + off -> sv (f_pow2 k) = 2 ^ (k + off).
Proof.
  intros Hk. unfold sv, f_pow2. cbn [Zval cond_Zopp].
  change 8388608 with (2 ^ 23). rewrite <- (pow2_split 23 (k - 23 + off)) by lia.
  f_equal. lia.
Qed.

Lemma d_pow2_value k : 0 <= k - 52 + off -> sv (d_pow2 k) = 2 ^ (k + off).
Proof.
  intros Hk. unfold sv, d_pow2. cbn [Zval cond_Zopp].
  change 4503599627370496 with (2 ^ 52). rewrite <- (pow2_split 52 (k - 52 + off)) by lia.
  f_equal. lia.
Qed.

Lemma f_pow2_valid k : -126 <= k <= 127 ->
  valid_binary Float.prec Float.emax (f_pow2 k) = true.
Proof.
  intros Hk. cbn. unfold bounded, canonical_mantissa. apply andb_true_intro. split.
  - apply Z.eqb_eq. cbn [digits2_pos]. unfold fexp, emin, Float.prec, Float.emax.
    cbn [Pos.succ]. lia.
  - apply Z.leb_le. unfold Float.prec, Float.emax. lia.
Qed.

Lemma d_pow2_valid k : -1022 <= k <= 1023 ->
  valid_binary Double.prec Double.emax (d_pow2 k) = true.
Proof.
  intros Hk. cbn. unfold bounded, canonical_mantissa. apply andb_true_intro. split.
  - apply Z.eqb_eq. cbn [digits2_pos]. unfold fexp, emin, Double.prec, Double.emax.
    cbn [Pos.succ]. lia.
  - apply Z.leb_le. unfold Double.prec, Double.emax. lia.
Qed.

Lemma normalized_cases v :
  normalized v = true ->
  valid_binary Float.prec Float.emax v = true /\ is_finite v = true
  /\ 0 <= sv v <= 2 ^ off
  /\ ((exists s, v = S754_zero s) \/ exists m e, v = S754_finite false m e).
Proof.
  unfold normalized. intros H. apply andb_prop in H. destruct H as [H H1].
  apply andb_prop in H. destruct H as [V H0]. unfold Float.valid in V.
  assert (F : is_finite v = true).
  { destruct v as [s|s| |s m e]; try reflexivity; try discriminate.
    destruct s; discriminate. }
  split; [exact V|]. split; [exact F|].
  unfold Float.leb, Float.zero in *.
  apply (SFleb_Zval Float.prec Float.emax (S754_zero false) v off prec32 eq_refl V
           eq_refl F off32) in H0.
  assert (V1 : valid_binary Float.prec Float.emax (Float.of_int 1) = true) by reflexivity.
  apply (SFleb_Zval Float.prec Float.emax v (Float.of_int 1) off prec32 V V1 F
           eq_refl off32) in H1.
  change (Float.of_int 1) with (f_pow2 0) in H1.
  fold (sv (f_pow2 0)) in H1. rewrite f_pow2_value in H1 by (unfold off; lia).
  cbn [Zval] in H0. fold (sv v) in H0, H1.
  change (2 ^ (0 + off)) with (2 ^ off) in H1. split; [lia|].
  destruct v as [s|s| |s m e]; try discriminate.
  - left. exists s. reflexivity.
  - right. destruct s.
    + exfalso. unfold sv in H0. cbn [Zval cond_Zopp] in H0.
      destruct (bounded32 m e V) as (He & _).
      pose proof (pow2_pos (e + off) ltac:(unfold off; lia)). lia.
    + exists m, e. reflexivity.
Qed.

(** ** A centre that hardly moved is at distance zero *)

Lemma SFadd_sandwich prec emax a c B1 B2 o :
  0 < prec ->
  valid_binary prec emax a = true -> is_finite a = true ->
  valid_binary prec emax c = true -> is_finite c = true ->
  valid_binary prec emax B1 = true -> is_finite B1 = true ->
  valid_binary prec emax B2 = true -> is_finite B2 = true ->
  0 <= emin prec emax + o ->
  Zval o B1 <= Zval o a + Zval o c <= Zval o B2 ->
  valid_binary prec emax (SFadd prec emax a c) = true
  /\ is_finite (SFadd prec emax a c) = true
  /\ Zval o B1 <= Zval o (SFadd prec emax a c) <= Zval o B2.
Proof.
  intros Hp Va Fa Vc Fc V1 F1 V2 F2 Ho [H1 H2].
  destruct (SFadd_le prec emax Hp a c B2 o Va Fa Vc Fc V2 F2 Ho H2) as [Hi|(V & F & Hle)];
  destruct (SFadd_ge prec emax Hp a c B1 o Va Fa Vc Fc V1 F1 Ho H1) as [Hi'|(V' & F' & Hge)].
  - rewrite Hi in Hi'. discriminate.
  - rewrite Hi in F'. discriminate.
  - rewrite Hi' in F. discriminate.
  - repeat split; assumption.
Qed.

Lemma positive_value_shape x m0 :
  valid_binary Float.prec Float.emax x = true -> is_finite x = true ->
  0 < m0 -> m0 <= sv x ->
  exists m e, x = S754_finite false m e
              /\ bounded Float.prec Float.emax m e = true
              /\ sv x = Zpos m * 2 ^ (e + off).
Proof.
  intros V F H0 H. destruct x as [s|s| |s m e]; try discriminate.
  - unfold sv in H. cbn in H. lia.
  - destruct (bounded32 m e V) as (He & _).
    pose proof (pow2_pos (e + off) ltac:(unfold off; lia)).
    destruct s; unfold sv in *; cbn [Zval cond_Zopp] in *; [lia|].
    exists m, e. repeat split. exact V.
Qed.

Lemma negative_value_shape x m0 :
  valid_binary Float.prec Float.emax x = true -> is_finite x = true ->
  0 < m0 -> sv x <= - m0 ->
  exists m e, x = S754_finite true m e
              /\ bounded Float.prec Float.emax m e = true
              /\ sv x = - (Zpos m * 2 ^ (e + off)).
Proof.
  intros V F H0 H. destruct x as [s|s| |s m e]; try discriminate.
  - unfold sv in H. cbn in H. lia.
  - destruct (bounded32 m e V) as (He & _).
    pose proof (pow2_pos (e + off) ltac:(unfold off; lia)).
    destruct s; unfold sv in *; cbn [Zval cond_Zopp] in *; [|lia].
    exists m, e. repeat split. exact V.
Qed.

(** The difference of two normalised coordinates, bounded by representable
    numbers [B1 <= u - v <= B2]. *)
Lemma sub_sandwich u v B1 B2 :
  normalized u = true -> normalized v = true ->
  valid_binary Float.prec Float.emax B1 = true -> is_finite B1 = true ->
  valid_binary Float.prec Float.emax B2 = true -> is_finite B2 = true ->
  sv B1 <= sv u - sv v <= sv B2 ->
  valid_binary Float.prec Float.emax (Float.sub u v) = true
  /\ is_finite (Float.sub u v) = true
  /\ sv B1 <= sv (Float.sub u v) <= sv B2.
Proof.
  intros Nu Nv V1 F1 V2 F2 H.
  destruct (normalized_cases u Nu) as (Vu & Fu & _).
  destruct (normalized_cases v Nv) as (Vv & Fv & _).
  unfold Float.sub. rewrite (SFsub_as_add Float.prec Float.emax u v Fu Fv).
  apply (SFadd_sandwich Float.prec Float.emax u (SFopp v) B1 B2 off prec32); try assumption.
  - rewrite valid_opp. exact Vv.
  - rewrite is_finite_opp. exact Fv.
  - exact off32.
  - rewrite Zval_opp. unfold sv in H. lia.
Qed.

Lemma pow2_le_inv a b : 0 <= b -> 2 ^ a <= 2 ^ b -> a <= b.
Proof.
  intros Hb H. destruct (Z.le_gt_cases a b) as [|Hgt]; [assumption|exfalso].
  assert (2 ^ b < 2 ^ a) by (apply Z.pow_lt_mono_r; lia). lia.
Qed.

(** The square of a difference of at most [2 ^ -76]. *)
Lemma pow_2_small d :
  valid_binary Float.prec Float.emax d = true -> is_finite d = true ->
  - 2 ^ (-76 + off) <= sv d <= 2 ^ (-76 + off) ->
  valid_binary Double.prec Double.emax (pow_2 d) = true
  /\ is_finite (pow_2 d) = true
  /\ 0 <= sv (pow_2 d) <= 2 ^ (-152 + off).
Proof.
  intros V F [Hlo Hhi].
  pose proof (pow2_pos (-152 + off) ltac:(unfold off; lia)) as P152.
  destruct d as [s|s| |s m e]; try discriminate.
  - destruct s; cbn; repeat split; try discriminate; lia.
  - unfold pow_2. destruct (of_float_exact s m e V) as (md & ed & -> & Hbd & Hvd).
    destruct (bounded32 m e V) as (He & _).
    pose proof (pow2_pos (e + off) ltac:(unfold off; lia)) as Pe.
    assert (HX : Zpos m * 2 ^ (e + off) <= 2 ^ (-76 + off)).
    { unfold sv in Hlo, Hhi. cbn [Zval] in Hlo, Hhi.
      destruct s; cbn [cond_Zopp] in Hlo, Hhi; lia. }
    assert (Hsq : 2 ^ (-76 + off) * 2 ^ (-76 + off)
                  = 4503599627370496 * 2 ^ (-152 - 52 + off) * 2 ^ off).
    { vm_compute. reflexivity. }
    assert (VB : bounded Double.prec Double.emax 4503599627370496 (-152 - 52) = true)
      by reflexivity.
    assert (Hle : (Zpos md * 2 ^ (ed + off)) * (Zpos md * 2 ^ (ed + off))
                  <= 4503599627370496 * 2 ^ (-152 - 52 + off) * 2 ^ off).
    { rewrite Hvd, <- Hsq. apply Z.mul_le_mono_nonneg; lia. }
    destruct (SFmul_le Double.prec Double.emax prec64 emax64 s md ed s md ed _ _ off
                Hbd Hbd VB off64 Hle) as [HR|(mR & eR & HR & HbR & Hv)];
      unfold Double.mul; rewrite HR.
    + repeat split; cbn; lia.
    + split; [exact HbR|]. split; [reflexivity|].
      destruct (bounded64 mR eR HbR) as (HeR & _).
      pose proof (pow2_pos (eR + off) ltac:(unfold off; lia)).
      unfold sv. rewrite xorb_nilpotent. cbn [Zval cond_Zopp].
      change (4503599627370496 * 2 ^ (-152 - 52 + off)) with (sv (d_pow2 (-152))) in Hv.
      rewrite d_pow2_value in Hv by (unfold off; lia). lia.
Qed.

(** A double of at most [2 ^ -151] becomes a zero float. *)
Lemma of_double_tiny D :
  valid_binary Double.prec Double.emax D = true -> is_finite D = true ->
  0 <= sv D <= 2 ^ (-151 + off) ->
  exists s, Float.of_double D = S754_zero s.
Proof.
  intros V F [Hlo Hhi]. destruct D as [s|s| |s m e]; try discriminate.
  - exists s. reflexivity.
  - destruct (bounded64 m e V) as (He & _).
    pose proof (pow2_pos (e + off) ltac:(unfold off; lia)) as Pe.
    unfold sv in Hlo, Hhi. cbn [Zval] in Hlo, Hhi.
    destruct s; cbn [cond_Zopp] in Hlo, Hhi; [lia|].
    exists false. cbn [Float.of_double].
    apply binary_round_underflow; [exact prec32|].
    change (emin Float.prec Float.emax) with (-149).
    pose proof (digits2_pos_bounds m) as Bm.
    set (d := Zpos (digits2_pos m)) in *. assert (0 < d) by (unfold d; lia).
    assert (H1 : 2 ^ (d - 1 + (e + off)) <= Zpos m * 2 ^ (e + off)).
    { rewrite (pow2_split (d - 1) (e + off)) by (unfold off; lia).
      apply Z.mul_le_mono_nonneg_r; lia. }
    assert (H2 : 2 ^ (d - 1 + (e + off)) <= 2 ^ (-151 + off)) by lia.
    apply pow2_le_inv in H2; [lia|unfold off; lia].
Qed.

(** When both coordinates differ by at most [2 ^ -76], the distance computed
    by the calculator is zero. *)
Lemma distance_of_small_differences a_x a_y b_x b_y :
  let dx := Float.sub a_x b_x in
  let dy := Float.sub a_y b_y in
  valid_binary Float.prec Float.emax dx = true -> is_finite dx = true ->
  valid_binary Float.prec Float.emax dy = true -> is_finite dy = true ->
  - 2 ^ (-76 + off) <= sv dx <= 2 ^ (-76 + off) ->
  - 2 ^ (-76 + off) <= sv dy <= 2 ^ (-76 + off) ->
  exists s, get_Euclidean_DistanceAB a_x a_y b_x b_y = S754_zero s.
Proof.
  intros dx dy Vx Fx Vy Fy Hx Hy. unfold get_Euclidean_DistanceAB. fold dx dy.
  destruct (pow_2_small dx Vx Fx Hx) as (V1 & F1 & H1).
  destruct (pow_2_small dy Vy Fy Hy) as (V2 & F2 & H2).
  assert (VZ : valid_binary Double.prec Double.emax (S754_zero false) = true) by reflexivity.
  assert (VB : valid_binary Double.prec Double.emax (d_pow2 (-151)) = true)
    by (apply d_pow2_valid; lia).
  destruct (SFadd_sandwich Double.prec Double.emax (pow_2 dx) (pow_2 dy)
              (S754_zero false) (d_pow2 (-151)) off prec64 V1 F1 V2 F2 VZ eq_refl
              VB eq_refl off64) as (V & F & Hlo & Hhi).
  { fold (sv (d_pow2 (-151))). rewrite d_pow2_value by (unfold off; lia).
    unfold sv in *. cbn [Zval].
    assert (2 ^ (-151 + off) = 2 * 2 ^ (-152 + off)).
    { vm_compute. reflexivity. }
    lia. }
  fold (sv (d_pow2 (-151))) in Hhi. rewrite d_pow2_value in Hhi by (unfold off; lia).
  cbn [Zval] in Hlo.
  destruct (of_double_tiny _ V F (conj Hlo Hhi)) as (s & Hs).
  unfold Double.add. rewrite Hs. exists s. reflexivity.
Qed.

(** ** The reference point of the scroll angle *)

Lemma Float_sub_sandwich u v B1 B2 :
  valid_binary Float.prec Float.emax u = true -> is_finite u = true ->
  valid_binary Float.prec Float.emax v = true -> is_finite v = true ->
  valid_binary Float.prec Float.emax B1 = true -> is_finite B1 = true ->
  valid_binary Float.prec Float.emax B2 = true -> is_finite B2 = true ->
  sv B1 <= sv u - sv v <= sv B2 ->
  valid_binary Float.prec Float.emax (Float.sub u v) = true
  /\ is_finite (Float.sub u v) = true
  /\ sv B1 <= sv (Float.sub u v) <= sv B2.
Proof.
  intros Vu Fu Vv Fv V1 F1 V2 F2 H.
  unfold Float.sub. rewrite (SFsub_as_add Float.prec Float.emax u v Fu Fv).
  apply (SFadd_sandwich Float.prec Float.emax u (SFopp v) B1 B2 off prec32); try assumption.
  - rewrite valid_opp. exact Vv.
  - rewrite is_finite_opp. exact Fv.
  - exact off32.
  - rewrite Zval_opp. unfold sv in H. lia.
Qed.

(** The conversion of a positive double to float, between two float
    bounds. *)
Lemma of_double_sandwich m e k1 k2 :
  bounded Double.prec Double.emax m e = true ->
  -126 <= k1 <= 127 -> -126 <= k2 <= 127 ->
  2 ^ (k1 + off) <= Zpos m * 2 ^ (e + off) <= 2 ^ (k2 + off) ->
  exists mr er,
    Float.of_double (S754_finite false m e) = S754_finite false mr er
    /\ bounded Float.prec Float.emax mr er = true
    /\ 2 ^ (k1 + off) <= Zpos mr * 2 ^ (er + off) <= 2 ^ (k2 + off).
Proof.
  intros Hb Hk1 Hk2 [Hlo Hhi]. destruct (bounded64 m e Hb) as (He & _).
  cbn [Float.of_double].
  pose proof (f_pow2_valid k1 Hk1) as V1. pose proof (f_pow2_valid k2 Hk2) as V2.
  pose proof (f_pow2_value k1 ltac:(unfold off; lia)) as E1.
  pose proof (f_pow2_value k2 ltac:(unfold off; lia)) as E2.
  unfold sv, f_pow2 in E1, E2. cbn [Zval cond_Zopp] in E1, E2.
  unfold f_pow2 in V1, V2. cbn [valid_binary] in V1, V2.
  destruct (binary_round_le Float.prec Float.emax prec32 false m e _ _ off V2
              ltac:(unfold off; lia) off32 ltac:(rewrite E2; exact Hhi))
    as [Hz|(mr & er & Hr & Hbr & Hvr)];
  destruct (binary_round_ge Float.prec Float.emax prec32 false m e _ _ off V1
              ltac:(unfold off; lia) off32 ltac:(rewrite E1; exact Hlo))
    as [Hi|(mr' & er' & Hr' & Hbr' & Hvr')]; try congruence.
  rewrite Hr in Hr'. injection Hr' as <- <-.
  exists mr, er. split; [exact Hr|]. split; [exact Hbr|]. lia.
Qed.

Lemma literal_tenth : Double.literal 1 10 = S754_finite false 7205759403792794 (-56).
Proof. vm_compute. reflexivity. Qed.

Lemma tenth_checks :
  let C := 7205759403792794 * 2 ^ (-56 + off) in
  2 ^ (-4 + off) <= C /\ 2 ^ (-5 + off) + C <= 2 ^ (0 + off)
  /\ 2 ^ (-23 + off) <= C /\ 2 ^ (0 + off) + C <= 2 ^ (1 + off)
  /\ 2 ^ (-4 + off) = 2 * 2 ^ (-5 + off).
Proof.
  cbv zeta.
  split; [apply Z.leb_le; vm_compute; reflexivity|].
  split; [apply Z.leb_le; vm_compute; reflexivity|].
  split; [apply Z.leb_le; vm_compute; reflexivity|].
  split; [apply Z.leb_le; vm_compute; reflexivity|].
  vm_compute. reflexivity.
Qed.

Lemma double_positive_shape x m0 :
  valid_binary Double.prec Double.emax x = true -> is_finite x = true ->
  0 < m0 -> m0 <= sv x ->
  exists m e, x = S754_finite false m e
              /\ bounded Double.prec Double.emax m e = true
              /\ sv x = Zpos m * 2 ^ (e + off).
Proof.
  intros V F H0 H. destruct x as [s|s| |s m e]; try discriminate.
  - unfold sv in H. cbn in H. lia.
  - destruct (bounded64 m e V) as (He & _).
    pose proof (pow2_pos (e + off) ltac:(unfold off; lia)).
    destruct s; unfold sv in *; cbn [Zval cond_Zopp] in *; [lia|].
    exists m, e. repeat split. exact V.
Qed.

(** The synthetic reference point [previous_x_center + 0.1] lies to the right
    of a normalised, non-zero [previous_x_center]: the difference [cb_x] that
    [getAngleABC] computes is negative, at least [2 ^ -28] and at most 2 in
    magnitude. *)
Lemma reference_offset (px : Float.t) :
  normalized px = true -> Float.truthy px = true ->
  exists m e,
    Float.sub px
      (Float.of_double (Double.add (Double.of_float px) (Double.literal 1 10)))
    = S754_finite true m e
    /\ bounded Float.prec Float.emax m e = true
    /\ 2 ^ (-28 + off) <= Zpos m * 2 ^ (e + off) <= 2 ^ (1 + off).
Proof.
  intros Nx Tx. destruct (normalized_cases px Nx) as (Vx & Fx & [Hx0 Hx1] & Hshape).
  destruct Hshape as [(s & ->)|(m & e & ->)]; [destruct s; discriminate|].
  rewrite literal_tenth.
  destruct tenth_checks as (K1 & K2 & K3 & K4 & K5). cbv zeta in K1, K2, K3, K4.
  assert (E0 : 2 ^ (0 + off) = 2 ^ off) by reflexivity.
  set (C := 7205759403792794 * 2 ^ (-56 + off)) in *.
  set (c01 := S754_finite false 7205759403792794 (-56)).
  assert (Vc : valid_binary Double.prec Double.emax c01 = true) by reflexivity.
  assert (Ec : sv c01 = C) by reflexivity.
  destruct (of_float_exact false m e Vx) as (md & ed & Hd & Hbd & Hvd).
  rewrite Hd. set (d := S754_finite false md ed).
  assert (Ed : sv d = Zpos m * 2 ^ (e + off)) by (unfold sv, d; cbn [Zval cond_Zopp]; exact Hvd).
  unfold sv in Hx0, Hx1. cbn [Zval cond_Zopp] in Hx0, Hx1.
  set (X := Zpos m * 2 ^ (e + off)) in *.
  destruct (bounded32 m e Vx) as (He & Hdm).
  pose proof (pow2_pos (e + off) ltac:(unfold off; lia)) as Pe.
  assert (HX0 : 0 < X) by (unfold X; lia).
  pose proof (pow2_pos (-28 + off) ltac:(unfold off; lia)) as P28.
  pose proof (pow2_pos (-5 + off) ltac:(unfold off; lia)) as P5.
  assert (H285 : 2 ^ (-28 + off) <= 2 ^ (-5 + off))
    by (apply Z.pow_le_mono_r; unfold off; lia).
  assert (H01 : 2 ^ (0 + off) <= 2 ^ (1 + off))
    by (apply Z.pow_le_mono_r; unfold off; lia).
  assert (Voff : forall k, -126 <= k <= 127 ->
            valid_binary Float.prec Float.emax (SFopp (f_pow2 k)) = true
            /\ sv (SFopp (f_pow2 k)) = - 2 ^ (k + off)).
  { intros k Hk. split; [rewrite valid_opp; apply f_pow2_valid; exact Hk|].
    unfold sv. rewrite Zval_opp. fold (sv (f_pow2 k)).
    rewrite f_pow2_value by (unfold off; lia). reflexivity. }
  destruct (Z.le_gt_cases X (2 ^ (-5 + off))) as [HA|HB].
  - (* previous_x_center <= 1/32: the reference point is at least 1/16 *)
    destruct (SFadd_sandwich Double.prec Double.emax d c01 (d_pow2 (-4)) (d_pow2 0) off
                prec64 Hbd eq_refl Vc eq_refl (d_pow2_valid (-4) ltac:(lia)) eq_refl
                (d_pow2_valid 0 ltac:(lia)) eq_refl off64) as (Vs & Fs & Hs0 & Hs1).
    { fold (sv (d_pow2 (-4))) (sv (d_pow2 0)) (sv d) (sv c01).
      rewrite !d_pow2_value by (unfold off; lia). rewrite Ed, Ec.
      clear - HA K1 K2 HX0. clearbody X C. lia. }
    fold (sv (d_pow2 (-4))) (sv (d_pow2 0)) in Hs0, Hs1.
    rewrite d_pow2_value in Hs0, Hs1 by (unfold off; lia).
    fold (sv (SFadd Double.prec Double.emax d c01)) in Hs0, Hs1.
    destruct (double_positive_shape _ (2 ^ (-4 + off)) Vs Fs
                ltac:(apply pow2_pos; unfold off; lia) Hs0) as (ms & es & Es & Hbs & Hvs).
    unfold Double.add. rewrite Es. rewrite Hvs in Hs0, Hs1.
    destruct (of_double_sandwich ms es (-4) 0 Hbs ltac:(lia) ltac:(lia) (conj Hs0 Hs1))
      as (mr & er & Er & Hbr & Hr0 & Hr1).
    rewrite Er. set (ref := S754_finite false mr er).
    assert (Eref : sv ref = Zpos mr * 2 ^ (er + off)) by reflexivity.
    destruct (Voff 0 ltac:(lia)) as (V1 & E1). destruct (Voff (-5) ltac:(lia)) as (V5 & E5).
    destruct (Float_sub_sandwich (S754_finite false m e) ref (SFopp (f_pow2 0))
                (SFopp (f_pow2 (-5))) Vx eq_refl Hbr eq_refl V1 eq_refl V5 eq_refl)
      as (Vcb & Fcb & Hcb0 & Hcb1).
    { rewrite E1, E5, Eref. unfold sv. cbn [Zval cond_Zopp]. fold X.
      clear - HA Hr0 Hr1 HX0 K5 P5. clearbody X. lia. }
    rewrite E1 in Hcb0. rewrite E5 in Hcb1.
    destruct (negative_value_shape _ (2 ^ (-5 + off)) Vcb Fcb P5 Hcb1)
      as (mc & ec & Ecb & Hbc & Hvc).
    exists mc, ec. split; [exact Ecb|]. split; [exact Hbc|].
    rewrite Hvc in Hcb0, Hcb1. clear - Hcb0 Hcb1 H285 H01.
    change (2 ^ (0 + off)) with (2 ^ off) in *. lia.
  - (* previous_x_center > 1/32: it is a multiple of 2^-28, and the next
       multiple of 2^-23 above it is below the reference point *)
    assert (He28 : -28 <= e).
    { pose proof (digits2_pos_bounds m) as Bm.
      assert (Hm24 : Zpos m < 2 ^ 24).
      { assert (2 ^ Zpos (digits2_pos m) <= 2 ^ 24) by (apply Z.pow_le_mono_r; lia). lia. }
      assert (H1 : X < 2 ^ (24 + (e + off))).
      { unfold X. rewrite (pow2_split 24 (e + off)) by (unfold off; lia).
        apply Z.mul_lt_mono_pos_r; lia. }
      assert (H2 : 2 ^ (-5 + off) < 2 ^ (24 + (e + off))) by lia.
      apply pow2_lt_inv in H2; [lia|unfold off; lia]. }
    assert (He23 : e <= -23).
    { apply andb_prop in Vx. destruct Vx as [Cx _].
      destruct (canonical_exponent Float.prec Float.emax m e Cx) as (_ & _ & Hn).
      change (emin Float.prec Float.emax) with (-149) in Hn.
      specialize (Hn ltac:(lia)). change Float.prec with 24 in Hn.
      pose proof (digits2_pos_bounds m) as Bm. rewrite Hn in Bm.
      assert (H1 : 2 ^ (23 + (e + off)) <= X).
      { unfold X. rewrite (pow2_split 23 (e + off)) by (unfold off; lia).
        apply Z.mul_le_mono_nonneg_r; [lia|]. change (24 - 1) with 23 in Bm. lia. }
      assert (H2 : 2 ^ (23 + (e + off)) <= 2 ^ (0 + off)) by lia.
      apply pow2_le_inv in H2; [lia|unfold off; lia]. }
    set (k := - e - 23). assert (Hk : 0 <= k <= 5) by (unfold k; lia).
    pose proof (pow2_pos k ltac:(lia)) as Pk.
    set (N := Zpos m / 2 ^ k + 1).
    assert (HN1 : Zpos m + 1 <= N * 2 ^ k).
    { unfold N. pose proof (Z.mul_succ_div_gt (Zpos m) (2 ^ k) Pk) as D.
      clear - D. lia. }
    assert (HN2 : N * 2 ^ k <= Zpos m + 2 ^ k).
    { unfold N. pose proof (Z.mul_div_le (Zpos m) (2 ^ k) Pk) as D.
      clear - D. lia. }
    assert (Hgrid : 2 ^ (-23 + off) = 2 ^ k * 2 ^ (e + off)).
    { rewrite <- (pow2_split k (e + off)) by (unfold off; lia). f_equal. unfold k. lia. }
    pose proof (pow2_pos (-23 + off) ltac:(unfold off; lia)) as P23.
    set (G := 2 ^ (-23 + off)) in *.
    assert (HNG0 : X + 2 ^ (e + off) <= N * G).
    { rewrite Hgrid. unfold X.
      replace (Zpos m * 2 ^ (e + off) + 2 ^ (e + off))
        with ((Zpos m + 1) * 2 ^ (e + off)) by ring.
      replace (N * (2 ^ k * 2 ^ (e + off))) with (N * 2 ^ k * 2 ^ (e + off)) by ring.
      apply Z.mul_le_mono_nonneg_r; [apply Z.lt_le_incl; exact Pe|exact HN1]. }
    assert (HNG1 : N * G <= X + G).
    { rewrite Hgrid. unfold X.
      replace (Zpos m * 2 ^ (e + off) + 2 ^ k * 2 ^ (e + off))
        with ((Zpos m + 2 ^ k) * 2 ^ (e + off)) by ring.
      replace (N * (2 ^ k * 2 ^ (e + off))) with (N * 2 ^ k * 2 ^ (e + off)) by ring.
      apply Z.mul_le_mono_nonneg_r; [apply Z.lt_le_incl; exact Pe|exact HN2]. }
    assert (HNpos : 0 < N).
    { unfold N. pose proof (Z.div_pos (Zpos m) (2 ^ k) ltac:(clear; lia) Pk) as D.
      clear - D. lia. }
    assert (HN24 : N < 2 ^ 24).
    { assert (H : N * G <= (2 ^ 23 + 1) * G).
      { etransitivity; [exact HNG1|].
        replace ((2 ^ 23 + 1) * G) with (2 ^ 23 * G + G) by ring.
        assert (2 ^ (0 + off) = 2 ^ 23 * G).
        { unfold G. rewrite <- (pow2_split 23 (-23 + off)) by (unfold off; lia).
          f_equal. }
        lia. }
      assert (HN' : N <= 2 ^ 23 + 1) by (apply (Z.mul_le_mono_pos_r _ _ G P23); exact H).
      change (2 ^ 23) with 8388608 in HN'. change (2 ^ 24) with 16777216. lia. }
    destruct N as [|pN|pN] eqn:EN; try lia.
    assert (HdN : Zpos (digits2_pos pN) <= 24).
    { change (Zpos (digits2_pos pN)) with (Zdigits2 (Zpos pN)).
      apply Zdigits2_le_pow; lia. }
    (* the bound as a float and as a double *)
    destruct (binary_round_exact Float.prec Float.emax prec32 false pN (-23))
      as (mB & eB & _ & HbB & HeB & HmB).
    { clear - HdN. unfold fexp, emin, Float.prec, Float.emax. lia. }
    { clear - HdN. unfold fexp, emin, Float.prec, Float.emax. lia. }
    destruct (binary_round_exact Double.prec Double.emax prec64 false pN (-23))
      as (mD & eD & _ & HbD & HeD & HmD).
    { clear - HdN. unfold fexp, emin, Double.prec, Double.emax. lia. }
    { clear - HdN. unfold fexp, emin, Double.prec, Double.emax. lia. }
    assert (HvB : Zpos mB * 2 ^ (eB + off) = Zpos pN * G).
    { destruct (bounded32 mB eB HbB) as (HeB' & _).
      assert (eB <= -23)
        by (clear - HeB HdN; rewrite HeB; unfold fexp, emin, Float.prec, Float.emax; lia).
      rewrite HmB. unfold G. replace (-23 + off) with ((-23 - eB) + (eB + off)) by lia.
      rewrite (pow2_split (-23 - eB) (eB + off)) by (unfold off; lia). ring. }
    assert (HvD : Zpos mD * 2 ^ (eD + off) = Zpos pN * G).
    { destruct (bounded64 mD eD HbD) as (HeD' & _).
      assert (eD <= -23)
        by (clear - HeD HdN; rewrite HeD; unfold fexp, emin, Double.prec, Double.emax; lia).
      rewrite HmD. unfold G. replace (-23 + off) with ((-23 - eD) + (eD + off)) by lia.
      rewrite (pow2_split (-23 - eD) (eD + off)) by (unfold off; lia). ring. }
    destruct (SFadd_sandwich Double.prec Double.emax d c01 (S754_finite false mD eD)
                (d_pow2 1) off prec64 Hbd eq_refl Vc eq_refl HbD eq_refl
                (d_pow2_valid 1 ltac:(lia)) eq_refl off64) as (Vs & Fs & Hs0 & Hs1).
    { fold (sv (d_pow2 1)) (sv d) (sv c01).
      rewrite d_pow2_value by (unfold off; lia). rewrite Ed, Ec.
      cbn [Zval cond_Zopp]. rewrite HvD. fold X.
      clear - HNG1 K3 K4 E0 Hx1. lia. }
    fold (sv (d_pow2 1)) in Hs1. rewrite d_pow2_value in Hs1 by (unfold off; lia).
    cbn [Zval cond_Zopp] in Hs0. rewrite HvD in Hs0.
    fold (sv (SFadd Double.prec Double.emax d c01)) in Hs0, Hs1.
    assert (PNG : 0 < Zpos pN * G) by (apply Z.mul_pos_pos; [reflexivity|exact P23]).
    destruct (double_positive_shape _ (Zpos pN * G) Vs Fs PNG Hs0)
      as (ms & es & Es & Hbs & Hvs).
    unfold Double.add. rewrite Es. rewrite Hvs in Hs0, Hs1.
    destruct (bounded64 ms es Hbs) as (Hes & _).
    assert (V2 : bounded Float.prec Float.emax 8388608 (1 - 23) = true) by reflexivity.
    assert (E2 : 8388608 * 2 ^ (1 - 23 + off) = 2 ^ (1 + off)).
    { pose proof (f_pow2_value 1 ltac:(unfold off; lia)) as H. exact H. }
    cbn [Float.of_double].
    destruct (binary_round_le Float.prec Float.emax prec32 false ms es _ _ off V2
                ltac:(unfold off; lia) off32 ltac:(rewrite E2; exact Hs1))
      as [Hz|(mr & er & Er & Hbr & Hr1)];
    destruct (binary_round_ge Float.prec Float.emax prec32 false ms es mB eB off HbB
                ltac:(unfold off; lia) off32 ltac:(rewrite HvB; exact Hs0))
      as [Hi|(mr' & er' & Er' & Hbr' & Hr0)]; try congruence.
    rewrite Er in Er'. injection Er' as <- <-. rewrite Er.
    rewrite HvB in Hr0. rewrite E2 in Hr1.
    set (ref := S754_finite false mr er).
    assert (Eref : sv ref = Zpos mr * 2 ^ (er + off)) by reflexivity.
    destruct (Voff 1 ltac:(lia)) as (V1 & E1). destruct (Voff (-28) ltac:(lia)) as (V28 & E28).
    assert (He28' : 2 ^ (-28 + off) <= 2 ^ (e + off))
      by (apply Z.pow_le_mono_r; unfold off; lia).
    destruct (Float_sub_sandwich (S754_finite false m e) ref (SFopp (f_pow2 1))
                (SFopp (f_pow2 (-28))) Vx eq_refl Hbr eq_refl V1 eq_refl V28 eq_refl)
      as (Vcb & Fcb & Hcb0 & Hcb1).
    { rewrite E1, E28, Eref. unfold sv. cbn [Zval cond_Zopp]. fold X.
      clear - HX0 Hr1 Hr0 HNG0 He28'. clearbody X G. lia. }
    rewrite E1 in Hcb0. rewrite E28 in Hcb1.
    destruct (negative_value_shape _ (2 ^ (-28 + off)) Vcb Fcb P28 Hcb1)
      as (mc & ec & Ecb & Hbc & Hvc).
    exists mc, ec. split; [exact Ecb|]. split; [exact Hbc|].
    rewrite Hvc in Hcb0, Hcb1. clear - Hcb0 Hcb1. lia.
Qed.

(** ** Displacements along one axis *)

Lemma SFeqb_Zval prec emax a b o :
  0 < prec ->
  valid_binary prec emax a = true -> valid_binary prec emax b = true ->
  is_finite a = true -> is_finite b = true ->
  0 <= emin prec emax + o ->
  SFeqb a b = true <-> Zval o a = Zval o b.
Proof.
  intros Hp Va Vb Fa Fb Ho. unfold SFeqb.
  rewrite (SFcompare_Zval prec emax Hp a b o Va Vb Fa Fb Ho).
  destruct (Z.compare_spec (Zval o a) (Zval o b)); split; intros; try lia;
    try reflexivity; discriminate.
Qed.

Lemma zero_value_shape x :
  valid_binary Float.prec Float.emax x = true -> is_finite x = true ->
  sv x = 0 -> exists s, x = S754_zero s.
Proof.
  intros V F H. destruct x as [s|s| |s m e]; try discriminate.
  - exists s. reflexivity.
  - destruct (bounded32 m e V) as (He & _).
    pose proof (pow2_pos (e + off) ltac:(unfold off; lia)).
    destruct s; unfold sv in H; cbn [Zval cond_Zopp] in H; lia.
Qed.

(** A coordinate that did not change: the difference is a zero. *)
Lemma unchanged u v :
  normalized u = true -> normalized v = true -> Float.eqb u v = true ->
  (exists s, Float.sub u v = S754_zero s) /\ (exists s, Float.sub v u = S754_zero s).
Proof.
  intros Nu Nv H.
  destruct (normalized_cases u Nu) as (Vu & Fu & _).
  destruct (normalized_cases v Nv) as (Vv & Fv & _).
  apply (SFeqb_Zval Float.prec Float.emax u v off prec32 Vu Vv Fu Fv off32) in H.
  fold (sv u) (sv v) in H.
  split.
  - destruct (sub_sandwich u v (S754_zero false) (S754_zero false) Nu Nv
                eq_refl eq_refl eq_refl eq_refl) as (V & F & H0 & H1).
    { change (sv (S754_zero false)) with 0. lia. }
    apply zero_value_shape; [exact V|exact F|].
    change (sv (S754_zero false)) with 0 in H0, H1. lia.
  - destruct (sub_sandwich v u (S754_zero false) (S754_zero false) Nv Nu
                eq_refl eq_refl eq_refl eq_refl) as (V & F & H0 & H1).
    { change (sv (S754_zero false)) with 0. lia. }
    apply zero_value_shape; [exact V|exact F|].
    change (sv (S754_zero false)) with 0 in H0, H1. lia.
Qed.

(** A coordinate that moved by at least [2 ^ -76]: both differences are
    finite, different from zero and of opposite signs. *)
Lemma displacement u v :
  normalized u = true -> normalized v = true ->
  2 ^ (-76 + off) <= sv v - sv u ->
  (exists m e, Float.sub v u = S754_finite false m e
               /\ bounded Float.prec Float.emax m e = true
               /\ 2 ^ (-76 + off) <= Zpos m * 2 ^ (e + off) <= 2 ^ off)
  /\ (exists m e, Float.sub u v = S754_finite true m e
               /\ bounded Float.prec Float.emax m e = true
               /\ 2 ^ (-76 + off) <= Zpos m * 2 ^ (e + off) <= 2 ^ off).
Proof.
  intros Nu Nv H.
  destruct (normalized_cases u Nu) as (Vu & Fu & [Hu0 Hu1] & _).
  destruct (normalized_cases v Nv) as (Vv & Fv & [Hv0 Hv1] & _).
  pose proof (f_pow2_valid (-76) ltac:(lia)) as V76.
  pose proof (f_pow2_valid 0 ltac:(lia)) as V0.
  pose proof (f_pow2_value (-76) ltac:(unfold off; lia)) as E76.
  pose proof (f_pow2_value 0 ltac:(unfold off; lia)) as E0.
  change (2 ^ (0 + off)) with (2 ^ off) in E0.
  pose proof (pow2_pos (-76 + off) ltac:(unfold off; lia)) as P76.
  split.
  - destruct (sub_sandwich v u (f_pow2 (-76)) (f_pow2 0) Nv Nu V76 eq_refl V0 eq_refl)
      as (V & F & H0 & H1).
    { rewrite E76, E0. lia. }
    rewrite E76 in H0. rewrite E0 in H1.
    destruct (positive_value_shape _ _ V F P76 H0) as (m & e & E & Hb & Hv).
    exists m, e. rewrite Hv in H0, H1. repeat split; assumption.
  - assert (Vo : forall k, -126 <= k <= 127 ->
              valid_binary Float.prec Float.emax (SFopp (f_pow2 k)) = true).
    { intros k Hk. rewrite valid_opp. apply f_pow2_valid. exact Hk. }
    assert (Eo : forall k, sv (SFopp (f_pow2 k)) = - sv (f_pow2 k)).
    { intros k. unfold sv. apply Zval_opp. }
    destruct (sub_sandwich u v (SFopp (f_pow2 0)) (SFopp (f_pow2 (-76))) Nu Nv
                (Vo 0 ltac:(lia)) eq_refl (Vo (-76) ltac:(lia)) eq_refl)
      as (V & F & H0 & H1).
    { rewrite !Eo, E76, E0. lia. }
    rewrite Eo, E0 in H0. rewrite Eo, E76 in H1.
    destruct (negative_value_shape _ _ V F P76 H1) as (m & e & E & Hb & Hv).
    exists m, e. rewrite Hv in H0, H1. repeat split; try assumption; lia.
Qed.

(** A centre that moved by at most [2 ^ -76] along one axis, and not at all
    along the other, is at distance zero: the squares underflow. *)
Lemma still_x x y px py :
  normalized x = true -> normalized px = true ->
  normalized y = true -> normalized py = true ->
  Float.eqb y py = true ->
  - 2 ^ (-76 + off) <= sv x - sv px <= 2 ^ (-76 + off) ->
  exists s, get_Euclidean_DistanceAB x y px py = S754_zero s.
Proof.
  intros Nx Npx Ny Npy Hy H.
  pose proof (f_pow2_valid (-76) ltac:(lia)) as V76.
  pose proof (f_pow2_value (-76) ltac:(unfold off; lia)) as E76.
  pose proof (pow2_pos (-76 + off) ltac:(unfold off; lia)) as P76.
  destruct (unchanged y py Ny Npy Hy) as ((s & Es) & _).
  destruct (sub_sandwich x px (SFopp (f_pow2 (-76))) (f_pow2 (-76)) Nx Npx
              ltac:(rewrite valid_opp; exact V76) eq_refl V76 eq_refl)
    as (V & F & H0 & H1).
  { unfold sv at 1. rewrite Zval_opp. fold (sv (f_pow2 (-76))). rewrite E76. exact H. }
  unfold sv at 1 in H0. rewrite Zval_opp in H0. fold (sv (f_pow2 (-76))) in H0.
  rewrite E76 in H0, H1.
  apply distance_of_small_differences; cbv zeta; try assumption.
  - rewrite Es. reflexivity.
  - rewrite Es. reflexivity.
  - split; assumption.
  - rewrite Es. unfold sv. cbn [Zval]. lia.
Qed.

Lemma still_y x y px py :
  normalized x = true -> normalized px = true ->
  normalized y = true -> normalized py = true ->
  Float.eqb x px = true ->
  - 2 ^ (-76 + off) <= sv y - sv py <= 2 ^ (-76 + off) ->
  exists s, get_Euclidean_DistanceAB x y px py = S754_zero s.
Proof.
  intros Nx Npx Ny Npy Hx H.
  pose proof (f_pow2_valid (-76) ltac:(lia)) as V76.
  pose proof (f_pow2_value (-76) ltac:(unfold off; lia)) as E76.
  pose proof (pow2_pos (-76 + off) ltac:(unfold off; lia)) as P76.
  destruct (unchanged x px Nx Npx Hx) as ((s & Es) & _).
  destruct (sub_sandwich y py (SFopp (f_pow2 (-76))) (f_pow2 (-76)) Ny Npy
              ltac:(rewrite valid_opp; exact V76) eq_refl V76 eq_refl)
    as (V & F & H0 & H1).
  { unfold sv at 1. rewrite Zval_opp. fold (sv (f_pow2 (-76))). rewrite E76. exact H. }
  unfold sv at 1 in H0. rewrite Zval_opp in H0. fold (sv (f_pow2 (-76))) in H0.
  rewrite E76 in H0, H1.
  apply distance_of_small_differences; cbv zeta; try assumption.
  - rewrite Es. reflexivity.
  - rewrite Es. reflexivity.
  - rewrite Es. unfold sv. cbn [Zval]. lia.
  - split; assumption.
Qed.

(** The movement threshold [0.02 * height] of a height that is not negative
    is not negative: a distance of zero is never above it. *)
Lemma zero_is_not_above_threshold (height : Float.t) s :
  Float.valid height = true -> Float.leb Float.zero height = true ->
  Float.gtb (S754_zero s) (Float.mul (flt 2 100) height) = false.
Proof.
  intros Vh Hh.
  assert (Ec : flt 2 100 = S754_finite false 10737418 (-29)) by (vm_compute; reflexivity).
  assert (Vc : bounded Float.prec Float.emax 10737418 (-29) = true) by reflexivity.
  rewrite Ec. unfold Float.gtb, Float.mul.
  destruct height as [s'|s'| |s' m e]; try discriminate.
  - reflexivity.
  - destruct s'; [discriminate|]. reflexivity.
  - destruct s'; [discriminate|].
    destruct (SFmul_shape Float.prec Float.emax false 10737418 (-29) false m e
                prec32 emax32 Vc Vh) as [HR|[HR|(mR & eR & HR & HbR)]]; rewrite HR;
      reflexivity.
Qed.

(** The product of a displacement of at least [2 ^ -76] and the offset of
    the reference point neither underflows nor overflows. *)
Lemma product_sign sa ma ea mc ec :
  bounded Float.prec Float.emax ma ea = true ->
  bounded Float.prec Float.emax mc ec = true ->
  2 ^ (-76 + off) <= Zpos ma * 2 ^ (ea + off) <= 2 ^ off ->
  2 ^ (-28 + off) <= Zpos mc * 2 ^ (ec + off) <= 2 ^ (1 + off) ->
  exists mR eR,
    Float.mul (S754_finite sa ma ea) (S754_finite true mc ec)
    = S754_finite (negb sa) mR eR.
Proof.
  intros Ha Hc [Ha0 Ha1] [Hc0 Hc1].
  pose proof (f_pow2_valid (-104) ltac:(lia)) as V104.
  pose proof (f_pow2_valid 1 ltac:(lia)) as V1.
  pose proof (f_pow2_value (-104) ltac:(unfold off; lia)) as E104.
  pose proof (f_pow2_value 1 ltac:(unfold off; lia)) as E1.
  unfold sv, f_pow2 in E104, E1. cbn [Zval cond_Zopp] in E104, E1.
  unfold f_pow2 in V104, V1. cbn [valid_binary] in V104, V1.
  pose proof (pow2_pos (-76 + off) ltac:(unfold off; lia)) as P76.
  pose proof (pow2_pos (-28 + off) ltac:(unfold off; lia)) as P28.
  pose proof (pow2_pos off ltac:(unfold off; lia)) as Poff.
  assert (S1 : 2 ^ (-104 + off) * 2 ^ off = 2 ^ (-76 + off) * 2 ^ (-28 + off)).
  { rewrite <- !Z.pow_add_r by (unfold off; lia). f_equal; lia. }
  unfold Float.mul.
  replace (negb sa) with (xorb sa true) by (destruct sa; reflexivity).
  destruct (SFmul_ge Float.prec Float.emax prec32 emax32 sa ma ea true mc ec _ _ off
              Ha Hc V104 off32) as [Hi|(mR & eR & ER & HbR & HR)].
  { rewrite E104, S1. apply Z.mul_le_mono_nonneg; lia. }
  - destruct (SFmul_le Float.prec Float.emax prec32 emax32 sa ma ea true mc ec _ _ off
                Ha Hc V1 off32) as [Hz|(mR & eR & ER & HbR & HR)].
    { rewrite E1. rewrite (Z.mul_comm (2 ^ (1 + off))).
      apply Z.mul_le_mono_nonneg; lia. }
    + cbv zeta in Hi, Hz. rewrite Hi in Hz. discriminate.
    + exists mR, eR. exact ER.
  - exists mR, eR. exact ER.
Qed.

(** ** The angle of a movement along one axis *)

Lemma sub_self v :
  normalized v = true -> exists s, Float.sub v v = S754_zero s.
Proof.
  intros Nv. destruct (normalized_cases v Nv) as (V & F & _).
  destruct (sub_sandwich v v (S754_zero false) (S754_zero false) Nv Nv
              eq_refl eq_refl eq_refl eq_refl) as (V' & F' & H0 & H1).
  { change (sv (S754_zero false)) with 0. lia. }
  apply zero_value_shape; [exact V'|exact F'|].
  change (sv (S754_zero false)) with 0 in H0, H1. lia.
Qed.

Section Angles.

Variable atan2_finite : Float.t -> Float.t -> Float.t.

(** The angle at the previous centre between the new centre and the
    reference point, when the centre moved along the x axis only: the cross
    product is a zero and the dot product has the sign opposite to the one of
    [ab_x]. *)
Lemma getAngleABC_along_x a_x a_y b_x b_y c_x c_y sa ma ea mc ec s1 s2 :
  Float.sub b_x a_x = S754_finite sa ma ea ->
  Float.sub b_y a_y = S754_zero s1 ->
  Float.sub b_x c_x = S754_finite true mc ec ->
  Float.sub b_y c_y = S754_zero s2 ->
  bounded Float.prec Float.emax ma ea = true ->
  bounded Float.prec Float.emax mc ec = true ->
  2 ^ (-76 + off) <= Zpos ma * 2 ^ (ea + off) <= 2 ^ off ->
  2 ^ (-28 + off) <= Zpos mc * 2 ^ (ec + off) <= 2 ^ (1 + off) ->
  exists s,
    getAngleABC atan2_finite a_x a_y b_x b_y c_x c_y
    = if sa then S754_zero s else copysign s pi_f.
Proof.
  intros Eabx Eaby Ecbx Ecby Ha Hc Hma Hmc.
  destruct (product_sign sa ma ea mc ec Ha Hc Hma Hmc) as (mR & eR & EP).
  unfold getAngleABC. rewrite Eabx, Eaby, Ecbx, Ecby, EP.
  exists (andb (xorb sa s2) (negb (xorb s1 true))).
  destruct sa, s1, s2; reflexivity.
Qed.

(** The same when the centre moved along the y axis only: the dot product is
    a zero and the cross product has the sign of [ab_y]. *)
Lemma getAngleABC_along_y a_x a_y b_x b_y c_x c_y sa ma ea mc ec s1 s2 :
  Float.sub b_x a_x = S754_zero s1 ->
  Float.sub b_y a_y = S754_finite sa ma ea ->
  Float.sub b_x c_x = S754_finite true mc ec ->
  Float.sub b_y c_y = S754_zero s2 ->
  bounded Float.prec Float.emax ma ea = true ->
  bounded Float.prec Float.emax mc ec = true ->
  2 ^ (-76 + off) <= Zpos ma * 2 ^ (ea + off) <= 2 ^ off ->
  2 ^ (-28 + off) <= Zpos mc * 2 ^ (ec + off) <= 2 ^ (1 + off) ->
  getAngleABC atan2_finite a_x a_y b_x b_y c_x c_y = copysign sa pi_2_f.
Proof.
  intros Eabx Eaby Ecbx Ecby Ha Hc Hma Hmc.
  destruct (product_sign sa ma ea mc ec Ha Hc Hma Hmc) as (mR & eR & EP).
  unfold getAngleABC. rewrite Eabx, Eaby, Ecbx, Ecby, EP.
  destruct sa, s1, s2; reflexivity.
Qed.

End Angles.

(** ** The scrolling label of a movement along one axis *)

Section ScrollAxes.

Variable atan2_finite : Float.t -> Float.t -> Float.t.
Variable c : HandMovementRecognitionCalculator.
Variables x_center y_center height : Float.t.

Hypothesis Hremembered : Float.truthy (previous_x_center c) = true.
Hypothesis Npx : normalized (previous_x_center c) = true.
Hypothesis Npy : normalized (previous_y_center c) = true.
Hypothesis Nx : normalized x_center = true.
Hypothesis Ny : normalized y_center = true.
Hypothesis Vh : Float.valid height = true.
Hypothesis Hh : Float.leb Float.zero height = true.
Hypothesis Hmoved :
  Float.gtb
    (get_Euclidean_DistanceAB x_center y_center
       (previous_x_center c) (previous_y_center c))
    (Float.mul (flt 2 100) height) = true.

(** A movement that passes the threshold along one axis is of at least
    [2 ^ -76]. *)
Lemma far_along_x :
  Float.eqb y_center (previous_y_center c) = true ->
  ~ (- 2 ^ (-76 + off) <= sv x_center - sv (previous_x_center c) <= 2 ^ (-76 + off)).
Proof.
  intros Hy H.
  destruct (still_x _ _ _ _ Nx Npx Ny Npy Hy H) as (s & Es).
  rewrite Es, (zero_is_not_above_threshold height s Vh Hh) in Hmoved. discriminate.
Qed.

Lemma far_along_y :
  Float.eqb x_center (previous_x_center c) = true ->
  ~ (- 2 ^ (-76 + off) <= sv y_center - sv (previous_y_center c) <= 2 ^ (-76 + off)).
Proof.
  intros Hx H.
  destruct (still_y _ _ _ _ Nx Npx Ny Npy Hx H) as (s & Es).
  rewrite Es, (zero_is_not_above_threshold height s Vh Hh) in Hmoved. discriminate.
Qed.

Lemma ltb_values u v :
  normalized u = true -> normalized v = true ->
  Float.ltb u v = true -> sv u < sv v.
Proof.
  intros Nu Nv H.
  destruct (normalized_cases u Nu) as (Vu & Fu & _).
  destruct (normalized_cases v Nv) as (Vv & Fv & _).
  apply (SFltb_Zval Float.prec Float.emax u v off prec32 Vu Vv Fu Fv off32). exact H.
Qed.

Lemma scrolling_right :
  Float.eqb y_center (previous_y_center c) = true ->
  Float.ltb (previous_x_center c) x_center = true ->
  scrolling atan2_finite c x_center y_center height = "Scrolling right"%string.
Proof.
  intros Hy Hlt. pose proof (far_along_x Hy) as Hfar.
  pose proof (ltb_values _ _ Npx Nx Hlt) as Hv.
  destruct (displacement (previous_x_center c) x_center Npx Nx ltac:(lia))
    as (_ & (ma & ea & Eab & Ha & Hma)).
  destruct (unchanged y_center (previous_y_center c) Ny Npy Hy) as (_ & (s1 & E1)).
  destruct (sub_self (previous_y_center c) Npy) as (s2 & E2).
  destruct (reference_offset (previous_x_center c) Npx Hremembered)
    as (mc & ec & Ecb & Hc & Hmc).
  destruct (getAngleABC_along_x atan2_finite _ _ _ _ _ _ _ _ _ _ _ _ _
              Eab E1 Ecb E2 Ha Hc Hma Hmc) as (s & Ea).
  unfold scrolling. rewrite Hremembered. unfold flt in Hmoved. rewrite Hmoved, Ea.
  destruct s; vm_compute; reflexivity.
Qed.

Lemma scrolling_left :
  Float.eqb y_center (previous_y_center c) = true ->
  Float.ltb x_center (previous_x_center c) = true ->
  scrolling atan2_finite c x_center y_center height = "Scrolling left"%string.
Proof.
  intros Hy Hlt. pose proof (far_along_x Hy) as Hfar.
  pose proof (ltb_values _ _ Nx Npx Hlt) as Hv.
  destruct (displacement x_center (previous_x_center c) Nx Npx ltac:(lia))
    as ((ma & ea & Eab & Ha & Hma) & _).
  destruct (unchanged y_center (previous_y_center c) Ny Npy Hy) as (_ & (s1 & E1)).
  destruct (sub_self (previous_y_center c) Npy) as (s2 & E2).
  destruct (reference_offset (previous_x_center c) Npx Hremembered)
    as (mc & ec & Ecb & Hc & Hmc).
  destruct (getAngleABC_along_x atan2_finite _ _ _ _ _ _ _ _ _ _ _ _ _
              Eab E1 Ecb E2 Ha Hc Hma Hmc) as (s & Ea).
  unfold scrolling. rewrite Hremembered. unfold flt in Hmoved. rewrite Hmoved, Ea.
  destruct s; vm_compute; reflexivity.
Qed.

Lemma scrolling_down :
  Float.eqb x_center (previous_x_center c) = true ->
  Float.ltb (previous_y_center c) y_center = true ->
  scrolling atan2_finite c x_center y_center height = "Scrolling down"%string.
Proof.
  intros Hx Hlt. pose proof (far_along_y Hx) as Hfar.
  pose proof (ltb_values _ _ Npy Ny Hlt) as Hv.
  destruct (displacement (previous_y_center c) y_center Npy Ny ltac:(lia))
    as (_ & (ma & ea & Eab & Ha & Hma)).
  destruct (unchanged x_center (previous_x_center c) Nx Npx Hx) as (_ & (s1 & E1)).
  destruct (sub_self (previous_y_center c) Npy) as (s2 & E2).
  destruct (reference_offset (previous_x_center c) Npx Hremembered)
    as (mc & ec & Ecb & Hc & Hmc).
  pose proof (getAngleABC_along_y atan2_finite _ _ _ _ _ _ _ _ _ _ _ _ _
                E1 Eab Ecb E2 Ha Hc Hma Hmc) as Ea.
  unfold scrolling. rewrite Hremembered. unfold flt in Hmoved. rewrite Hmoved, Ea.
  vm_compute. reflexivity.
Qed.

Lemma scrolling_up :
  Float.eqb x_center (previous_x_center c) = true ->
  Float.ltb y_center (previous_y_center c) = true ->
  scrolling atan2_finite c x_center y_center height = "Scrolling up"%string.
Proof.
  intros Hx Hlt. pose proof (far_along_y Hx) as Hfar.
  pose proof (ltb_values _ _ Ny Npy Hlt) as Hv.
  destruct (displacement y_center (previous_y_center c) Ny Npy ltac:(lia))
    as ((ma & ea & Eab & Ha & Hma) & _).
  destruct (unchanged x_center (previous_x_center c) Nx Npx Hx) as (_ & (s1 & E1)).
  destruct (sub_self (previous_y_center c) Npy) as (s2 & E2).
  destruct (reference_offset (previous_x_center c) Npx Hremembered)
    as (mc & ec & Ecb & Hc & Hmc).
  pose proof (getAngleABC_along_y atan2_finite _ _ _ _ _ _ _ _ _ _ _ _ _
                E1 Eab Ecb E2 Ha Hc Hma Hmc) as Ea.
  unfold scrolling. rewrite Hremembered. unfold flt in Hmoved. rewrite Hmoved, Ea.
  vm_compute. reflexivity.
Qed.

End ScrollAxes.

(** ** [floor] and the cast to [int] *)

(** [(int)floor(v)] of a double between -180 and 181 is the integer part of
    [v] rounded down. *)
Lemma to_int_floor_spec v :
  valid_binary Double.prec Double.emax v = true -> is_finite v = true ->
  -180 * 2 ^ off <= sv v < 181 * 2 ^ off ->
  Double.to_int (Double.floor v) * 2 ^ off <= sv v
  /\ sv v < (Double.to_int (Double.floor v) + 1) * 2 ^ off.
Proof.
  intros Vv Fv [Hlo Hhi].
  pose proof (pow2_pos off ltac:(discriminate)) as Poff.
  destruct v as [s|s| |s m e]; try discriminate.
  - cbn [Double.floor Double.to_int]. unfold sv. cbn [Zval]. lia.
  - destruct (bounded64 m e Vv) as (He & _).
    pose proof (pow2_pos (e + off) ltac:(unfold off; lia)) as Pe.
    unfold sv in *. cbn [Zval] in *.
    cbn [Double.floor]. destruct (0 <=? e) eqn:E0.
    + apply Z.leb_le in E0. cbn [Double.to_int]. rewrite (proj2 (Z.leb_le 0 e) E0).
      set (i := cond_Zopp s (Zpos m) * 2 ^ e).
      assert (Hi : cond_Zopp s (Zpos m * 2 ^ (e + off)) = i * 2 ^ off).
      { unfold i. rewrite (pow2_split e off) by (unfold off; lia).
        destruct s; cbn [cond_Zopp]; ring. }
      rewrite Hi in *.
      assert (Hr : -180 <= i <= 180) by (clear - Hlo Hhi Poff; nia).
      assert (Hin : (Double.INT_MIN <=? i) && (i <=? Double.INT_MAX) = true).
      { apply andb_true_intro. split; apply Z.leb_le; unfold Double.INT_MIN, Double.INT_MAX; lia. }
      rewrite Hin. clear - Poff. lia.
    + apply Z.leb_gt in E0.
      set (z := Z.shiftr (cond_Zopp s (Zpos m)) (- e)).
      assert (Hz : z = cond_Zopp s (Zpos m) / 2 ^ (- e)).
      { unfold z. apply Z.shiftr_div_pow2. lia. }
      pose proof (pow2_pos (- e) ltac:(lia)) as Pne.
      assert (Hsplit : 2 ^ off = 2 ^ (- e) * 2 ^ (e + off)).
      { rewrite <- (pow2_split (- e) (e + off)) by (unfold off; lia). f_equal. lia. }
      assert (Hm : cond_Zopp s (Zpos m * 2 ^ (e + off))
                   = cond_Zopp s (Zpos m) * 2 ^ (e + off)).
      { destruct s; cbn [cond_Zopp]; ring. }
      rewrite Hm in *.
      assert (Hr : -180 <= z <= 180).
      { rewrite Hsplit in Hlo, Hhi. rewrite Hz. split.
        - apply Z.div_le_lower_bound; [lia|]. clear - Hlo Pe Pne. nia.
        - assert (cond_Zopp s (Zpos m) / 2 ^ (- e) < 181); [|lia].
          apply Z.div_lt_upper_bound; [lia|]. clear - Hhi Pe Pne. nia. }
      change (binary_normalize Double.prec Double.emax z 0 false) with (Double.of_int z).
      rewrite to_int_of_small_int by exact Hr.
      pose proof (Z.mul_div_le (cond_Zopp s (Zpos m)) (2 ^ (- e)) Pne) as D1.
      pose proof (Z.mul_succ_div_gt (cond_Zopp s (Zpos m)) (2 ^ (- e)) Pne) as D2.
      rewrite <- Hz in D1, D2. rewrite Hsplit.
      set (cm := cond_Zopp s (Zpos m)) in *. clearbody cm z.
      set (a := 2 ^ (- e)) in *. set (b := 2 ^ (e + off)) in *. clearbody a b.
      clear - D1 D2 Pe Pne. split.
      * replace (z * (a * b)) with ((a * z) * b) by ring.
        apply Z.mul_le_mono_nonneg_r; lia.
      * replace ((z + 1) * (a * b)) with ((a * Z.succ z) * b) by ring.
        apply Z.mul_lt_mono_pos_r; lia.
Qed.

Lemma degrees_plus_half_bounds (radian : Float.t) :
  Float.valid radian = true ->
  Float.leb (SFopp pi_f) radian = true ->
  Float.leb radian pi_f = true ->
  valid_binary Double.prec Double.emax (degrees_plus_half radian) = true
  /\ is_finite (degrees_plus_half radian) = true
  /\ -180 * 2 ^ off <= sv (degrees_plus_half radian) < 181 * 2 ^ off.
Proof.
  intros Vr Hlo Hhi. unfold Float.valid in Vr.
  destruct radian as [s|s| |s m e].
  - destruct s; vm_compute; repeat split; discriminate.
  - destruct s; discriminate.
  - discriminate.
  - assert (Vpi : valid_binary Float.prec Float.emax pi_f = true) by reflexivity.
    assert (Vmpi : valid_binary Float.prec Float.emax (SFopp pi_f) = true) by reflexivity.
    unfold Float.leb in Hlo, Hhi.
    apply (SFleb_Zval Float.prec Float.emax _ _ off prec32 Vmpi Vr eq_refl eq_refl off32) in Hlo.
    apply (SFleb_Zval Float.prec Float.emax _ _ off prec32 Vr Vpi eq_refl eq_refl off32) in Hhi.
    cbn [Zval pi_f SFopp negb cond_Zopp] in Hlo, Hhi.
    destruct (bounded32 m e Vr) as (He & _).
    pose proof (pow2_pos (e + off) ltac:(unfold off; lia)) as Pe.
    assert (Hmag : Zpos m * 2 ^ (e + off) <= 13176795 * 2 ^ (-22 + off)).
    { destruct s; cbn [cond_Zopp] in Hlo, Hhi; lia. }
    destruct (degrees_bounded s m e Vr Hmag) as (Vu & Fu & Hu1 & Hu2).
    unfold degrees_plus_half.
    set (u := Double.div (Double.mul (Double.of_float (S754_finite s m e))
                            (Double.of_int 180)) Double.M_PI) in *.
    rewrite literal_half.
    assert (Vh : valid_binary Double.prec Double.emax
                   (S754_finite false 4503599627370496 (-53)) = true) by reflexivity.
    destruct deg_check_add as (C1 & C2 & C3 & C4).
    assert (Vhi : valid_binary Double.prec Double.emax deg_hi = true) by reflexivity.
    assert (Vlo : valid_binary Double.prec Double.emax deg_lo = true) by reflexivity.
    unfold sv in *.
    destruct (SFadd_le Double.prec Double.emax prec64 u _ deg_hi off
                Vu Fu Vh eq_refl Vhi eq_refl off64 ltac:(lia)) as [Hinf|(Vv & Fv & Hv)];
    destruct (SFadd_ge Double.prec Double.emax prec64 u _ deg_lo off
                Vu Fu Vh eq_refl Vlo eq_refl off64 ltac:(lia)) as [Hinf'|(Vv' & Fv' & Hv')];
      unfold Double.add, Double.prec, Double.emax in *.
    + congruence.
    + rewrite Hinf in Fv'. discriminate.
    + rewrite Hinf' in Fv. discriminate.
    + split; [exact Vv|]. split; [exact Fv|]. lia.
Qed.

(** ** The three exits of [Process] *)

Section Exits.

Variable atan2_finite : Float.t -> Float.t -> Float.t.
Variables (n : Node) (cc : Inputs).

Let size := NormalizedLandmarkList.landmark_size (NORM_LANDMARKS cc).
Let x_center := NormalizedRect.x_center (NORM_RECT cc).
Let y_center := NormalizedRect.y_center (NORM_RECT cc).
Let height := NormalizedRect.height (NORM_RECT cc).
Let this2 :=
  set_previous_rectangle_height
    (set_previous_center (this n) x_center y_center) height.

Lemma landmark_size_empty :
  NormalizedLandmarkList.landmark (NORM_LANDMARKS cc) = [] <-> (size >? 0) = false.
Proof.
  unfold size, NormalizedLandmarkList.landmark_size.
  destruct (NormalizedLandmarkList.landmark (NORM_LANDMARKS cc)); simpl; split;
    intros H; try reflexivity; discriminate.
Qed.

(** The [RET_CHECK] exit, taken before any field is written. *)
Lemma Process_empty :
  (size >? 0) = false ->
  Process atan2_finite n cc
  = Failed {| this := this n; frameCounter := frameCounter n + 1 |}
      "Input landmark vector is empty.".
Proof.
  intros H. unfold Process. fold size. rewrite H. reflexivity.
Qed.

(** A skipped frame: the slide feature is not run. *)
Lemma Process_skipped :
  (size >? 0) = true ->
  (Z.rem (frameCounter n + 1) 2 =? 0) = false ->
  Process atan2_finite n cc
  = Emitted {| this := this2; frameCounter := frameCounter n + 1 |}
      {| RECOGNIZED_HAND_MOVEMENT_SCROLLING :=
           scrolling atan2_finite (this n) x_center y_center height;
         RECOGNIZED_HAND_MOVEMENT_ZOOMING :=
           zooming (set_previous_center (this n) x_center y_center) height;
         RECOGNIZED_HAND_MOVEMENT_SLIDING := "___" |}.
Proof.
  intros H1 H2. unfold Process. fold size. unfold Increment.
  rewrite H1, H2. reflexivity.
Qed.

(** An evaluated frame with both landmarks in range. *)
Lemma Process_evaluated wrist MCP_of_second_finger :
  (Z.rem (frameCounter n + 1) 2 =? 0) = true ->
  NormalizedLandmarkList.get (NORM_LANDMARKS cc) 0 = Some wrist ->
  NormalizedLandmarkList.get (NORM_LANDMARKS cc) 9 = Some MCP_of_second_finger ->
  let ang := ang_in_degree atan2_finite wrist MCP_of_second_finger in
  Process atan2_finite n cc
  = Emitted {| this := set_previous_angle this2 (Float.of_int ang);
               frameCounter := frameCounter n + 1 |}
      {| RECOGNIZED_HAND_MOVEMENT_SCROLLING :=
           scrolling atan2_finite (this n) x_center y_center height;
         RECOGNIZED_HAND_MOVEMENT_ZOOMING :=
           zooming (set_previous_center (this n) x_center y_center) height;
         RECOGNIZED_HAND_MOVEMENT_SLIDING := sliding this2 ang |}.
Proof.
  intros H2 Hw Hm ang. unfold Process. fold size. unfold Increment.
  assert (H1 : (size >? 0) = true).
  { destruct (size >? 0) eqn:E; [reflexivity|].
    apply landmark_size_empty in E.
    unfold NormalizedLandmarkList.get in Hw. rewrite E in Hw. discriminate. }
  rewrite H1, H2, Hw, Hm. reflexivity.
Qed.

(** An evaluated frame whose list stops before index 9. *)
Lemma Process_past_the_end :
  (size >? 0) = true ->
  (Z.rem (frameCounter n + 1) 2 =? 0) = true ->
  (size >=? 10) = false ->
  Process atan2_finite n cc = OutOfRange 9.
Proof.
  intros H1 H2 H3. unfold Process. fold size. unfold Increment.
  rewrite H1, H2. cbn [negb]. unfold NormalizedLandmarkList.get.
  assert (E9 : nth_error (NormalizedLandmarkList.landmark (NORM_LANDMARKS cc)) 9 = None).
  { apply nth_error_None.
    unfold size, NormalizedLandmarkList.landmark_size in H3.
    rewrite Z.geb_leb in H3. apply Z.leb_gt in H3. lia. }
  rewrite E9.
  destruct (nth_error (NormalizedLandmarkList.landmark (NORM_LANDMARKS cc)) 0) eqn:E0;
    [reflexivity|].
  apply nth_error_None in E0.
  unfold size, NormalizedLandmarkList.landmark_size in H1.
  apply Z.gtb_lt in H1. lia.
Qed.

(** [Process] reaches its end exactly when [enough_landmarks] holds. *)
Lemma Process_emits :
  enough_landmarks n cc = true <->
  exists n' out, Process atan2_finite n cc = Emitted n' out.
Proof.
  unfold enough_landmarks. fold size. unfold Increment.
  destruct (size >? 0) eqn:H1.
  - destruct (Z.rem (frameCounter n + 1) 2 =? 0) eqn:H2; simpl.
    + destruct (size >=? 10) eqn:H3.
      * split; [intros _|reflexivity].
        assert (Hlen : (9 < List.length (NormalizedLandmarkList.landmark (NORM_LANDMARKS cc)))%nat).
        { unfold size, NormalizedLandmarkList.landmark_size in H3.
          rewrite Z.geb_leb in H3. apply Z.leb_le in H3. lia. }
        destruct (nth_error (NormalizedLandmarkList.landmark (NORM_LANDMARKS cc)) 0) as [w|] eqn:E0.
        2:{ apply nth_error_None in E0. lia. }
        destruct (nth_error (NormalizedLandmarkList.landmark (NORM_LANDMARKS cc)) 9) as [m|] eqn:E9.
        2:{ apply nth_error_None in E9. lia. }
        eexists. eexists. apply (Process_evaluated w m H2 E0 E9).
      * rewrite (Process_past_the_end H1 H2 H3).
        split; [discriminate|]. intros (n' & out & H). discriminate.
    + split; [intros _|reflexivity].
      eexists. eexists. apply (Process_skipped H1 H2).
  - simpl. rewrite (Process_empty H1).
    split; [discriminate|]. intros (n' & out & H). discriminate.
Qed.

End Exits.

(** ** Input validation *)

(** C8.  A call with an empty landmark list fails on the [RET_CHECK]
    ("Input landmark vector is empty."), and the calculator fields
    (previous centre, previous height, slide angle) are what they were before
    the call; only the frame counter has advanced. *)
Theorem empty_landmarks_fail_without_touching_fields
    (atan2_finite : Float.t -> Float.t -> Float.t) (n : Node) (cc : Inputs) :
  NormalizedLandmarkList.landmark (NORM_LANDMARKS cc) = [] ->
  Process atan2_finite n cc
  = Failed {| this := this n; frameCounter := frameCounter n + 1 |}
      "Input landmark vector is empty.".
Proof.
  intros H. apply Process_empty. apply landmark_size_empty. exact H.
Qed.

Lemma empty_landmarks_fail_without_touching_fields_witness :
  NormalizedLandmarkList.landmark
    (NORM_LANDMARKS (frame (flt 1 2) (flt 1 2) (flt 3 10) no_hand)) = []
  /\ Process atan2_unspecified (node (flt 1 2) (flt 1 2) (flt 3 10) 90 1)
       (frame (flt 1 2) (flt 1 2) (flt 3 10) no_hand)
     = Failed {| this := this (node (flt 1 2) (flt 1 2) (flt 3 10) 90 1);
                 frameCounter := 2 |}
         "Input landmark vector is empty.".
Proof.
  split; [reflexivity|].
  apply (empty_landmarks_fail_without_touching_fields atan2_unspecified
           (node (flt 1 2) (flt 1 2) (flt 3 10) 90 1)
           (frame (flt 1 2) (flt 1 2) (flt 3 10) no_hand)).
  reflexivity.
Defined.

(** C3, as stated, fails: a rectangle of height -0.3 is processed like any
    other.  The node remembers a rectangle at (0.5, 0.5) of height 0.3; the
    frame moves it to (0.56, 0.5) with height -0.3; the call returns OK with
    a scrolling and a zooming label. *)
Lemma negative_height_is_processed :
  Float.leb (NormalizedRect.height
               (NORM_RECT (frame (flt 56 100) (flt 1 2) (flt (-3) 10) upright_hand)))
    Float.zero = true
  /\ Process atan2_unspecified (node (flt 1 2) (flt 1 2) (flt 3 10) 0 0)
       (frame (flt 56 100) (flt 1 2) (flt (-3) 10) upright_hand)
     = Emitted (node (flt 56 100) (flt 1 2) (flt (-3) 10) 0 1)
         {| RECOGNIZED_HAND_MOVEMENT_SCROLLING := "Scrolling right";
            RECOGNIZED_HAND_MOVEMENT_ZOOMING := "Zoom out";
            RECOGNIZED_HAND_MOVEMENT_SLIDING := "___" |}.
Proof. split; vm_compute; reflexivity. Qed.

(** C3, amended.  The rectangle is never validated: whatever the rectangle
    (its height included), a call fails if and only if the landmark list is
    empty. *)
Theorem fails_only_on_empty_landmarks
    (atan2_finite : Float.t -> Float.t -> Float.t) (n : Node)
    (r : NormalizedRect.t) (l : NormalizedLandmarkList.t) :
  (exists n' message,
      Process atan2_finite n {| NORM_RECT := r; NORM_LANDMARKS := l |}
      = Failed n' message)
  <-> NormalizedLandmarkList.landmark l = [].
Proof.
  set (cc := {| NORM_RECT := r; NORM_LANDMARKS := l |}).
  change l with (NORM_LANDMARKS cc). split.
  - intros (n' & message & H).
    destruct (NormalizedLandmarkList.landmark_size (NORM_LANDMARKS cc) >? 0) eqn:H1.
    + exfalso.
      destruct (Z.rem (frameCounter n + 1) 2 =? 0) eqn:H2.
      * destruct (NormalizedLandmarkList.landmark_size (NORM_LANDMARKS cc) >=? 10) eqn:H3.
        -- assert (He : enough_landmarks n cc = true).
           { unfold enough_landmarks, Increment. rewrite H1, H2, H3. reflexivity. }
           apply (Process_emits atan2_finite) in He.
           destruct He as (n1 & o1 & He). rewrite He in H. discriminate.
        -- rewrite (Process_past_the_end atan2_finite n cc H1 H2 H3) in H.
           discriminate.
      * rewrite (Process_skipped atan2_finite n cc H1 H2) in H. discriminate.
    + apply landmark_size_empty. exact H1.
  - intros H. apply landmark_size_empty in H.
    eexists. eexists. apply (Process_empty atan2_finite n cc H).
Qed.

(** C2.  On an evaluated frame (even counter value) whose list has three
    landmarks, the call neither fails with an error status nor emits the
    scrolling and zooming labels: [landmark(9)] is read past the end of the
    list. *)
Theorem short_list_is_read_past_the_end :
  NormalizedLandmarkList.landmark_size short_hand = 3
  /\ Z.rem (Increment (frameCounter (node (flt 1 2) (flt 1 2) (flt 3 10) 90 1))) 2 = 0
  /\ Process atan2_unspecified (node (flt 1 2) (flt 1 2) (flt 3 10) 90 1)
       (frame (flt 56 100) (flt 1 2) (flt 3 10) short_hand)
     = OutOfRange 9.
Proof. repeat split; vm_compute; reflexivity. Qed.

(** ** The first frame *)

(** C4, as stated, fails: the first call on a fresh node sees the counter
    value 1, the slide feature is skipped, and the stored angle stays 0
    although the hand of the frame is at 90 degrees. *)
Lemma first_frame_does_not_seed_the_angle :
  exists n out,
    Process atan2_unspecified fresh
      (frame (flt 1 2) (flt 1 2) (flt 3 10) upright_hand) = Emitted n out
    /\ ang_in_degree atan2_unspecified
         (point (flt 1 2) (flt 1 2)) (point (flt 1 2) (flt 1 4)) = 90
    /\ previous_angle (this n) = Float.of_int 0
    /\ previous_angle (this n) <> Float.of_int 90.
Proof.
  eexists. eexists. split; [vm_compute; reflexivity|].
  split; [vm_compute; reflexivity|].
  split; [reflexivity|]. vm_compute. discriminate.
Qed.

(** C4, amended.  On the first frame processed by a fresh node, whose list
    of landmarks is not empty, the three labels are "___", the previous
    centre and the previous height are set from the frame, and the stored
    slide angle is left as it was: the counter value of the call is 1. *)
Theorem first_frame
    (atan2_finite : Float.t -> Float.t -> Float.t) (cc : Inputs) :
  NormalizedLandmarkList.landmark (NORM_LANDMARKS cc) <> [] ->
  Process atan2_finite fresh cc
  = Emitted
      {| this :=
           {| previous_x_center := NormalizedRect.x_center (NORM_RECT cc);
              previous_y_center := NormalizedRect.y_center (NORM_RECT cc);
              previous_angle := previous_angle (this fresh);
              previous_rectangle_width := previous_rectangle_width (this fresh);
              previous_rectangle_height := NormalizedRect.height (NORM_RECT cc) |};
         frameCounter := 1 |}
      {| RECOGNIZED_HAND_MOVEMENT_SCROLLING := "___";
         RECOGNIZED_HAND_MOVEMENT_ZOOMING := "___";
         RECOGNIZED_HAND_MOVEMENT_SLIDING := "___" |}.
Proof.
  intros H.
  assert (H1 : (NormalizedLandmarkList.landmark_size (NORM_LANDMARKS cc) >? 0) = true).
  { destruct (NormalizedLandmarkList.landmark_size (NORM_LANDMARKS cc) >? 0) eqn:E;
      [reflexivity|].
    apply landmark_size_empty in E. contradiction. }
  rewrite (Process_skipped atan2_finite fresh cc H1 eq_refl). reflexivity.
Qed.

Lemma first_frame_witness :
  NormalizedLandmarkList.landmark
    (NORM_LANDMARKS (frame (flt 1 2) (flt 1 2) (flt 3 10) upright_hand)) <> []
  /\ Process atan2_unspecified fresh
       (frame (flt 1 2) (flt 1 2) (flt 3 10) upright_hand)
     = Emitted (node (flt 1 2) (flt 1 2) (flt 3 10) 0 1)
         {| RECOGNIZED_HAND_MOVEMENT_SCROLLING := "___";
            RECOGNIZED_HAND_MOVEMENT_ZOOMING := "___";
            RECOGNIZED_HAND_MOVEMENT_SLIDING := "___" |}.
Proof.
  split; [discriminate|].
  apply (first_frame atan2_unspecified
           (frame (flt 1 2) (flt 1 2) (flt 3 10) upright_hand)).
  discriminate.
Defined.

(** ** What a call does to the node *)

Lemma emitted_cases
    (atan2_finite : Float.t -> Float.t -> Float.t) (n : Node) (cc : Inputs)
    (n' : Node) (out : Outputs) :
  Process atan2_finite n cc = Emitted n' out ->
  let x_center := NormalizedRect.x_center (NORM_RECT cc) in
  let y_center := NormalizedRect.y_center (NORM_RECT cc) in
  let height := NormalizedRect.height (NORM_RECT cc) in
  let this1 := set_previous_center (this n) x_center y_center in
  let this2 := set_previous_rectangle_height this1 height in
  frameCounter n' = frameCounter n + 1
  /\ RECOGNIZED_HAND_MOVEMENT_SCROLLING out
     = scrolling atan2_finite (this n) x_center y_center height
  /\ RECOGNIZED_HAND_MOVEMENT_ZOOMING out = zooming this1 height
  /\ ((Z.rem (frameCounter n') 2 =? 0) = false
      /\ this n' = this2
      /\ RECOGNIZED_HAND_MOVEMENT_SLIDING out = "___"%string
      \/ (Z.rem (frameCounter n') 2 =? 0) = true
         /\ exists wrist MCP_of_second_finger,
             NormalizedLandmarkList.get (NORM_LANDMARKS cc) 0 = Some wrist
             /\ NormalizedLandmarkList.get (NORM_LANDMARKS cc) 9
                = Some MCP_of_second_finger
             /\ this n'
                = set_previous_angle this2
                    (Float.of_int
                       (ang_in_degree atan2_finite wrist MCP_of_second_finger))
             /\ RECOGNIZED_HAND_MOVEMENT_SLIDING out
                = sliding this2
                    (ang_in_degree atan2_finite wrist MCP_of_second_finger)).
Proof.
  intros H. cbv zeta. unfold Process, Increment in H.
  destruct (negb _) in H; [discriminate|].
  destruct (Z.eqb (Z.rem (frameCounter n + 1) 2) 0) eqn:Hc.
  - destruct (NormalizedLandmarkList.get (NORM_LANDMARKS cc) 0) as [w|] eqn:E0;
      [|discriminate].
    destruct (NormalizedLandmarkList.get (NORM_LANDMARKS cc) 9) as [m|] eqn:E9;
      [|discriminate].
    injection H as <- <-. cbn [frameCounter this RECOGNIZED_HAND_MOVEMENT_SCROLLING
      RECOGNIZED_HAND_MOVEMENT_ZOOMING RECOGNIZED_HAND_MOVEMENT_SLIDING].
    repeat split. right. split; [exact Hc|].
    exists w, m. repeat split.
  - injection H as <- <-. cbn [frameCounter this RECOGNIZED_HAND_MOVEMENT_SCROLLING
      RECOGNIZED_HAND_MOVEMENT_ZOOMING RECOGNIZED_HAND_MOVEMENT_SLIDING].
    repeat split. left. repeat split. exact Hc.
Qed.

(** C6, as stated, fails on a call that the [RET_CHECK] refuses.  The node
    remembers the centre (0.5, 0.5) and the height 0.3; the frame is centred
    at (0.56, 0.25) with height 0.25 and has no landmark.  The call returns
    an error status and the node still remembers (0.5, 0.5) and 0.3: only the
    counter has moved. *)
Lemma refused_call_keeps_the_previous_centre :
  Process atan2_unspecified (node (flt 1 2) (flt 1 2) (flt 3 10) 45 2)
    (frame (flt 56 100) (flt 1 4) (flt 1 4) no_hand)
  = Failed (node (flt 1 2) (flt 1 2) (flt 3 10) 45 3)
      "Input landmark vector is empty."
  /\ Float.eqb
       (previous_x_center (this (node (flt 1 2) (flt 1 2) (flt 3 10) 45 3)))
       (NormalizedRect.x_center
          (NORM_RECT (frame (flt 56 100) (flt 1 4) (flt 1 4) no_hand))) = false
  /\ Float.eqb
       (previous_y_center (this (node (flt 1 2) (flt 1 2) (flt 3 10) 45 3)))
       (NormalizedRect.y_center
          (NORM_RECT (frame (flt 56 100) (flt 1 4) (flt 1 4) no_hand))) = false
  /\ Float.eqb
       (previous_rectangle_height
          (this (node (flt 1 2) (flt 1 2) (flt 3 10) 45 3)))
       (NormalizedRect.height
          (NORM_RECT (frame (flt 56 100) (flt 1 4) (flt 1 4) no_hand))) = false.
Proof. repeat split; vm_compute; reflexivity. Qed.

(** C6, amended.  Whenever a call returns a status, the frame counter has
    advanced by exactly one, and when the counter value seen by the call is
    odd the stored slide angle is unchanged.  A call whose landmark list is
    not empty and has the landmarks the call reads (an odd counter value, or
    at least 10 landmarks) emits its labels and stores the centre and the
    height of the frame, on an odd and on an even counter value alike; on an
    even one it also stores the angle of the hand.  A call whose landmark
    list is empty returns an error status and changes no field. *)
Theorem frame_effect
    (atan2_finite : Float.t -> Float.t -> Float.t) (n : Node) (cc : Inputs) :
  (forall n', node_after (Process atan2_finite n cc) = Some n' ->
     frameCounter n' = frameCounter n + 1
     /\ ((Z.rem (frameCounter n') 2 =? 0) = false ->
         previous_angle (this n') = previous_angle (this n)))
  /\ (enough_landmarks n cc = true ->
      exists n' out,
        Process atan2_finite n cc = Emitted n' out
        /\ previous_x_center (this n') = NormalizedRect.x_center (NORM_RECT cc)
        /\ previous_y_center (this n') = NormalizedRect.y_center (NORM_RECT cc)
        /\ previous_rectangle_height (this n')
           = NormalizedRect.height (NORM_RECT cc)
        /\ ((Z.rem (frameCounter n') 2 =? 0) = true ->
            exists z, hand_angle atan2_finite cc = Some z
                      /\ previous_angle (this n') = Float.of_int z))
  /\ (NormalizedLandmarkList.landmark (NORM_LANDMARKS cc) = [] ->
      exists message,
        Process atan2_finite n cc
        = Failed {| this := this n; frameCounter := frameCounter n + 1 |}
            message).
Proof.
  split; [|split].
  - intros n' H.
    destruct (Process atan2_finite n cc) as [n1 o1|n1 m1|i] eqn:E;
      cbn [node_after] in H; [| |discriminate]; injection H as ->.
    + destruct (emitted_cases _ _ _ _ _ E) as (Hc & _ & _ & Hs).
      split; [exact Hc|].
      intros Hodd. destruct Hs as [(_ & Ht & _)|(Heven & _)].
      * rewrite Ht. reflexivity.
      * rewrite Heven in Hodd. discriminate.
    + unfold Process in E. destruct (negb _) in E.
      * injection E as <- _. cbn [frameCounter this]. unfold Increment.
        split; [reflexivity|]. intros _. reflexivity.
      * destruct (Z.eqb _ 0) in E; [|discriminate].
        destruct (NormalizedLandmarkList.get _ 0) in E; [|discriminate].
        destruct (NormalizedLandmarkList.get _ 9) in E; discriminate.
  - intros Hen.
    destruct (proj1 (Process_emits atan2_finite n cc) Hen) as (n' & out & E).
    exists n', out. split; [exact E|].
    destruct (emitted_cases _ _ _ _ _ E) as (_ & _ & _ & Hs).
    destruct Hs as [(Hodd & Ht & _)|(_ & w & m & E0 & E9 & Ht & _)];
      rewrite Ht; repeat split.
    + intros Hev. rewrite Hodd in Hev. discriminate.
    + intros _. exists (ang_in_degree atan2_finite w m). split; [|reflexivity].
      unfold hand_angle. rewrite E0, E9. reflexivity.
  - intros Hnil. exists "Input landmark vector is empty."%string.
    apply Process_empty. apply landmark_size_empty. exact Hnil.
Qed.

(** An even counter value (2) and a hand of ten landmarks at 90 degrees: the
    centre, the height and the angle of the frame are stored. *)
Lemma frame_effect_witness :
  enough_landmarks (node (flt 1 2) (flt 1 2) (flt 3 10) 45 1)
    (frame (flt 56 100) (flt 1 4) (flt 1 4) upright_hand) = true
  /\ exists n' out,
       Process atan2_unspecified (node (flt 1 2) (flt 1 2) (flt 3 10) 45 1)
         (frame (flt 56 100) (flt 1 4) (flt 1 4) upright_hand)
       = Emitted n' out
       /\ previous_x_center (this n') = flt 56 100
       /\ previous_y_center (this n') = flt 1 4
       /\ previous_rectangle_height (this n') = flt 1 4
       /\ ((Z.rem (frameCounter n') 2 =? 0) = true ->
           exists z,
             hand_angle atan2_unspecified
               (frame (flt 56 100) (flt 1 4) (flt 1 4) upright_hand) = Some z
             /\ previous_angle (this n') = Float.of_int z).
Proof.
  assert (Hen : enough_landmarks (node (flt 1 2) (flt 1 2) (flt 3 10) 45 1)
                  (frame (flt 56 100) (flt 1 4) (flt 1 4) upright_hand) = true).
  { vm_compute. reflexivity. }
  split; [exact Hen|].
  exact (proj1 (proj2 (frame_effect atan2_unspecified _ _)) Hen).
Defined.

(** ** Sliding *)

(** C5.  When the stored slide angle is outside [80, 100], the sliding label
    of the call is neither "Slide left" nor "Slide right", whatever the angle
    of the hand in the frame. *)
Theorem slide_gate
    (atan2_finite : Float.t -> Float.t -> Float.t) (n : Node) (cc : Inputs)
    (n' : Node) (out : Outputs) :
  Float.geb (previous_angle (this n)) (Float.of_int 80)
  && Float.leb (previous_angle (this n)) (Float.of_int 100) = false ->
  Process atan2_finite n cc = Emitted n' out ->
  RECOGNIZED_HAND_MOVEMENT_SLIDING out <> "Slide left"%string
  /\ RECOGNIZED_HAND_MOVEMENT_SLIDING out <> "Slide right"%string.
Proof.
  intros Hgate H.
  destruct (emitted_cases _ _ _ _ _ H) as (_ & _ & _ & Hs).
  assert (Hnone : RECOGNIZED_HAND_MOVEMENT_SLIDING out = "___"%string).
  { destruct Hs as [(_ & _ & Hs)|(_ & w & m & _ & _ & _ & Hs)]; [exact Hs|].
    rewrite Hs. unfold sliding. cbn [previous_angle set_previous_rectangle_height
      set_previous_center].
    rewrite Hgate. destruct (Float.truthy _); reflexivity. }
  rewrite Hnone. split; discriminate.
Qed.

(** The stored angle is 45 degrees and the hand of the frame is at 90: a
    change of 45 degrees on an evaluated frame, and no slide label. *)
Lemma slide_gate_witness :
  Float.geb (previous_angle (this (node (flt 1 2) (flt 1 2) (flt 3 10) 45 1)))
    (Float.of_int 80)
  && Float.leb (previous_angle (this (node (flt 1 2) (flt 1 2) (flt 3 10) 45 1)))
       (Float.of_int 100) = false
  /\ Process atan2_unspecified (node (flt 1 2) (flt 1 2) (flt 3 10) 45 1)
       (frame (flt 1 2) (flt 1 2) (flt 3 10) upright_hand)
     = Emitted (node (flt 1 2) (flt 1 2) (flt 3 10) 90 2)
         {| RECOGNIZED_HAND_MOVEMENT_SCROLLING := "___";
            RECOGNIZED_HAND_MOVEMENT_ZOOMING := "___";
            RECOGNIZED_HAND_MOVEMENT_SLIDING := "___" |}
  /\ "___"%string <> "Slide left"%string
  /\ "___"%string <> "Slide right"%string.
Proof.
  assert (Hg : Float.geb (previous_angle (this (node (flt 1 2) (flt 1 2) (flt 3 10) 45 1)))
                 (Float.of_int 80)
               && Float.leb (previous_angle (this (node (flt 1 2) (flt 1 2) (flt 3 10) 45 1)))
                    (Float.of_int 100) = false).
  { vm_compute. reflexivity. }
  assert (Hp : Process atan2_unspecified (node (flt 1 2) (flt 1 2) (flt 3 10) 45 1)
                 (frame (flt 1 2) (flt 1 2) (flt 3 10) upright_hand)
               = Emitted (node (flt 1 2) (flt 1 2) (flt 3 10) 90 2)
                   {| RECOGNIZED_HAND_MOVEMENT_SCROLLING := "___";
                      RECOGNIZED_HAND_MOVEMENT_ZOOMING := "___";
                      RECOGNIZED_HAND_MOVEMENT_SLIDING := "___" |}).
  { vm_compute. reflexivity. }
  split; [exact Hg|]. split; [exact Hp|].
  exact (slide_gate atan2_unspecified _ _ _ _ Hg Hp).
Defined.

(** ** Zero read as "nothing remembered" *)



(** ** Scrolling *)

(** C1, as stated, fails for a movement along +y.  The previous centre is
    (0.5, 0.5) and the frame is centred at (0.5, 0.56), with height 0.3: the
    centre moved by 0.06, above 0.02 * 0.3, along +y only, and the label is
    "Scrolling down", not "Scrolling up".  The y axis of the image points
    downwards. *)
Lemma movement_along_plus_y_scrolls_down :
  Float.truthy
    (previous_x_center (this (node (flt 1 2) (flt 1 2) (flt 3 10) 0 0))) = true
  /\ Float.gtb
       (get_Euclidean_DistanceAB (flt 1 2) (flt 56 100) (flt 1 2) (flt 1 2))
       (Float.mul (flt 2 100) (flt 3 10)) = true
  /\ Float.eqb (flt 1 2) (flt 1 2) = true
  /\ Float.ltb (flt 1 2) (flt 56 100) = true
  /\ Process atan2_unspecified (node (flt 1 2) (flt 1 2) (flt 3 10) 0 0)
       (frame (flt 1 2) (flt 56 100) (flt 3 10) upright_hand)
     = Emitted (node (flt 1 2) (flt 56 100) (flt 3 10) 0 1)
         {| RECOGNIZED_HAND_MOVEMENT_SCROLLING := "Scrolling down";
            RECOGNIZED_HAND_MOVEMENT_ZOOMING := "___";
            RECOGNIZED_HAND_MOVEMENT_SLIDING := "___" |}.
Proof. repeat split; vm_compute; reflexivity. Qed.

(** C1, amended.  Take a call that emits labels, with a previous centre
    remembered, the previous and the new centre normalised to [0, 1], a valid
    height that is not negative, and a distance between the two centres above
    0.02 * height.  If only x changed, the label is "Scrolling right" when x
    grew and "Scrolling left" when it shrank; if only y changed, the label is
    "Scrolling down" when y grew and "Scrolling up" when it shrank.  This
    holds for every C library: [atan2] is called on an axis. *)
Theorem scroll_axes
    (atan2_finite : Float.t -> Float.t -> Float.t) (n : Node) (cc : Inputs)
    (n' : Node) (out : Outputs) :
  let px := previous_x_center (this n) in
  let py := previous_y_center (this n) in
  let x_center := NormalizedRect.x_center (NORM_RECT cc) in
  let y_center := NormalizedRect.y_center (NORM_RECT cc) in
  let height := NormalizedRect.height (NORM_RECT cc) in
  Process atan2_finite n cc = Emitted n' out ->
  Float.truthy px = true ->
  normalized px = true -> normalized py = true ->
  normalized x_center = true -> normalized y_center = true ->
  Float.valid height = true -> Float.leb Float.zero height = true ->
  Float.gtb (get_Euclidean_DistanceAB x_center y_center px py)
    (Float.mul (flt 2 100) height) = true ->
  (Float.eqb y_center py = true -> Float.ltb px x_center = true ->
   RECOGNIZED_HAND_MOVEMENT_SCROLLING out = "Scrolling right"%string)
  /\ (Float.eqb y_center py = true -> Float.ltb x_center px = true ->
      RECOGNIZED_HAND_MOVEMENT_SCROLLING out = "Scrolling left"%string)
  /\ (Float.eqb x_center px = true -> Float.ltb py y_center = true ->
      RECOGNIZED_HAND_MOVEMENT_SCROLLING out = "Scrolling down"%string)
  /\ (Float.eqb x_center px = true -> Float.ltb y_center py = true ->
      RECOGNIZED_HAND_MOVEMENT_SCROLLING out = "Scrolling up"%string).
Proof.
  intros px py x_center y_center height H Hrem Npx Npy Nx Ny Vh Hh Hmoved.
  destruct (emitted_cases _ _ _ _ _ H) as (_ & Hscroll & _).
  rewrite Hscroll. fold x_center y_center height.
  repeat split; intros Hsame Hlt.
  - exact (scrolling_right atan2_finite (this n) x_center y_center height
             Hrem Npx Npy Nx Ny Vh Hh Hmoved Hsame Hlt).
  - exact (scrolling_left atan2_finite (this n) x_center y_center height
             Hrem Npx Npy Nx Ny Vh Hh Hmoved Hsame Hlt).
  - exact (scrolling_down atan2_finite (this n) x_center y_center height
             Hrem Npx Npy Nx Ny Vh Hh Hmoved Hsame Hlt).
  - exact (scrolling_up atan2_finite (this n) x_center y_center height
             Hrem Npx Npy Nx Ny Vh Hh Hmoved Hsame Hlt).
Qed.

(** The previous centre is (0.5, 0.5) and the frame is centred at
    (0.56, 0.5), with height 0.3: a movement along +x. *)
Lemma scroll_axes_witness :
  Process atan2_unspecified (node (flt 1 2) (flt 1 2) (flt 3 10) 0 0)
    (frame (flt 56 100) (flt 1 2) (flt 3 10) upright_hand)
  = Emitted (node (flt 56 100) (flt 1 2) (flt 3 10) 0 1)
      {| RECOGNIZED_HAND_MOVEMENT_SCROLLING := "Scrolling right";
         RECOGNIZED_HAND_MOVEMENT_ZOOMING := "___";
         RECOGNIZED_HAND_MOVEMENT_SLIDING := "___" |}
  /\ Float.gtb
       (get_Euclidean_DistanceAB (flt 56 100) (flt 1 2) (flt 1 2) (flt 1 2))
       (Float.mul (flt 2 100) (flt 3 10)) = true
  /\ RECOGNIZED_HAND_MOVEMENT_SCROLLING
       {| RECOGNIZED_HAND_MOVEMENT_SCROLLING := "Scrolling right";
          RECOGNIZED_HAND_MOVEMENT_ZOOMING := "___";
          RECOGNIZED_HAND_MOVEMENT_SLIDING := "___" |}
     = "Scrolling right"%string.
Proof.
  assert (Hp : Process atan2_unspecified (node (flt 1 2) (flt 1 2) (flt 3 10) 0 0)
                 (frame (flt 56 100) (flt 1 2) (flt 3 10) upright_hand)
               = Emitted (node (flt 56 100) (flt 1 2) (flt 3 10) 0 1)
                   {| RECOGNIZED_HAND_MOVEMENT_SCROLLING := "Scrolling right";
                      RECOGNIZED_HAND_MOVEMENT_ZOOMING := "___";
                      RECOGNIZED_HAND_MOVEMENT_SLIDING := "___" |}).
  { vm_compute. reflexivity. }
  assert (Hm : Float.gtb
                 (get_Euclidean_DistanceAB (flt 56 100) (flt 1 2) (flt 1 2) (flt 1 2))
                 (Float.mul (flt 2 100) (flt 3 10)) = true).
  { vm_compute. reflexivity. }
  split; [exact Hp|]. split; [exact Hm|].
  refine (proj1 (scroll_axes atan2_unspecified _ _ _ _ Hp _ _ _ _ _ _ _ Hm) _ _);
    vm_compute; reflexivity.
Defined.

(** ** Zooming *)

(** C7, as stated, fails for a negative height, which the code accepts.
    With a previous height of -1 and a height of -1 both tests succeed: the
    height is above the previous height plus 0.03 times the height (-1.03),
    and the label is that of the first test, "Zoom out", not "Zoom in". *)
Lemma zoom_tests_overlap_below_zero :
  Float.truthy (previous_rectangle_height
                  (this (node (flt 1 2) (flt 1 2) (flt (-1) 1) 0 0))) = true
  /\ Float.gtb (flt (-1) 1)
       (Float.add (flt (-1) 1) (Float.mul (flt (-1) 1) (flt 3 100))) = true
  /\ Process atan2_unspecified (node (flt 1 2) (flt 1 2) (flt (-1) 1) 0 0)
       (frame (flt 1 2) (flt 1 2) (flt (-1) 1) upright_hand)
     = Emitted (node (flt 1 2) (flt 1 2) (flt (-1) 1) 0 1)
         {| RECOGNIZED_HAND_MOVEMENT_SCROLLING := "Scrolling right";
            RECOGNIZED_HAND_MOVEMENT_ZOOMING := "Zoom out";
            RECOGNIZED_HAND_MOVEMENT_SLIDING := "___" |}.
Proof. repeat split; vm_compute; reflexivity. Qed.

(** C7, amended.  Take a call that emits labels, with a previous height
    remembered, whatever the height of the frame.  If
    height < previous - 0.03 * height the zooming label is "Zoom out";
    otherwise, if height > previous + 0.03 * height, it is "Zoom in";
    otherwise it is "___".  When the height and the previous height are valid
    floats and the height is not negative the two tests exclude each other,
    and height > previous + 0.03 * height alone gives "Zoom in". *)
Theorem zoom_label
    (atan2_finite : Float.t -> Float.t -> Float.t) (n : Node) (cc : Inputs)
    (n' : Node) (out : Outputs) :
  let height := NormalizedRect.height (NORM_RECT cc) in
  let previous := previous_rectangle_height (this n) in
  let threshold := Float.mul height (flt 3 100) in
  Float.truthy previous = true ->
  Process atan2_finite n cc = Emitted n' out ->
  (Float.ltb height (Float.sub previous threshold) = true ->
   RECOGNIZED_HAND_MOVEMENT_ZOOMING out = "Zoom out"%string)
  /\ (Float.ltb height (Float.sub previous threshold) = false ->
      Float.gtb height (Float.add previous threshold) = true ->
      RECOGNIZED_HAND_MOVEMENT_ZOOMING out = "Zoom in"%string)
  /\ (Float.ltb height (Float.sub previous threshold) = false ->
      Float.gtb height (Float.add previous threshold) = false ->
      RECOGNIZED_HAND_MOVEMENT_ZOOMING out = "___"%string)
  /\ (Float.valid height = true -> Float.valid previous = true ->
      Float.leb Float.zero height = true ->
      Float.gtb height (Float.add previous threshold) = true ->
      RECOGNIZED_HAND_MOVEMENT_ZOOMING out = "Zoom in"%string).
Proof.
  intros height previous threshold Hinit H.
  destruct (emitted_cases _ _ _ _ _ H) as (_ & _ & Hzoom & _).
  rewrite Hzoom. unfold zooming.
  cbn [previous_rectangle_height set_previous_center].
  fold height previous. fold (flt 3 100). fold threshold.
  rewrite Hinit.
  split; [intros H1; rewrite H1; reflexivity|].
  split; [intros H1 H2; rewrite H1, H2; reflexivity|].
  split; [intros H1 H2; rewrite H1, H2; reflexivity|].
  intros Vh Vp Hh H2.
  pose proof (zoom_tests_exclusive height previous Vh Vp Hh) as Hex.
  cbv zeta in Hex. fold threshold in Hex.
  destruct (Float.ltb height (Float.sub previous threshold)) eqn:H1.
  - rewrite (Hex eq_refl) in H2. discriminate.
  - rewrite H2. reflexivity.
Qed.

(** The remembered height is -0.3 and the frame has height -0.2: the first
    test fails, the second one succeeds, and the label is "Zoom in". *)
Lemma zoom_label_witness :
  Float.truthy
    (previous_rectangle_height
       (this (node (flt 1 2) (flt 1 2) (flt (-3) 10) 0 0))) = true
  /\ Process atan2_unspecified (node (flt 1 2) (flt 1 2) (flt (-3) 10) 0 0)
       (frame (flt 1 2) (flt 1 2) (flt (-2) 10) upright_hand)
     = Emitted (node (flt 1 2) (flt 1 2) (flt (-2) 10) 0 1)
         {| RECOGNIZED_HAND_MOVEMENT_SCROLLING := "Scrolling right";
            RECOGNIZED_HAND_MOVEMENT_ZOOMING := "Zoom in";
            RECOGNIZED_HAND_MOVEMENT_SLIDING := "___" |}
  /\ Float.ltb (flt (-2) 10)
       (Float.sub (flt (-3) 10) (Float.mul (flt (-2) 10) (flt 3 100))) = false
  /\ Float.gtb (flt (-2) 10)
       (Float.add (flt (-3) 10) (Float.mul (flt (-2) 10) (flt 3 100))) = true
  /\ RECOGNIZED_HAND_MOVEMENT_ZOOMING
       {| RECOGNIZED_HAND_MOVEMENT_SCROLLING := "Scrolling right";
          RECOGNIZED_HAND_MOVEMENT_ZOOMING := "Zoom in";
          RECOGNIZED_HAND_MOVEMENT_SLIDING := "___" |}
     = "Zoom in"%string.
Proof.
  assert (Hi : Float.truthy
                 (previous_rectangle_height
                    (this (node (flt 1 2) (flt 1 2) (flt (-3) 10) 0 0))) = true).
  { vm_compute. reflexivity. }
  assert (Hp : Process atan2_unspecified (node (flt 1 2) (flt 1 2) (flt (-3) 10) 0 0)
                 (frame (flt 1 2) (flt 1 2) (flt (-2) 10) upright_hand)
               = Emitted (node (flt 1 2) (flt 1 2) (flt (-2) 10) 0 1)
                   {| RECOGNIZED_HAND_MOVEMENT_SCROLLING := "Scrolling right";
                      RECOGNIZED_HAND_MOVEMENT_ZOOMING := "Zoom in";
                      RECOGNIZED_HAND_MOVEMENT_SLIDING := "___" |}).
  { vm_compute. reflexivity. }
  assert (H1 : Float.ltb (flt (-2) 10)
                 (Float.sub (flt (-3) 10) (Float.mul (flt (-2) 10) (flt 3 100)))
               = false).
  { vm_compute. reflexivity. }
  assert (H2 : Float.gtb (flt (-2) 10)
                 (Float.add (flt (-3) 10) (Float.mul (flt (-2) 10) (flt 3 100)))
               = true).
  { vm_compute. reflexivity. }
  split; [exact Hi|]. split; [exact Hp|]. split; [exact H1|]. split; [exact H2|].
  exact (proj1 (proj2 (zoom_label atan2_unspecified _ _ _ _ Hi Hp)) H1 H2).
Defined.

(** ** Degrees *)

(** C9, as stated, fails at the lower end of the range: the radian value
    -3.14 is above -pi, and it is converted to -180, outside (-180, 180]. *)
Lemma minus_180_is_reached :
  Double.ltb (SFopp Double.M_PI) (Double.of_float (flt (-314) 100)) = true
  /\ Double.leb (Double.of_float (flt (-314) 100)) Double.M_PI = true
  /\ radianToDegree (flt (-314) 100) = -180.
Proof. repeat split; vm_compute; reflexivity. Qed.

(** C9, amended.  [radianToDegree] rounds to the nearest integer with halves
    rounded up: its result is the largest integer not above the double
    [radian * 180. / M_PI + 0.5].  For every float between -pi and pi (both
    as floats, the range of [atan2]) the result lies in [-180, 180]. *)
Theorem radianToDegree_range (radian : Float.t) :
  Float.valid radian = true ->
  Float.leb (SFopp pi_f) radian = true ->
  Float.leb radian pi_f = true ->
  radianToDegree radian * 2 ^ off <= sv (degrees_plus_half radian)
  /\ sv (degrees_plus_half radian) < (radianToDegree radian + 1) * 2 ^ off
  /\ -180 <= radianToDegree radian <= 180.
Proof.
  intros Vr Hlo Hhi.
  destruct (degrees_plus_half_bounds radian Vr Hlo Hhi) as (V & F & Hb).
  destruct (to_int_floor_spec _ V F Hb) as (H0 & H1).
  change (Double.to_int (Double.floor (degrees_plus_half radian)))
    with (radianToDegree radian) in H0, H1.
  split; [exact H0|]. split; [exact H1|].
  pose proof (pow2_pos off ltac:(discriminate)) as Poff.
  destruct Hb as [Hb0 Hb1].
  set (q := sv (degrees_plus_half radian)) in *.
  set (d := radianToDegree radian) in *. set (u := 2 ^ off) in *.
  clearbody q d u. split.
  - assert (H : -181 * u < d * u) by lia.
    apply Z.mul_lt_mono_pos_r in H; [lia|exact Poff].
  - assert (H : d * u < 181 * u) by lia.
    apply Z.mul_lt_mono_pos_r in H; [lia|exact Poff].
Qed.

(** pi as a float is converted to 180. *)
Lemma radianToDegree_range_witness :
  radianToDegree pi_f = 180 /\ -180 <= radianToDegree pi_f <= 180.
Proof.
  split; [vm_compute; reflexivity|].
  refine (proj2 (proj2 (radianToDegree_range pi_f _ _ _))); vm_compute; reflexivity.
Defined.

(** * Further properties of the code

    What the calculator does at its edges, what it keeps from one call to
    the next, and what its helpers guarantee, read off the source. *)

(** ** The exits of [Process], whatever the frame *)

(** X1.  The only index read past the end is 9: the [RET_CHECK] protects
    [landmark(0)] and nothing protects [landmark(9)]. *)
Theorem Process_exit_cases
    (atan2_finite : Float.t -> Float.t -> Float.t) (n : Node) (cc : Inputs) :
  let size := NormalizedLandmarkList.landmark_size (NORM_LANDMARKS cc) in
  let evaluated := Z.rem (frameCounter n + 1) 2 =? 0 in
  match Process atan2_finite n cc with
  | Failed _ _ => size = 0
  | OutOfRange index => index = 9%nat /\ evaluated = true /\ 0 < size < 10
  | Emitted _ _ => 0 < size /\ (evaluated = true -> 10 <= size)
  end.
Proof.
  cbv zeta.
  pose proof (Zle_0_nat (List.length (NormalizedLandmarkList.landmark (NORM_LANDMARKS cc))))
    as Hnat.
  fold (NormalizedLandmarkList.landmark_size (NORM_LANDMARKS cc)) in Hnat.
  destruct (NormalizedLandmarkList.landmark_size (NORM_LANDMARKS cc) >? 0) eqn:Hs.
  - assert (Hpos : 0 < NormalizedLandmarkList.landmark_size (NORM_LANDMARKS cc))
      by (apply Z.gtb_lt in Hs; lia).
    destruct (Z.rem (frameCounter n + 1) 2 =? 0) eqn:Hc.
    + destruct (NormalizedLandmarkList.landmark_size (NORM_LANDMARKS cc) >=? 10) eqn:H10.
      * assert (Hen : enough_landmarks n cc = true).
        { unfold enough_landmarks, Increment. rewrite Hs, H10, orb_true_r. reflexivity. }
        apply (Process_emits atan2_finite) in Hen. destruct Hen as (n' & out & ->).
        split; [exact Hpos|]. intros _. apply Z.geb_le in H10. lia.
      * rewrite (Process_past_the_end atan2_finite n cc Hs Hc H10).
        split; [reflexivity|]. split; [reflexivity|].
        rewrite Z.geb_leb in H10. apply Z.leb_gt in H10. lia.
    + rewrite (Process_skipped atan2_finite n cc Hs Hc).
      split; [exact Hpos|]. discriminate.
  - rewrite (Process_empty atan2_finite n cc Hs).
    rewrite Z.gtb_ltb in Hs. apply Z.ltb_ge in Hs. lia.
Qed.

(** ** The field [previous_rectangle_width] *)

(** X2.  [previous_rectangle_width] is dead state: [Process] never writes it, and
    never reads it -- with another value in the field the call takes the
    same exit with the same labels and leaves the same node, up to that
    field. *)
Theorem previous_rectangle_width_is_dead
    (atan2_finite : Float.t -> Float.t -> Float.t) (n : Node) (cc : Inputs)
    (w : Float.t) :
  (forall n', node_after (Process atan2_finite n cc) = Some n' ->
     previous_rectangle_width (this n') = previous_rectangle_width (this n))
  /\ Process atan2_finite (with_previous_rectangle_width n w) cc
     = match Process atan2_finite n cc with
       | Emitted n' out => Emitted (with_previous_rectangle_width n' w) out
       | Failed n' message => Failed (with_previous_rectangle_width n' w) message
       | OutOfRange index => OutOfRange index
       end.
Proof.
  split.
  - intros n' H. unfold Process in H.
    destruct (negb _) in H; [injection H as <-; reflexivity|].
    destruct (Z.eqb _ 0) in H; [|injection H as <-; reflexivity].
    destruct (NormalizedLandmarkList.get _ 0) in H; [|discriminate].
    destruct (NormalizedLandmarkList.get _ 9) in H; [|discriminate].
    injection H as <-. reflexivity.
  - unfold Process, with_previous_rectangle_width.
    cbn [this frameCounter].
    destruct (negb _); [reflexivity|].
    destruct (Z.eqb _ 0); [|reflexivity].
    destruct (NormalizedLandmarkList.get _ 0); [|reflexivity].
    destruct (NormalizedLandmarkList.get _ 9); reflexivity.
Qed.

(** ** Each label looks at its own inputs *)

(** X3.  Two calls that emit labels.  If the two frames have the same rectangle
    and the two nodes the same previous centre and height, the scrolling and
    the zooming labels are the same, whatever the landmarks, the counters
    and the stored angles.  If the two frames have the same landmarks and the
    two nodes the same counter and stored angle, the sliding labels are the
    same, whatever the rectangles. *)
Theorem labels_look_at_their_own_inputs
    (atan2_finite : Float.t -> Float.t -> Float.t)
    (n m : Node) (cc dd : Inputs) (n' m' : Node) (out out' : Outputs) :
  Process atan2_finite n cc = Emitted n' out ->
  Process atan2_finite m dd = Emitted m' out' ->
  (NORM_RECT cc = NORM_RECT dd ->
   previous_x_center (this n) = previous_x_center (this m) ->
   previous_y_center (this n) = previous_y_center (this m) ->
   previous_rectangle_height (this n) = previous_rectangle_height (this m) ->
   RECOGNIZED_HAND_MOVEMENT_SCROLLING out = RECOGNIZED_HAND_MOVEMENT_SCROLLING out'
   /\ RECOGNIZED_HAND_MOVEMENT_ZOOMING out = RECOGNIZED_HAND_MOVEMENT_ZOOMING out')
  /\ (NORM_LANDMARKS cc = NORM_LANDMARKS dd ->
      frameCounter n = frameCounter m ->
      previous_angle (this n) = previous_angle (this m) ->
      RECOGNIZED_HAND_MOVEMENT_SLIDING out = RECOGNIZED_HAND_MOVEMENT_SLIDING out').
Proof.
  intros H1 H2.
  destruct (emitted_cases _ _ _ _ _ H1) as (Hc1 & Hs1 & Hz1 & Hl1).
  destruct (emitted_cases _ _ _ _ _ H2) as (Hc2 & Hs2 & Hz2 & Hl2).
  split.
  - intros Er Ex Ey Eh. rewrite Hs1, Hs2, Hz1, Hz2, Er.
    unfold scrolling, zooming.
    cbn [previous_rectangle_height set_previous_center].
    rewrite Ex, Ey, Eh. split; reflexivity.
  - intros El Ec Ea. rewrite Hc1, Hc2, El, Ec in *.
    destruct Hl1 as [(Hodd1 & _ & ->)|(Hev1 & w & p & E0 & E9 & _ & ->)];
    destruct Hl2 as [(Hodd2 & _ & ->)|(Hev2 & w' & p' & E0' & E9' & _ & ->)].
    + reflexivity.
    + rewrite Hev2 in Hodd1. discriminate.
    + rewrite Hev1 in Hodd2. discriminate.
    + rewrite E0 in E0'. rewrite E9 in E9'. injection E0' as <-. injection E9' as <-.
      unfold sliding.
      cbn [previous_angle set_previous_rectangle_height set_previous_center].
      rewrite Ea. reflexivity.
Qed.

(** Two frames with the same rectangle and different hands, seen by two
    nodes with the same previous centre and height. *)
Lemma labels_look_at_their_own_inputs_witness :
  Process atan2_unspecified (node (flt 1 2) (flt 1 2) (flt 3 10) 90 0)
    (frame (flt 56 100) (flt 1 2) (flt 2 10) upright_hand)
  = Emitted (node (flt 56 100) (flt 1 2) (flt 2 10) 90 1)
      {| RECOGNIZED_HAND_MOVEMENT_SCROLLING := "Scrolling right";
         RECOGNIZED_HAND_MOVEMENT_ZOOMING := "Zoom out";
         RECOGNIZED_HAND_MOVEMENT_SLIDING := "___" |}
  /\ Process atan2_unspecified (node (flt 1 2) (flt 1 2) (flt 3 10) 0 1)
       (frame (flt 56 100) (flt 1 2) (flt 2 10) flat_hand)
     = Emitted (node (flt 56 100) (flt 1 2) (flt 2 10) 0 2)
         {| RECOGNIZED_HAND_MOVEMENT_SCROLLING := "Scrolling right";
            RECOGNIZED_HAND_MOVEMENT_ZOOMING := "Zoom out";
            RECOGNIZED_HAND_MOVEMENT_SLIDING := "___" |}
  /\ "Scrolling right"%string = "Scrolling right"%string
  /\ "Zoom out"%string = "Zoom out"%string.
Proof.
  assert (H1 : Process atan2_unspecified (node (flt 1 2) (flt 1 2) (flt 3 10) 90 0)
                 (frame (flt 56 100) (flt 1 2) (flt 2 10) upright_hand)
               = Emitted (node (flt 56 100) (flt 1 2) (flt 2 10) 90 1)
                   {| RECOGNIZED_HAND_MOVEMENT_SCROLLING := "Scrolling right";
                      RECOGNIZED_HAND_MOVEMENT_ZOOMING := "Zoom out";
                      RECOGNIZED_HAND_MOVEMENT_SLIDING := "___" |}).
  { vm_compute. reflexivity. }
  assert (H2 : Process atan2_unspecified (node (flt 1 2) (flt 1 2) (flt 3 10) 0 1)
                 (frame (flt 56 100) (flt 1 2) (flt 2 10) flat_hand)
               = Emitted (node (flt 56 100) (flt 1 2) (flt 2 10) 0 2)
                   {| RECOGNIZED_HAND_MOVEMENT_SCROLLING := "Scrolling right";
                      RECOGNIZED_HAND_MOVEMENT_ZOOMING := "Zoom out";
                      RECOGNIZED_HAND_MOVEMENT_SLIDING := "___" |}).
  { vm_compute. reflexivity. }
  split; [exact H1|]. split; [exact H2|].
  exact (proj1 (labels_look_at_their_own_inputs atan2_unspecified _ _ _ _ _ _ _ _
                  H1 H2) eq_refl eq_refl eq_refl eq_refl).
Defined.

(** ** The slide reference is at most two frames old *)

Lemma one_of_two_is_even c :
  (Z.rem (c + 1) 2 =? 0) = negb (Z.rem (c + 1 + 1) 2 =? 0).
Proof.
  rewrite <- !Zeven_rem. replace (c + 1 + 1) with (Z.succ (Z.succ c)) by lia.
  replace (c + 1) with (Z.succ c) by lia.
  rewrite !Z.even_succ, Z.odd_succ, Z.negb_even. reflexivity.
Qed.

(** X4.  Of two calls in a row that emit labels exactly one evaluates the slide
    feature: afterwards the stored angle is the angle of the hand in one of
    the two frames, whatever was stored before. *)
Theorem slide_reference_is_one_of_the_last_two
    (atan2_finite : Float.t -> Float.t -> Float.t) (n : Node)
    (cc1 cc2 : Inputs) (n1 : Node) (out1 : Outputs) (n2 : Node) (out2 : Outputs) :
  Process atan2_finite n cc1 = Emitted n1 out1 ->
  Process atan2_finite n1 cc2 = Emitted n2 out2 ->
  exists z,
    (hand_angle atan2_finite cc1 = Some z \/ hand_angle atan2_finite cc2 = Some z)
    /\ previous_angle (this n2) = Float.of_int z.
Proof.
  intros H1 H2.
  destruct (emitted_cases _ _ _ _ _ H1) as (Hc1 & _ & _ & Hs1).
  destruct (emitted_cases _ _ _ _ _ H2) as (Hc2 & _ & _ & Hs2).
  pose proof (one_of_two_is_even (frameCounter n)) as Hpar.
  rewrite <- Hc1, <- Hc2 in Hpar.
  destruct Hs2 as [(Hodd2 & Ht2 & _)|(_ & w & m & E0 & E9 & Ht2 & _)].
  - rewrite Hodd2 in Hpar. cbn [negb] in Hpar.
    destruct Hs1 as [(Hodd1 & _)|(_ & w & m & E0 & E9 & Ht1 & _)].
    { rewrite Hodd1 in Hpar. discriminate. }
    exists (ang_in_degree atan2_finite w m). split.
    + left. unfold hand_angle. rewrite E0, E9. reflexivity.
    + rewrite Ht2, Ht1. reflexivity.
  - exists (ang_in_degree atan2_finite w m). split.
    + right. unfold hand_angle. rewrite E0, E9. reflexivity.
    + rewrite Ht2. reflexivity.
Qed.

(** Two frames in a row; the second call is the evaluated one. *)
Lemma slide_reference_is_one_of_the_last_two_witness :
  Process atan2_unspecified (node (flt 1 2) (flt 1 2) (flt 3 10) 45 0)
    (frame (flt 1 2) (flt 1 2) (flt 3 10) flat_hand)
  = Emitted (node (flt 1 2) (flt 1 2) (flt 3 10) 45 1)
      {| RECOGNIZED_HAND_MOVEMENT_SCROLLING := "___";
         RECOGNIZED_HAND_MOVEMENT_ZOOMING := "___";
         RECOGNIZED_HAND_MOVEMENT_SLIDING := "___" |}
  /\ Process atan2_unspecified (node (flt 1 2) (flt 1 2) (flt 3 10) 45 1)
       (frame (flt 1 2) (flt 1 2) (flt 3 10) upright_hand)
     = Emitted (node (flt 1 2) (flt 1 2) (flt 3 10) 90 2)
         {| RECOGNIZED_HAND_MOVEMENT_SCROLLING := "___";
            RECOGNIZED_HAND_MOVEMENT_ZOOMING := "___";
            RECOGNIZED_HAND_MOVEMENT_SLIDING := "___" |}
  /\ exists z,
       (hand_angle atan2_unspecified
          (frame (flt 1 2) (flt 1 2) (flt 3 10) flat_hand) = Some z
        \/ hand_angle atan2_unspecified
             (frame (flt 1 2) (flt 1 2) (flt 3 10) upright_hand) = Some z)
       /\ previous_angle (this (node (flt 1 2) (flt 1 2) (flt 3 10) 90 2))
          = Float.of_int z.
Proof.
  assert (H1 : Process atan2_unspecified (node (flt 1 2) (flt 1 2) (flt 3 10) 45 0)
                 (frame (flt 1 2) (flt 1 2) (flt 3 10) flat_hand)
               = Emitted (node (flt 1 2) (flt 1 2) (flt 3 10) 45 1)
                   {| RECOGNIZED_HAND_MOVEMENT_SCROLLING := "___";
                      RECOGNIZED_HAND_MOVEMENT_ZOOMING := "___";
                      RECOGNIZED_HAND_MOVEMENT_SLIDING := "___" |}).
  { vm_compute. reflexivity. }
  assert (H2 : Process atan2_unspecified (node (flt 1 2) (flt 1 2) (flt 3 10) 45 1)
                 (frame (flt 1 2) (flt 1 2) (flt 3 10) upright_hand)
               = Emitted (node (flt 1 2) (flt 1 2) (flt 3 10) 90 2)
                   {| RECOGNIZED_HAND_MOVEMENT_SCROLLING := "___";
                      RECOGNIZED_HAND_MOVEMENT_ZOOMING := "___";
                      RECOGNIZED_HAND_MOVEMENT_SLIDING := "___" |}).
  { vm_compute. reflexivity. }
  split; [exact H1|]. split; [exact H2|].
  exact (slide_reference_is_one_of_the_last_two atan2_unspecified _ _ _ _ _ _ _ H1 H2).
Defined.

(** ** Signs *)

Lemma binary_round_opp prec emax s m e :
  binary_round prec emax (negb s) m e = SFopp (binary_round prec emax s m e).
Proof.
  unfold binary_round. destruct (shl_align m e _) as [mz ez].
  apply binary_round_aux_opp.
Qed.

Lemma SFopp_involutive x : SFopp (SFopp x) = x.
Proof. destruct x as [s|s| |s m e]; cbn; try rewrite negb_involutive; reflexivity. Qed.

Lemma binary_normalize_opp prec emax z e :
  binary_normalize prec emax (- z) e false
  = match z with
    | 0 => S754_zero false
    | _ => SFopp (binary_normalize prec emax z e false)
    end.
Proof.
  destruct z as [|p|p]; cbn [Z.opp binary_normalize].
  - reflexivity.
  - apply (binary_round_opp prec emax false).
  - rewrite (binary_round_opp prec emax false). rewrite SFopp_involutive. reflexivity.
Qed.

Lemma SFmul_opp_opp prec emax a :
  SFmul prec emax (SFopp a) (SFopp a) = SFmul prec emax a a.
Proof. destruct a as [s|s| |s m e]; cbn; try destruct s; reflexivity. Qed.

Lemma of_float_opp x : Double.of_float (SFopp x) = SFopp (Double.of_float x).
Proof.
  destruct x as [s|s| |s m e]; try reflexivity.
  cbn [SFopp Double.of_float]. apply binary_round_opp.
Qed.

(** The square does not see the sign. *)
Lemma pow_2_opp d : pow_2 (SFopp d) = pow_2 d.
Proof. unfold pow_2, Double.mul. rewrite of_float_opp. apply SFmul_opp_opp. Qed.

(** Exchanging the operands of a subtraction changes the sign of the
    difference, except that [x - x] is [+0] both ways and that a NaN stays a
    NaN. *)
Lemma sub_swap a b :
  Float.sub b a = SFopp (Float.sub a b) \/ Float.sub b a = Float.sub a b.
Proof.
  unfold Float.sub.
  destruct a as [sa|sa| |sa ma ea], b as [sb|sb| |sb mb eb]; cbn [SFsub SFopp];
    try (left; reflexivity); try (right; reflexivity);
    try (destruct sa, sb; (left; reflexivity) || (right; reflexivity)).
  replace (IntDef.Z.min eb ea) with (IntDef.Z.min ea eb) by apply Z.min_comm.
  set (A := cond_Zopp sa (Zpos (fst (shl_align ma ea (IntDef.Z.min ea eb))))).
  set (B := cond_Zopp sb (Zpos (fst (shl_align mb eb (IntDef.Z.min ea eb))))).
  replace (B - A) with (- (A - B)) by ring.
  rewrite binary_normalize_opp.
  destruct (A - B) eqn:E; [right|left|left]; reflexivity.
Qed.

Lemma pow_2_sub_swap a b : pow_2 (Float.sub a b) = pow_2 (Float.sub b a).
Proof.
  destruct (sub_swap a b) as [H|H]; rewrite H; [|reflexivity].
  symmetry. apply pow_2_opp.
Qed.

(** ** Distances *)

(** X5.  The distance from a to b is the distance from b to a, for all floats. *)
Theorem get_Euclidean_DistanceAB_sym (a_x a_y b_x b_y : Float.t) :
  get_Euclidean_DistanceAB a_x a_y b_x b_y
  = get_Euclidean_DistanceAB b_x b_y a_x a_y.
Proof.
  unfold get_Euclidean_DistanceAB.
  rewrite (pow_2_sub_swap a_x b_x), (pow_2_sub_swap a_y b_y). reflexivity.
Qed.

(** [x - x] is [+0] for every finite float and NaN for the others. *)
Lemma sub_diag x :
  Float.sub x x = if is_finite x then S754_zero false else S754_nan.
Proof.
  unfold Float.sub. destruct x as [s|s| |s m e]; cbn [SFsub is_finite].
  - destruct s; reflexivity.
  - destruct s; reflexivity.
  - reflexivity.
  - cbv zeta. rewrite Z.sub_diag. reflexivity.
Qed.

Lemma distance_nan_l dx dy :
  dx = S754_nan ->
  Float.sqrt (Float.of_double (Double.add (pow_2 dx) (pow_2 dy))) = S754_nan.
Proof. intros ->. reflexivity. Qed.

Lemma distance_nan_r dx dy :
  dy = S754_nan ->
  Float.sqrt (Float.of_double (Double.add (pow_2 dx) (pow_2 dy))) = S754_nan.
Proof.
  intros ->. change (pow_2 S754_nan) with S754_nan.
  unfold Double.add. destruct (pow_2 dx) as [s|s| |s m e]; reflexivity.
Qed.

(** The distance of a point to itself is [+0] when its coordinates are
    finite and NaN otherwise. *)
Lemma distance_to_itself x y :
  get_Euclidean_DistanceAB x y x y
  = if is_finite x && is_finite y then S754_zero false else S754_nan.
Proof.
  unfold get_Euclidean_DistanceAB. rewrite !sub_diag.
  destruct (is_finite x), (is_finite y); reflexivity.
Qed.

(** ** The distance is never negative *)

Lemma binary_round_aux_sign prec emax m e l :
  not_negative (binary_round_aux prec emax false m e l) = true.
Proof.
  unfold binary_round_aux.
  destruct (shr_fexp prec emax m e l) as [mrs' e'].
  destruct (shr_fexp prec emax _ e' loc_Exact) as [mrs'' e''].
  destruct (shr_m mrs''); [reflexivity| |reflexivity].
  destruct (e'' <=? emax - prec); reflexivity.
Qed.

Lemma binary_round_sign prec emax m e :
  not_negative (binary_round prec emax false m e) = true.
Proof.
  unfold binary_round. destruct (shl_align m e _) as [mz ez].
  apply binary_round_aux_sign.
Qed.

Lemma pow_2_sign d : not_negative (pow_2 d) = true.
Proof.
  unfold pow_2, Double.mul.
  destruct (Double.of_float d) as [s|s| |s m e]; cbn [SFmul].
  - destruct s; reflexivity.
  - destruct s; reflexivity.
  - reflexivity.
  - rewrite xorb_nilpotent. apply binary_round_aux_sign.
Qed.

Lemma add_sign a b :
  not_negative a = true -> not_negative b = true ->
  not_negative (Double.add a b) = true.
Proof.
  unfold Double.add.
  destruct a as [sa|sa| |sa ma ea], b as [sb|sb| |sb mb eb];
    try destruct sa; try destruct sb; try discriminate; intros _ _;
    try reflexivity.
  cbn [SFadd cond_Zopp]. cbv zeta. cbn [Z.add binary_normalize].
  apply binary_round_sign.
Qed.

Lemma of_double_sign d :
  not_negative d = true -> not_negative (Float.of_double d) = true.
Proof.
  destruct d as [s|s| |s m e]; try (intros H; exact H).
  destruct s; [discriminate|]. intros _. apply binary_round_sign.
Qed.

Lemma sqrt_sign x : not_negative x = true -> not_negative (Float.sqrt x) = true.
Proof.
  unfold Float.sqrt.
  destruct x as [s|s| |s m e]; try destruct s; try discriminate; intros _;
    try reflexivity.
  cbn [SFsqrt].
  destruct (SFsqrt_core_binary Float.prec Float.emax (Zpos m) e) as [[mz ez] lz].
  apply binary_round_aux_sign.
Qed.

(** X6.  Whatever the four coordinates, the distance is [+0], a positive number,
    plus infinity or a NaN; it is never negative and never [-0]. *)
Theorem get_Euclidean_DistanceAB_is_not_negative (a_x a_y b_x b_y : Float.t) :
  not_negative (get_Euclidean_DistanceAB a_x a_y b_x b_y) = true.
Proof.
  unfold get_Euclidean_DistanceAB.
  apply sqrt_sign, of_double_sign, add_sign; apply pow_2_sign.
Qed.

(** ** [isThumbNearFirstFinger] *)

(** X7.  [isThumbNearFirstFinger] does not depend on the order of the two points,
    and a point is near itself exactly when both its coordinates are finite:
    an infinite or NaN coordinate gives a NaN distance, which is below
    nothing. *)
Theorem isThumbNearFirstFinger_sym_refl (point1 point2 : NormalizedLandmark.t) :
  isThumbNearFirstFinger point1 point2 = isThumbNearFirstFinger point2 point1
  /\ isThumbNearFirstFinger point1 point1
     = is_finite (NormalizedLandmark.x point1)
       && is_finite (NormalizedLandmark.y point1).
Proof.
  unfold isThumbNearFirstFinger. split.
  - rewrite get_Euclidean_DistanceAB_sym. reflexivity.
  - rewrite distance_to_itself.
    destruct (is_finite _ && is_finite _); vm_compute; reflexivity.
Qed.

(** ** NaN *)

Lemma sub_nan_r a : Float.sub a S754_nan = S754_nan.
Proof. destruct a; reflexivity. Qed.

Lemma ltb_nan_r a : SFltb a S754_nan = false.
Proof. destruct a as [s|s| |s m e]; try destruct s; reflexivity. Qed.

(** A NaN among the coordinates of the new or the previous centre makes the
    distance a NaN. *)
Lemma distance_nan a_x a_y b_x b_y :
  is_nan a_x || is_nan a_y || is_nan b_x || is_nan b_y = true ->
  get_Euclidean_DistanceAB a_x a_y b_x b_y = S754_nan.
Proof.
  intros H. unfold get_Euclidean_DistanceAB.
  destruct a_x as [?|?| |? ? ?] eqn:Eax; try (apply distance_nan_l; reflexivity);
  destruct b_x as [?|?| |? ? ?] eqn:Ebx;
    try (apply distance_nan_l; reflexivity);
  destruct a_y as [?|?| |? ? ?] eqn:Eay; try (apply distance_nan_r; reflexivity);
  destruct b_y as [?|?| |? ? ?] eqn:Eby;
    try (apply distance_nan_r; apply sub_nan_r); discriminate.
Qed.

(** X8.  A call that emits labels for a frame whose centre has a NaN coordinate,
    or whose stored previous centre has one, emits the scrolling label
    "___": the NaN distance is above no threshold.  The NaN is stored as the
    previous centre, so the next frame gets no scrolling label either. *)
Theorem nan_centre_never_scrolls
    (atan2_finite : Float.t -> Float.t -> Float.t) (n : Node) (cc : Inputs)
    (n' : Node) (out : Outputs) :
  Process atan2_finite n cc = Emitted n' out ->
  is_nan (NormalizedRect.x_center (NORM_RECT cc))
  || is_nan (NormalizedRect.y_center (NORM_RECT cc))
  || is_nan (previous_x_center (this n))
  || is_nan (previous_y_center (this n)) = true ->
  RECOGNIZED_HAND_MOVEMENT_SCROLLING out = "___"%string.
Proof.
  intros H Hnan. destruct (emitted_cases _ _ _ _ _ H) as (_ & Hs & _).
  rewrite Hs. unfold scrolling. rewrite (distance_nan _ _ _ _ Hnan).
  unfold Float.gtb. rewrite ltb_nan_r.
  destruct (Float.truthy _); reflexivity.
Qed.

(** A frame whose rectangle has a NaN as x coordinate of its centre. *)
Lemma nan_centre_never_scrolls_witness :
  Process atan2_unspecified (node (flt 1 2) (flt 1 2) (flt 3 10) 0 0)
    (frame S754_nan (flt 1 2) (flt 3 10) upright_hand)
  = Emitted (node S754_nan (flt 1 2) (flt 3 10) 0 1)
      {| RECOGNIZED_HAND_MOVEMENT_SCROLLING := "___";
         RECOGNIZED_HAND_MOVEMENT_ZOOMING := "___";
         RECOGNIZED_HAND_MOVEMENT_SLIDING := "___" |}
  /\ RECOGNIZED_HAND_MOVEMENT_SCROLLING
       {| RECOGNIZED_HAND_MOVEMENT_SCROLLING := "___";
          RECOGNIZED_HAND_MOVEMENT_ZOOMING := "___";
          RECOGNIZED_HAND_MOVEMENT_SLIDING := "___" |}
     = "___"%string.
Proof.
  assert (Hp : Process atan2_unspecified (node (flt 1 2) (flt 1 2) (flt 3 10) 0 0)
                 (frame S754_nan (flt 1 2) (flt 3 10) upright_hand)
               = Emitted (node S754_nan (flt 1 2) (flt 3 10) 0 1)
                   {| RECOGNIZED_HAND_MOVEMENT_SCROLLING := "___";
                      RECOGNIZED_HAND_MOVEMENT_ZOOMING := "___";
                      RECOGNIZED_HAND_MOVEMENT_SLIDING := "___" |}).
  { vm_compute. reflexivity. }
  split; [exact Hp|].
  refine (nan_centre_never_scrolls atan2_unspecified _ _ _ _ Hp _).
  vm_compute. reflexivity.
Defined.

(** X9.  A call that emits labels for a frame whose height is a NaN, or with a
    NaN stored as previous height, emits the zooming label "___". *)
Theorem nan_height_never_zooms
    (atan2_finite : Float.t -> Float.t -> Float.t) (n : Node) (cc : Inputs)
    (n' : Node) (out : Outputs) :
  Process atan2_finite n cc = Emitted n' out ->
  is_nan (NormalizedRect.height (NORM_RECT cc))
  || is_nan (previous_rectangle_height (this n)) = true ->
  RECOGNIZED_HAND_MOVEMENT_ZOOMING out = "___"%string.
Proof.
  intros H Hnan. destruct (emitted_cases _ _ _ _ _ H) as (_ & _ & Hz & _).
  rewrite Hz. unfold zooming.
  cbn [previous_rectangle_height set_previous_center].
  destruct (Float.truthy _); [|reflexivity].
  unfold Float.ltb, Float.gtb.
  destruct (NormalizedRect.height (NORM_RECT cc)) as [?|?| |? ? ?] eqn:Eh.
  3:{ rewrite ltb_nan_r. reflexivity. }
  all: destruct (previous_rectangle_height (this n)) as [?|?| |? ? ?]; try discriminate;
    unfold Float.sub, Float.add; cbn [SFsub SFadd]; rewrite ltb_nan_r;
    reflexivity.
Qed.

(** A frame whose rectangle has a NaN as height. *)
Lemma nan_height_never_zooms_witness :
  Process atan2_unspecified (node (flt 1 2) (flt 1 2) (flt 3 10) 0 0)
    (frame (flt 1 2) (flt 1 2) S754_nan upright_hand)
  = Emitted (node (flt 1 2) (flt 1 2) S754_nan 0 1)
      {| RECOGNIZED_HAND_MOVEMENT_SCROLLING := "___";
         RECOGNIZED_HAND_MOVEMENT_ZOOMING := "___";
         RECOGNIZED_HAND_MOVEMENT_SLIDING := "___" |}
  /\ RECOGNIZED_HAND_MOVEMENT_ZOOMING
       {| RECOGNIZED_HAND_MOVEMENT_SCROLLING := "___";
          RECOGNIZED_HAND_MOVEMENT_ZOOMING := "___";
          RECOGNIZED_HAND_MOVEMENT_SLIDING := "___" |}
     = "___"%string.
Proof.
  assert (Hp : Process atan2_unspecified (node (flt 1 2) (flt 1 2) (flt 3 10) 0 0)
                 (frame (flt 1 2) (flt 1 2) S754_nan upright_hand)
               = Emitted (node (flt 1 2) (flt 1 2) S754_nan 0 1)
                   {| RECOGNIZED_HAND_MOVEMENT_SCROLLING := "___";
                      RECOGNIZED_HAND_MOVEMENT_ZOOMING := "___";
                      RECOGNIZED_HAND_MOVEMENT_SLIDING := "___" |}).
  { vm_compute. reflexivity. }
  split; [exact Hp|].
  refine (nan_height_never_zooms atan2_unspecified _ _ _ _ Hp _).
  vm_compute. reflexivity.
Defined.

(** ** Integers as floats *)

Lemma to_int_is_an_int d : Double.INT_MIN <= Double.to_int d <= Double.INT_MAX.
Proof.
  assert (Hmin : Double.INT_MIN <= Double.INT_MIN <= Double.INT_MAX)
    by (split; discriminate).
  assert (H0 : Double.INT_MIN <= 0 <= Double.INT_MAX) by (split; discriminate).
  unfold Double.to_int. destruct d as [s|s| |s m e]; try assumption.
  cbv zeta.
  destruct ((Double.INT_MIN <=? _) && (_ <=? Double.INT_MAX)) eqn:E; [|exact Hmin].
  apply andb_prop in E. destruct E as [E1 E2].
  apply Z.leb_le in E1, E2. split; assumption.
Qed.

(** An [int] converted to [float] is a finite float. *)
Lemma of_int_finite z :
  Double.INT_MIN <= z <= Double.INT_MAX ->
  valid_binary Float.prec Float.emax (Float.of_int z) = true
  /\ is_finite (Float.of_int z) = true.
Proof.
  intros [Hlo Hhi]. unfold Float.of_int.
  pose proof (f_pow2_valid 31 ltac:(lia)) as V.
  pose proof (f_pow2_value 31 ltac:(unfold off; lia)) as E.
  pose proof (pow2_pos off ltac:(discriminate)) as Poff.
  assert (E31 : 2 ^ (31 + off) = 2 ^ 31 * 2 ^ off)
    by (apply pow2_split; unfold off; lia).
  unfold Double.INT_MIN, Double.INT_MAX in *.
  destruct (binary_normalize_le Float.prec Float.emax prec32 z 0 (f_pow2 31) off
              V eq_refl ltac:(discriminate) off32) as [H1|(V1 & F1 & _)].
  { fold (sv (f_pow2 31)). rewrite E, E31. change (0 + off) with off.
    apply Z.mul_le_mono_nonneg_r; lia. }
  - destruct (binary_normalize_ge Float.prec Float.emax prec32 z 0 (SFopp (f_pow2 31)) off
                ltac:(rewrite valid_opp; exact V) eq_refl ltac:(discriminate) off32)
      as [H2|(V2 & F2 & _)].
    { rewrite Zval_opp. fold (sv (f_pow2 31)). rewrite E, E31. change (0 + off) with off.
      rewrite <- Z.mul_opp_l. apply Z.mul_le_mono_nonneg_r; lia. }
    + cbv zeta in H1, H2. rewrite H1 in H2. discriminate.
    + split; assumption.
  - split; assumption.
Qed.

(** On finite floats [a < c] is the negation of [c <= a]. *)
Lemma ltb_is_not_geb a c :
  valid_binary Float.prec Float.emax a = true -> is_finite a = true ->
  valid_binary Float.prec Float.emax c = true -> is_finite c = true ->
  Float.ltb a c = negb (Float.geb a c).
Proof.
  intros Va Fa Vc Fc. unfold Float.ltb, Float.geb, SFltb, SFleb.
  rewrite (SFcompare_Zval Float.prec Float.emax prec32 a c off Va Vc Fa Fc off32).
  rewrite (SFcompare_Zval Float.prec Float.emax prec32 c a off Vc Va Fc Fa off32).
  rewrite (Z.compare_antisym (Zval off a) (Zval off c)).
  destruct (Zval off a ?= Zval off c); reflexivity.
Qed.

(** ** Every movement above the threshold has a direction *)

(** X10.  When a previous centre is remembered and the distance is above the
    threshold, the scrolling label of an emitting call is one of the four
    directions, never "___": the four ranges of the angle leave no gap,
    whatever [atan2] returned. *)
Theorem movement_above_threshold_has_a_direction
    (atan2_finite : Float.t -> Float.t -> Float.t) (n : Node) (cc : Inputs)
    (n' : Node) (out : Outputs) :
  let x_center := NormalizedRect.x_center (NORM_RECT cc) in
  let y_center := NormalizedRect.y_center (NORM_RECT cc) in
  let height := NormalizedRect.height (NORM_RECT cc) in
  Process atan2_finite n cc = Emitted n' out ->
  Float.truthy (previous_x_center (this n)) = true ->
  Float.gtb
    (get_Euclidean_DistanceAB x_center y_center
       (previous_x_center (this n)) (previous_y_center (this n)))
    (Float.mul (flt 2 100) height) = true ->
  RECOGNIZED_HAND_MOVEMENT_SCROLLING out = "Scrolling right"%string
  \/ RECOGNIZED_HAND_MOVEMENT_SCROLLING out = "Scrolling up"%string
  \/ RECOGNIZED_HAND_MOVEMENT_SCROLLING out = "Scrolling left"%string
  \/ RECOGNIZED_HAND_MOVEMENT_SCROLLING out = "Scrolling down"%string.
Proof.
  intros x_center y_center height H Hrem Hmoved.
  destruct (emitted_cases _ _ _ _ _ H) as (_ & Hs & _).
  rewrite Hs. fold x_center y_center height. unfold scrolling.
  rewrite Hrem. unfold flt in Hmoved. rewrite Hmoved.
  match goal with
  | |- context [Float.of_int (radianToDegree ?r)] =>
      set (angle := Float.of_int (radianToDegree r))
  end.
  destruct (of_int_finite _ (to_int_is_an_int
              (Double.floor (degrees_plus_half
                 (getAngleABC atan2_finite x_center y_center
                    (previous_x_center (this n)) (previous_y_center (this n))
                    (Float.of_double
                       (Double.add (Double.of_float (previous_x_center (this n)))
                          (Double.literal 1 10)))
                    (previous_y_center (this n)))))))
    as (Va & Fa).
  change (Float.of_int (Double.to_int (Double.floor (degrees_plus_half _))))
    with angle in Va, Fa.
  rewrite !(ltb_is_not_geb angle _ Va Fa) by reflexivity.
  destruct (Float.geb angle (Float.of_int (-45))),
           (Float.geb angle (Float.of_int 45)),
           (Float.geb angle (Float.of_int 135)),
           (Float.geb angle (Float.of_int (-135)));
    cbn [negb andb orb]; auto.
Qed.

(** The previous centre is (0.5, 0.5) and the frame is centred at
    (0.5, 0.44), with height 0.3. *)
Lemma movement_above_threshold_has_a_direction_witness :
  Process atan2_unspecified (node (flt 1 2) (flt 1 2) (flt 3 10) 0 0)
    (frame (flt 1 2) (flt 44 100) (flt 3 10) upright_hand)
  = Emitted (node (flt 1 2) (flt 44 100) (flt 3 10) 0 1)
      {| RECOGNIZED_HAND_MOVEMENT_SCROLLING := "Scrolling up";
         RECOGNIZED_HAND_MOVEMENT_ZOOMING := "___";
         RECOGNIZED_HAND_MOVEMENT_SLIDING := "___" |}
  /\ ("Scrolling up" = "Scrolling right" \/ "Scrolling up" = "Scrolling up"
      \/ "Scrolling up" = "Scrolling left" \/ "Scrolling up" = "Scrolling down")%string.
Proof.
  assert (Hp : Process atan2_unspecified (node (flt 1 2) (flt 1 2) (flt 3 10) 0 0)
                 (frame (flt 1 2) (flt 44 100) (flt 3 10) upright_hand)
               = Emitted (node (flt 1 2) (flt 44 100) (flt 3 10) 0 1)
                   {| RECOGNIZED_HAND_MOVEMENT_SCROLLING := "Scrolling up";
                      RECOGNIZED_HAND_MOVEMENT_ZOOMING := "___";
                      RECOGNIZED_HAND_MOVEMENT_SLIDING := "___" |}).
  { vm_compute. reflexivity. }
  split; [exact Hp|].
  refine (movement_above_threshold_has_a_direction atan2_unspecified _ _ _ _ Hp _ _);
    vm_compute; reflexivity.
Defined.

(** An integer below [2 ^ 24] in magnitude is converted exactly. *)
Lemma of_int_small k :
  - 2 ^ 24 < k < 2 ^ 24 ->
  valid_binary Float.prec Float.emax (Float.of_int k) = true
  /\ is_finite (Float.of_int k) = true
  /\ sv (Float.of_int k) = k * 2 ^ off.
Proof.
  intros Hk. unfold Float.of_int.
  assert (Hp : forall s p, Zpos p < 2 ^ 24 ->
            valid_binary Float.prec Float.emax (binary_round Float.prec Float.emax s p 0) = true
            /\ is_finite (binary_round Float.prec Float.emax s p 0) = true
            /\ sv (binary_round Float.prec Float.emax s p 0)
               = cond_Zopp s (Zpos p) * 2 ^ off).
  { intros s p Hp.
    assert (Hd : Zpos (digits2_pos p) <= 24).
    { change (Zpos (digits2_pos p)) with (Zdigits2 (Zpos p)).
      apply Zdigits2_le_pow; lia. }
    destruct (binary_round_exact Float.prec Float.emax prec32 s p 0)
      as (mR & eR & ER & HbR & HeR & HmR).
    { clear - Hd. unfold fexp, emin, Float.prec, Float.emax. lia. }
    { clear - Hd. unfold fexp, emin, Float.prec, Float.emax. lia. }
    rewrite ER. split; [exact HbR|]. split; [reflexivity|].
    destruct (bounded32 mR eR HbR) as (HeR' & _).
    assert (HeR0 : eR <= 0).
    { clear - HeR Hd. rewrite HeR. unfold fexp, emin, Float.prec, Float.emax. lia. }
    unfold sv. cbn [Zval]. rewrite HmR.
    replace off with ((0 - eR) + (eR + off)) at 2 by lia.
    rewrite (pow2_split (0 - eR) (eR + off)) by (unfold off; lia).
    destruct s; cbn [cond_Zopp]; ring. }
  destruct k as [|p|p]; cbn [binary_normalize].
  - repeat split.
  - apply (Hp false p). lia.
  - apply (Hp true p). lia.
Qed.

Lemma of_int_le z k :
  Double.INT_MIN <= z <= Double.INT_MAX -> - 2 ^ 24 < k < 2 ^ 24 -> z <= k ->
  sv (Float.of_int z) <= k * 2 ^ off.
Proof.
  intros Hz Hk Hle.
  destruct (of_int_small k Hk) as (Vk & Fk & Ek).
  destruct (of_int_finite z Hz) as (Vz & Fz).
  pose proof (pow2_pos off ltac:(discriminate)) as Poff.
  destruct (binary_normalize_le Float.prec Float.emax prec32 z 0 (Float.of_int k) off
              Vk Fk ltac:(discriminate) off32) as [H1|(_ & _ & H1)].
  { fold (sv (Float.of_int k)). rewrite Ek. change (0 + off) with off.
    apply Z.mul_le_mono_nonneg_r; [apply Z.lt_le_incl; exact Poff|exact Hle]. }
  - cbv zeta in H1. unfold Float.of_int in Fz. rewrite H1 in Fz. discriminate.
  - cbv zeta in H1. fold (sv (Float.of_int k)) in H1. rewrite Ek in H1. exact H1.
Qed.

Lemma of_int_ge z k :
  Double.INT_MIN <= z <= Double.INT_MAX -> - 2 ^ 24 < k < 2 ^ 24 -> k <= z ->
  k * 2 ^ off <= sv (Float.of_int z).
Proof.
  intros Hz Hk Hle.
  destruct (of_int_small k Hk) as (Vk & Fk & Ek).
  destruct (of_int_finite z Hz) as (Vz & Fz).
  pose proof (pow2_pos off ltac:(discriminate)) as Poff.
  destruct (binary_normalize_ge Float.prec Float.emax prec32 z 0 (Float.of_int k) off
              Vk Fk ltac:(discriminate) off32) as [H1|(_ & _ & H1)].
  { fold (sv (Float.of_int k)). rewrite Ek. change (0 + off) with off.
    apply Z.mul_le_mono_nonneg_r; [apply Z.lt_le_incl; exact Poff|exact Hle]. }
  - cbv zeta in H1. unfold Float.of_int in Fz. rewrite H1 in Fz. discriminate.
  - cbv zeta in H1. fold (sv (Float.of_int k)) in H1. rewrite Ek in H1. exact H1.
Qed.

(** The comparison of a converted [int] with a small integer is the
    comparison of the integers. *)
Lemma of_int_gtb z (c : Float.t) k :
  Double.INT_MIN <= z <= Double.INT_MAX -> - 2 ^ 24 < k < 2 ^ 24 - 1 ->
  valid_binary Float.prec Float.emax c = true -> is_finite c = true ->
  sv c = k * 2 ^ off ->
  Float.gtb (Float.of_int z) c = (z >? k).
Proof.
  intros Hz Hk Vc Fc Ec.
  destruct (of_int_finite z Hz) as (Vz & Fz).
  pose proof (pow2_pos off ltac:(discriminate)) as Poff.
  unfold Float.gtb.
  destruct (z >? k) eqn:E.
  - apply Z.gtb_lt in E.
    apply (SFltb_Zval Float.prec Float.emax c _ off prec32 Vc Vz Fc Fz off32).
    fold (sv c) (sv (Float.of_int z)). rewrite Ec.
    pose proof (of_int_ge z (k + 1) Hz ltac:(lia) ltac:(lia)) as H.
    clear - H Poff. set (u := 2 ^ off) in *. clearbody u. lia.
  - rewrite Z.gtb_ltb in E. apply Z.ltb_ge in E.
    destruct (SFltb c (Float.of_int z)) eqn:E'; [exfalso|reflexivity].
    apply (SFltb_Zval Float.prec Float.emax c _ off prec32 Vc Vz Fc Fz off32) in E'.
    fold (sv c) (sv (Float.of_int z)) in E'. rewrite Ec in E'.
    pose proof (of_int_le z k Hz ltac:(lia) E) as H. lia.
Qed.

Lemma of_int_ltb z (c : Float.t) k :
  Double.INT_MIN <= z <= Double.INT_MAX -> - 2 ^ 24 + 1 < k < 2 ^ 24 ->
  valid_binary Float.prec Float.emax c = true -> is_finite c = true ->
  sv c = k * 2 ^ off ->
  Float.ltb (Float.of_int z) c = (z <? k).
Proof.
  intros Hz Hk Vc Fc Ec.
  destruct (of_int_finite z Hz) as (Vz & Fz).
  pose proof (pow2_pos off ltac:(discriminate)) as Poff.
  unfold Float.ltb.
  destruct (z <? k) eqn:E.
  - apply Z.ltb_lt in E.
    apply (SFltb_Zval Float.prec Float.emax _ c off prec32 Vz Vc Fz Fc off32).
    fold (sv c) (sv (Float.of_int z)). rewrite Ec.
    pose proof (of_int_le z (k - 1) Hz ltac:(lia) ltac:(lia)) as H.
    clear - H Poff. set (u := 2 ^ off) in *. clearbody u. lia.
  - apply Z.ltb_ge in E.
    destruct (SFltb (Float.of_int z) c) eqn:E'; [exfalso|reflexivity].
    apply (SFltb_Zval Float.prec Float.emax _ c off prec32 Vz Vc Fz Fc off32) in E'.
    fold (sv c) (sv (Float.of_int z)) in E'. rewrite Ec in E'.
    pose proof (of_int_ge z k Hz ltac:(lia) E) as H. lia.
Qed.

(** Sums and differences of small integers are exact. *)
Lemma add_of_int a b :
  - 2 ^ 23 < a < 2 ^ 23 -> - 2 ^ 23 < b < 2 ^ 23 ->
  valid_binary Float.prec Float.emax (Float.add (Float.of_int a) (Float.of_int b)) = true
  /\ is_finite (Float.add (Float.of_int a) (Float.of_int b)) = true
  /\ sv (Float.add (Float.of_int a) (Float.of_int b)) = (a + b) * 2 ^ off.
Proof.
  intros Ha Hb.
  destruct (of_int_small a ltac:(lia)) as (Va & Fa & Ea).
  destruct (of_int_small b ltac:(lia)) as (Vb & Fb & Eb).
  destruct (of_int_small (a + b) ltac:(lia)) as (Vc & Fc & Ec).
  destruct (SFadd_sandwich Float.prec Float.emax (Float.of_int a) (Float.of_int b)
              (Float.of_int (a + b)) (Float.of_int (a + b)) off prec32
              Va Fa Vb Fb Vc Fc Vc Fc off32) as (V & F & H0 & H1).
  { fold (sv (Float.of_int a)) (sv (Float.of_int b)) (sv (Float.of_int (a + b))).
    rewrite Ea, Eb, Ec. lia. }
  split; [exact V|]. split; [exact F|].
  fold (sv (Float.of_int (a + b))) in H0, H1. rewrite Ec in H0, H1.
  unfold Float.add, sv. lia.
Qed.

Lemma sub_of_int a b :
  - 2 ^ 23 < a < 2 ^ 23 -> - 2 ^ 23 < b < 2 ^ 23 ->
  valid_binary Float.prec Float.emax (Float.sub (Float.of_int a) (Float.of_int b)) = true
  /\ is_finite (Float.sub (Float.of_int a) (Float.of_int b)) = true
  /\ sv (Float.sub (Float.of_int a) (Float.of_int b)) = (a - b) * 2 ^ off.
Proof.
  intros Ha Hb.
  destruct (of_int_small a ltac:(lia)) as (Va & Fa & Ea).
  destruct (of_int_small b ltac:(lia)) as (Vb & Fb & Eb).
  destruct (of_int_small (a - b) ltac:(lia)) as (Vc & Fc & Ec).
  destruct (Float_sub_sandwich (Float.of_int a) (Float.of_int b)
              (Float.of_int (a - b)) (Float.of_int (a - b))
              Va Fa Vb Fb Vc Fc Vc Fc) as (V & F & H0 & H1).
  { rewrite Ea, Eb, Ec. lia. }
  split; [exact V|]. split; [exact F|]. rewrite Ec in H0, H1. lia.
Qed.

(** ** The sliding label in integers *)

(** X11.  On an evaluated call whose stored angle is the integer [a], between 80
    and 100, and whose hand is at [z] degrees, the sliding label is
    "Slide left" when [z > a + 12], "Slide right" when [z < a - 12] and "___"
    otherwise: on these integers the [float] arithmetic of the code is
    exact. *)
Theorem slide_label_of_angles
    (atan2_finite : Float.t -> Float.t -> Float.t) (n : Node) (cc : Inputs)
    (n' : Node) (out : Outputs) (a z : Z) :
  Process atan2_finite n cc = Emitted n' out ->
  (Z.rem (frameCounter n + 1) 2 =? 0) = true ->
  previous_angle (this n) = Float.of_int a -> 80 <= a <= 100 ->
  hand_angle atan2_finite cc = Some z ->
  RECOGNIZED_HAND_MOVEMENT_SLIDING out
  = if z >? a + 12 then "Slide left"%string
    else if z <? a - 12 then "Slide right"%string else "___"%string.
Proof.
  intros H Heven Hprev Ha Hz.
  destruct (emitted_cases _ _ _ _ _ H) as (Hc & _ & _ & Hs).
  destruct Hs as [(Hodd & _)|(_ & w & m & E0 & E9 & _ & Hs)].
  { rewrite Hc, Heven in Hodd. discriminate. }
  unfold hand_angle in Hz. rewrite E0, E9 in Hz. injection Hz as Hz.
  rewrite Hs, Hz. unfold sliding.
  cbn [previous_angle set_previous_rectangle_height set_previous_center].
  rewrite Hprev.
  assert (Hint : Double.INT_MIN <= z <= Double.INT_MAX).
  { rewrite <- Hz. apply to_int_is_an_int. }
  destruct (of_int_small a ltac:(lia)) as (Va & Fa & Ea).
  destruct (of_int_small 80 ltac:(lia)) as (V80 & F80 & E80).
  destruct (of_int_small 100 ltac:(lia)) as (V100 & F100 & E100).
  pose proof (pow2_pos off ltac:(discriminate)) as Poff.
  assert (Ht : Float.truthy (Float.of_int a) = true).
  { unfold Float.truthy, Float.eqb. apply negb_true_iff.
    destruct (SFeqb (Float.of_int a) Float.zero) eqn:E; [exfalso|reflexivity].
    apply (SFeqb_Zval Float.prec Float.emax (Float.of_int a) Float.zero off prec32
             Va eq_refl Fa eq_refl off32) in E.
    fold (sv (Float.of_int a)) in E. rewrite Ea in E. cbn [Zval Float.zero] in E.
    clear - E Ha Poff. set (u := 2 ^ off) in *. clearbody u. nia. }
  assert (Hg : Float.geb (Float.of_int a) (Float.of_int 80)
               && Float.leb (Float.of_int a) (Float.of_int 100) = true).
  { apply andb_true_intro. split.
    - apply (SFleb_Zval Float.prec Float.emax _ _ off prec32 V80 Va F80 Fa off32).
      fold (sv (Float.of_int a)) (sv (Float.of_int 80)). rewrite Ea, E80.
      apply Z.mul_le_mono_nonneg_r; lia.
    - apply (SFleb_Zval Float.prec Float.emax _ _ off prec32 Va V100 Fa F100 off32).
      fold (sv (Float.of_int a)) (sv (Float.of_int 100)). rewrite Ea, E100.
      apply Z.mul_le_mono_nonneg_r; lia. }
  rewrite Ht, Hg.
  destruct (add_of_int a 12 ltac:(lia) ltac:(lia)) as (Vp & Fp & Ep).
  destruct (sub_of_int a 12 ltac:(lia) ltac:(lia)) as (Vm & Fm & Em).
  rewrite (of_int_gtb z _ (a + 12) Hint ltac:(lia) Vp Fp Ep).
  rewrite (of_int_ltb z _ (a - 12) Hint ltac:(lia) Vm Fm Em).
  reflexivity.
Qed.

(** The stored angle is 90 and the hand of the frame is at 0 degrees, on an
    evaluated call: 0 < 90 - 12. *)
Lemma slide_label_of_angles_witness :
  Process atan2_unspecified (node (flt 1 2) (flt 1 2) (flt 3 10) 90 1)
    (frame (flt 1 2) (flt 1 2) (flt 3 10) flat_hand)
  = Emitted (node (flt 1 2) (flt 1 2) (flt 3 10) 0 2)
      {| RECOGNIZED_HAND_MOVEMENT_SCROLLING := "___";
         RECOGNIZED_HAND_MOVEMENT_ZOOMING := "___";
         RECOGNIZED_HAND_MOVEMENT_SLIDING := "Slide right" |}
  /\ hand_angle atan2_unspecified (frame (flt 1 2) (flt 1 2) (flt 3 10) flat_hand)
     = Some 0
  /\ "Slide right"%string
     = if 0 >? 90 + 12 then "Slide left"%string
       else if 0 <? 90 - 12 then "Slide right"%string else "___"%string.
Proof.
  assert (Hp : Process atan2_unspecified (node (flt 1 2) (flt 1 2) (flt 3 10) 90 1)
                 (frame (flt 1 2) (flt 1 2) (flt 3 10) flat_hand)
               = Emitted (node (flt 1 2) (flt 1 2) (flt 3 10) 0 2)
                   {| RECOGNIZED_HAND_MOVEMENT_SCROLLING := "___";
                      RECOGNIZED_HAND_MOVEMENT_ZOOMING := "___";
                      RECOGNIZED_HAND_MOVEMENT_SLIDING := "Slide right" |}).
  { vm_compute. reflexivity. }
  assert (Hz : hand_angle atan2_unspecified
                 (frame (flt 1 2) (flt 1 2) (flt 3 10) flat_hand) = Some 0).
  { vm_compute. reflexivity. }
  split; [exact Hp|]. split; [exact Hz|].
  refine (slide_label_of_angles atan2_unspecified _ _ _ _ 90 0 Hp _ _ _ Hz).
  - reflexivity.
  - reflexivity.
  - lia.
Defined.

(** ** A zoom label tells how the height changed *)

(** The zoom threshold [height * 0.03] of a valid height that is not
    negative is plus infinity or a finite number that is not negative. *)
Lemma zoom_threshold_cases (height : Float.t) :
  Float.valid height = true -> Float.leb Float.zero height = true ->
  Float.mul height (flt 3 100) = S754_infinity false
  \/ (valid_binary Float.prec Float.emax (Float.mul height (flt 3 100)) = true
      /\ is_finite (Float.mul height (flt 3 100)) = true
      /\ 0 <= sv (Float.mul height (flt 3 100))).
Proof.
  intros Vh Hh.
  assert (Ec : flt 3 100 = S754_finite false 16106127 (-29)) by (vm_compute; reflexivity).
  assert (Vc : bounded Float.prec Float.emax 16106127 (-29) = true) by reflexivity.
  rewrite Ec. unfold Float.valid, Float.leb, Float.mul, Float.zero in *.
  destruct height as [s|s| |s m e].
  - right. cbn. repeat split. discriminate.
  - destruct s; [discriminate|]. left. reflexivity.
  - discriminate.
  - destruct s; [discriminate|].
    destruct (SFmul_shape Float.prec Float.emax false m e false 16106127 (-29)
                prec32 emax32 Vh Vc) as [HR|[HR|(mR & eR & HR & HbR)]]; rewrite HR.
    + right. cbn. repeat split. discriminate.
    + left. reflexivity.
    + right. repeat split; [exact HbR|]. unfold sv. cbn [Zval xorb cond_Zopp].
      destruct (bounded32 mR eR HbR) as (HeR & _).
      pose proof (pow2_pos (eR + off) ltac:(unfold off; lia)). lia.
Qed.

Lemma ltb_plus_infinity_l h : SFltb (S754_infinity false) h = false.
Proof. destruct h as [s|s| |s m e]; try destruct s; reflexivity. Qed.

Lemma ltb_minus_infinity_r h : SFltb h (S754_infinity true) = false.
Proof. destruct h as [s|s| |s m e]; try destruct s; reflexivity. Qed.

(** A height that is not negative is finite or plus infinity. *)
Lemma height_cases (height : Float.t) :
  Float.leb Float.zero height = true ->
  is_finite height = true \/ height = S754_infinity false.
Proof.
  intros Hh. destruct height as [s|s| |s m e]; try (left; reflexivity).
  - destruct s; [discriminate|]. right. reflexivity.
  - discriminate.
Qed.

(** [height < previous - threshold] needs [height < previous]. *)
Lemma zoom_out_test (height previous : Float.t) :
  Float.valid height = true -> Float.valid previous = true ->
  Float.leb Float.zero height = true ->
  Float.ltb height (Float.sub previous (Float.mul height (flt 3 100))) = true ->
  Float.ltb height previous = true.
Proof.
  intros Vh Vp Hh Hlt. unfold Float.valid in Vh, Vp.
  destruct (zoom_threshold_cases height Vh Hh) as [Et|(Vt & Ft & Ht)].
  - (* previous - infinity is minus infinity or NaN *)
    rewrite Et in Hlt. unfold Float.ltb, Float.sub in Hlt.
    destruct previous as [s|s| |s m e]; cbn [SFsub negb] in Hlt;
      try destruct s; try (rewrite ltb_minus_infinity_r in Hlt; discriminate);
      rewrite ltb_nan_r in Hlt; discriminate.
  - set (t := Float.mul height (flt 3 100)) in *. clearbody t.
    unfold Float.ltb, Float.sub in *.
    destruct (is_finite previous) eqn:Fp.
    + destruct (height_cases height Hh) as [Fh|Eh].
      2:{ rewrite Eh in Hlt. rewrite ltb_plus_infinity_l in Hlt. discriminate. }
      rewrite (SFsub_as_add Float.prec Float.emax previous t Fp Ft) in Hlt.
      destruct (SFadd_le Float.prec Float.emax prec32 previous (SFopp t) previous off
                  Vp Fp ltac:(rewrite valid_opp; exact Vt)
                  ltac:(rewrite is_finite_opp; exact Ft) Vp Fp off32
                  ltac:(rewrite Zval_opp; unfold sv in Ht; lia)) as [Hinf|(V1 & F1 & H1)].
      { cbv zeta in Hinf. rewrite Hinf, ltb_minus_infinity_r in Hlt. discriminate. }
      apply (SFltb_Zval Float.prec Float.emax _ _ off prec32 Vh V1 Fh F1 off32) in Hlt.
      apply (SFltb_Zval Float.prec Float.emax _ _ off prec32 Vh Vp Fh Fp off32). lia.
    + destruct previous as [s|s| |s m e]; try discriminate.
      * destruct t as [?|?| |? ? ?]; try discriminate; exact Hlt.
      * rewrite ltb_nan_r in Hlt. discriminate.
Qed.

(** [height > previous + threshold] needs [height > previous]. *)
Lemma zoom_in_test (height previous : Float.t) :
  Float.valid height = true -> Float.valid previous = true ->
  Float.leb Float.zero height = true ->
  Float.gtb height (Float.add previous (Float.mul height (flt 3 100))) = true ->
  Float.gtb height previous = true.
Proof.
  intros Vh Vp Hh Hgt. unfold Float.valid in Vh, Vp.
  destruct (zoom_threshold_cases height Vh Hh) as [Et|(Vt & Ft & Ht)].
  - (* previous + infinity is plus infinity or NaN *)
    rewrite Et in Hgt. unfold Float.gtb, Float.add in Hgt.
    destruct previous as [s|s| |s m e]; cbn [SFadd] in Hgt;
      try destruct s; try (rewrite ltb_plus_infinity_l in Hgt; discriminate);
      discriminate.
  - set (t := Float.mul height (flt 3 100)) in *. clearbody t.
    unfold Float.gtb, Float.add in *.
    destruct (is_finite previous) eqn:Fp.
    + destruct (height_cases height Hh) as [Fh|Eh].
      2:{ rewrite Eh. destruct previous as [s|s| |s m e]; try discriminate;
            try destruct s; reflexivity. }
      destruct (SFadd_ge Float.prec Float.emax prec32 previous t previous off
                  Vp Fp Vt Ft Vp Fp off32 ltac:(unfold sv in Ht; lia))
        as [Hinf|(V2 & F2 & H2)].
      { cbv zeta in Hinf. rewrite Hinf, ltb_plus_infinity_l in Hgt. discriminate. }
      apply (SFltb_Zval Float.prec Float.emax _ _ off prec32 V2 Vh F2 Fh off32) in Hgt.
      apply (SFltb_Zval Float.prec Float.emax _ _ off prec32 Vp Vh Fp Fh off32). lia.
    + destruct previous as [s|s| |s m e]; try discriminate.
      destruct t as [?|?| |? ? ?]; try discriminate; exact Hgt.
Qed.

(** X12.  With a frame whose height is a valid float and not negative, and a valid
    previous height: the label "Zoom out" is only emitted when the height is
    below the previous one, and "Zoom in" only when it is above. *)
Theorem zoom_label_tells_the_change
    (atan2_finite : Float.t -> Float.t -> Float.t) (n : Node) (cc : Inputs)
    (n' : Node) (out : Outputs) :
  let height := NormalizedRect.height (NORM_RECT cc) in
  let previous := previous_rectangle_height (this n) in
  Process atan2_finite n cc = Emitted n' out ->
  Float.valid height = true -> Float.valid previous = true ->
  Float.leb Float.zero height = true ->
  (RECOGNIZED_HAND_MOVEMENT_ZOOMING out = "Zoom out"%string ->
   Float.ltb height previous = true)
  /\ (RECOGNIZED_HAND_MOVEMENT_ZOOMING out = "Zoom in"%string ->
      Float.gtb height previous = true).
Proof.
  intros height previous H Vh Vp Hh.
  destruct (emitted_cases _ _ _ _ _ H) as (_ & _ & Hz & _).
  rewrite Hz. unfold zooming.
  cbn [previous_rectangle_height set_previous_center].
  fold height previous. fold (flt 3 100).
  pose proof (zoom_out_test height previous Vh Vp Hh) as Hout.
  pose proof (zoom_in_test height previous Vh Vp Hh) as Hin.
  destruct (Float.truthy previous); [|split; discriminate].
  destruct (Float.ltb height (Float.sub previous (Float.mul height (flt 3 100)))).
  - split; [intros _; apply Hout; reflexivity|discriminate].
  - destruct (Float.gtb height (Float.add previous (Float.mul height (flt 3 100)))).
    + split; [discriminate|intros _; apply Hin; reflexivity].
    + split; discriminate.
Qed.

(** The remembered height is 0.3 and the frame has height 0.2. *)
Lemma zoom_label_tells_the_change_witness :
  Process atan2_unspecified (node (flt 1 2) (flt 1 2) (flt 3 10) 0 0)
    (frame (flt 1 2) (flt 1 2) (flt 2 10) upright_hand)
  = Emitted (node (flt 1 2) (flt 1 2) (flt 2 10) 0 1)
      {| RECOGNIZED_HAND_MOVEMENT_SCROLLING := "___";
         RECOGNIZED_HAND_MOVEMENT_ZOOMING := "Zoom out";
         RECOGNIZED_HAND_MOVEMENT_SLIDING := "___" |}
  /\ Float.ltb (flt 2 10) (flt 3 10) = true.
Proof.
  assert (Hp : Process atan2_unspecified (node (flt 1 2) (flt 1 2) (flt 3 10) 0 0)
       (frame (flt 1 2) (flt 1 2) (flt 2 10) upright_hand)
     = Emitted (node (flt 1 2) (flt 1 2) (flt 2 10) 0 1)
         {| RECOGNIZED_HAND_MOVEMENT_SCROLLING := "___";
            RECOGNIZED_HAND_MOVEMENT_ZOOMING := "Zoom out";
            RECOGNIZED_HAND_MOVEMENT_SLIDING := "___" |}).
  { vm_compute. reflexivity. }
  split; [exact Hp|].
  refine (proj1 (zoom_label_tells_the_change atan2_unspecified _ _ _ _ Hp _ _ _) _);
    vm_compute; reflexivity.
Defined.

(** ** A hand that does not move *)

Lemma ltb_irrefl h : SFltb h h = false.
Proof.
  unfold SFltb. destruct h as [s|s| |s m e]; cbn [SFcompare]; try reflexivity.
  - destruct s; reflexivity.
  - rewrite Z.compare_refl, Pos.compare_refl. destruct s; reflexivity.
Qed.

(** X13.  Two calls in a row on the same frame, both emitting labels: if the
    centre of the rectangle is finite and its height is a valid float that
    is not negative, the second call emits neither a scrolling nor a zooming
    label. *)
Theorem still_hand_has_no_scroll_and_no_zoom
    (atan2_finite : Float.t -> Float.t -> Float.t) (n : Node) (cc : Inputs)
    (n1 : Node) (out1 : Outputs) (n2 : Node) (out2 : Outputs) :
  Process atan2_finite n cc = Emitted n1 out1 ->
  Process atan2_finite n1 cc = Emitted n2 out2 ->
  is_finite (NormalizedRect.x_center (NORM_RECT cc)) = true ->
  is_finite (NormalizedRect.y_center (NORM_RECT cc)) = true ->
  Float.valid (NormalizedRect.height (NORM_RECT cc)) = true ->
  Float.leb Float.zero (NormalizedRect.height (NORM_RECT cc)) = true ->
  RECOGNIZED_HAND_MOVEMENT_SCROLLING out2 = "___"%string
  /\ RECOGNIZED_HAND_MOVEMENT_ZOOMING out2 = "___"%string.
Proof.
  intros H1 H2 Fx Fy Vh Hh.
  destruct (emitted_cases _ _ _ _ _ H1) as (_ & _ & _ & Hn1).
  destruct (emitted_cases _ _ _ _ _ H2) as (_ & Hs & Hz & _).
  assert (Hfields :
            previous_x_center (this n1) = NormalizedRect.x_center (NORM_RECT cc)
            /\ previous_y_center (this n1) = NormalizedRect.y_center (NORM_RECT cc)
            /\ previous_rectangle_height (this n1)
               = NormalizedRect.height (NORM_RECT cc)).
  { destruct Hn1 as [(_ & Ht & _)|(_ & w & m & _ & _ & Ht & _)]; rewrite Ht;
      repeat split. }
  destruct Hfields as (Ex & Ey & Eh).
  split.
  - rewrite Hs. unfold scrolling. rewrite Ex, Ey, distance_to_itself, Fx, Fy.
    cbn [andb]. fold (flt 2 100).
    rewrite (zero_is_not_above_threshold _ false Vh Hh).
    destruct (Float.truthy _); reflexivity.
  - rewrite Hz. unfold zooming.
    cbn [previous_rectangle_height set_previous_center]. rewrite Eh.
    fold (flt 3 100).
    set (h := NormalizedRect.height (NORM_RECT cc)) in *.
    destruct (Float.truthy h); [|reflexivity].
    destruct (Float.ltb h (Float.sub h (Float.mul h (flt 3 100)))) eqn:E1.
    { apply (zoom_out_test h h Vh Vh Hh) in E1. unfold Float.ltb in E1.
      rewrite ltb_irrefl in E1. discriminate. }
    destruct (Float.gtb h (Float.add h (Float.mul h (flt 3 100)))) eqn:E2.
    { apply (zoom_in_test h h Vh Vh Hh) in E2. unfold Float.gtb in E2.
      rewrite ltb_irrefl in E2. discriminate. }
    reflexivity.
Qed.

(** The frame centred at (0.56, 0.5) with height 0.3, twice. *)
Lemma still_hand_has_no_scroll_and_no_zoom_witness :
  Process atan2_unspecified (node (flt 1 2) (flt 1 2) (flt 2 10) 0 0)
    (frame (flt 56 100) (flt 1 2) (flt 3 10) upright_hand)
  = Emitted (node (flt 56 100) (flt 1 2) (flt 3 10) 0 1)
      {| RECOGNIZED_HAND_MOVEMENT_SCROLLING := "Scrolling right";
         RECOGNIZED_HAND_MOVEMENT_ZOOMING := "Zoom in";
         RECOGNIZED_HAND_MOVEMENT_SLIDING := "___" |}
  /\ Process atan2_unspecified (node (flt 56 100) (flt 1 2) (flt 3 10) 0 1)
       (frame (flt 56 100) (flt 1 2) (flt 3 10) upright_hand)
     = Emitted (node (flt 56 100) (flt 1 2) (flt 3 10) 90 2)
         {| RECOGNIZED_HAND_MOVEMENT_SCROLLING := "___";
            RECOGNIZED_HAND_MOVEMENT_ZOOMING := "___";
            RECOGNIZED_HAND_MOVEMENT_SLIDING := "___" |}
  /\ RECOGNIZED_HAND_MOVEMENT_SCROLLING
       {| RECOGNIZED_HAND_MOVEMENT_SCROLLING := "___";
          RECOGNIZED_HAND_MOVEMENT_ZOOMING := "___";
          RECOGNIZED_HAND_MOVEMENT_SLIDING := "___" |} = "___"%string.
Proof.
  assert (H1 : Process atan2_unspecified (node (flt 1 2) (flt 1 2) (flt 2 10) 0 0)
                 (frame (flt 56 100) (flt 1 2) (flt 3 10) upright_hand)
               = Emitted (node (flt 56 100) (flt 1 2) (flt 3 10) 0 1)
                   {| RECOGNIZED_HAND_MOVEMENT_SCROLLING := "Scrolling right";
                      RECOGNIZED_HAND_MOVEMENT_ZOOMING := "Zoom in";
                      RECOGNIZED_HAND_MOVEMENT_SLIDING := "___" |}).
  { vm_compute. reflexivity. }
  assert (H2 : Process atan2_unspecified (node (flt 56 100) (flt 1 2) (flt 3 10) 0 1)
                 (frame (flt 56 100) (flt 1 2) (flt 3 10) upright_hand)
               = Emitted (node (flt 56 100) (flt 1 2) (flt 3 10) 90 2)
                   {| RECOGNIZED_HAND_MOVEMENT_SCROLLING := "___";
                      RECOGNIZED_HAND_MOVEMENT_ZOOMING := "___";
                      RECOGNIZED_HAND_MOVEMENT_SLIDING := "___" |}).
  { vm_compute. reflexivity. }
  split; [exact H1|]. split; [exact H2|].
  refine (proj1 (still_hand_has_no_scroll_and_no_zoom atan2_unspecified
                   _ _ _ _ _ _ H1 H2 _ _ _ _));
    vm_compute; reflexivity.
Defined.

(** ** A negative threshold *)

(** X14.  The height is not validated, and with a negative threshold
    [0.02 * height] the distance zero of a centre that did not move is above
    the threshold: the frame is labelled "Scrolling right". *)
Theorem negative_threshold_scrolls_right
    (atan2_finite : Float.t -> Float.t -> Float.t) (n : Node) (cc : Inputs)
    (n' : Node) (out : Outputs) :
  Process atan2_finite n cc = Emitted n' out ->
  Float.truthy (previous_x_center (this n)) = true ->
  normalized (previous_x_center (this n)) = true ->
  is_finite (previous_y_center (this n)) = true ->
  NormalizedRect.x_center (NORM_RECT cc) = previous_x_center (this n) ->
  NormalizedRect.y_center (NORM_RECT cc) = previous_y_center (this n) ->
  Float.ltb (Float.mul (flt 2 100) (NormalizedRect.height (NORM_RECT cc)))
    Float.zero = true ->
  RECOGNIZED_HAND_MOVEMENT_SCROLLING out = "Scrolling right"%string.
Proof.
  intros H Hrem Npx Fpy Ex Ey Hneg.
  destruct (emitted_cases _ _ _ _ _ H) as (_ & Hs & _).
  rewrite Hs, Ex, Ey. unfold scrolling. rewrite Hrem.
  destruct (normalized_cases _ Npx) as (_ & Fpx & _).
  rewrite distance_to_itself, Fpx, Fpy. cbn [andb].
  unfold Float.gtb. unfold flt, Float.ltb, Float.zero in Hneg. rewrite Hneg.
  destruct (reference_offset _ Npx Hrem) as (mc & ec & Ecb & _).
  unfold getAngleABC. rewrite !sub_diag, Fpx, Fpy, Ecb.
  vm_compute. reflexivity.
Qed.

(** The previous centre is (0.5, 0.5), the frame is centred there too, and
    its height is -1. *)
Lemma negative_threshold_scrolls_right_witness :
  Process atan2_unspecified (node (flt 1 2) (flt 1 2) (flt 3 10) 0 0)
    (frame (flt 1 2) (flt 1 2) (flt (-1) 1) upright_hand)
  = Emitted (node (flt 1 2) (flt 1 2) (flt (-1) 1) 0 1)
      {| RECOGNIZED_HAND_MOVEMENT_SCROLLING := "Scrolling right";
         RECOGNIZED_HAND_MOVEMENT_ZOOMING := "Zoom out";
         RECOGNIZED_HAND_MOVEMENT_SLIDING := "___" |}
  /\ Float.ltb (Float.mul (flt 2 100) (flt (-1) 1)) Float.zero = true
  /\ RECOGNIZED_HAND_MOVEMENT_SCROLLING
       {| RECOGNIZED_HAND_MOVEMENT_SCROLLING := "Scrolling right";
          RECOGNIZED_HAND_MOVEMENT_ZOOMING := "Zoom out";
          RECOGNIZED_HAND_MOVEMENT_SLIDING := "___" |} = "Scrolling right"%string.
Proof.
  assert (Hp : Process atan2_unspecified (node (flt 1 2) (flt 1 2) (flt 3 10) 0 0)
                 (frame (flt 1 2) (flt 1 2) (flt (-1) 1) upright_hand)
               = Emitted (node (flt 1 2) (flt 1 2) (flt (-1) 1) 0 1)
                   {| RECOGNIZED_HAND_MOVEMENT_SCROLLING := "Scrolling right";
                      RECOGNIZED_HAND_MOVEMENT_ZOOMING := "Zoom out";
                      RECOGNIZED_HAND_MOVEMENT_SLIDING := "___" |}).
  { vm_compute. reflexivity. }
  assert (Hn : Float.ltb (Float.mul (flt 2 100) (flt (-1) 1)) Float.zero = true).
  { vm_compute. reflexivity. }
  split; [exact Hp|]. split; [exact Hn|].
  refine (negative_threshold_scrolls_right atan2_unspecified _ _ _ _ Hp _ _ _ _ _ Hn);
    vm_compute; reflexivity.
Defined.

(** ** Angles in degrees *)

(** The degrees of a valid radian value between -pi and pi. *)
Lemma degrees_within_180 (radian : Float.t) :
  Float.valid radian = true ->
  Float.leb (SFopp pi_f) radian = true ->
  Float.leb radian pi_f = true ->
  -180 <= radianToDegree radian <= 180.
Proof.
  intros Vr Hlo Hhi.
  destruct (degrees_plus_half_bounds radian Vr Hlo Hhi) as (V & F & Hb).
  destruct (to_int_floor_spec _ V F Hb) as (H0 & H1).
  change (Double.to_int (Double.floor (degrees_plus_half radian)))
    with (radianToDegree radian) in H0, H1.
  pose proof (pow2_pos off ltac:(discriminate)) as Poff.
  destruct Hb as [Hb0 Hb1].
  set (q := sv (degrees_plus_half radian)) in *.
  set (d := radianToDegree radian) in *. set (u := 2 ^ off) in *.
  clearbody q d u. split.
  - assert (H : -181 * u < d * u) by lia.
    apply Z.mul_lt_mono_pos_r in H; [lia|exact Poff].
  - assert (H : d * u < 181 * u) by lia.
    apply Z.mul_lt_mono_pos_r in H; [lia|exact Poff].
Qed.

Section Atan2.

Variable atan2_finite : Float.t -> Float.t -> Float.t.
Hypothesis Hlibm : atan2_in_range atan2_finite.

(** With such a C library [atan2] stays between -pi and pi on all arguments
    but NaN: the values on the axes and at infinity are within the range. *)
Lemma atan2_within_pi y x :
  is_nan y = false -> is_nan x = false ->
  Float.valid (atan2 atan2_finite y x) = true
  /\ Float.leb (SFopp pi_f) (atan2 atan2_finite y x) = true
  /\ Float.leb (atan2 atan2_finite y x) pi_f = true.
Proof.
  intros Ny Nx.
  destruct y as [sy|sy| |sy my ey], x as [sx|sx| |sx mx ex]; try discriminate;
    cbn [atan2]; try apply Hlibm;
    try (destruct sx, sy; vm_compute; repeat split);
    destruct sy; vm_compute; repeat split.
Qed.

(** Whatever the two arguments, NaN apart, [atan2] in degrees is an integer
    between -180 and 180. *)
Lemma atan2_degrees y x :
  is_nan y = false -> is_nan x = false ->
  -180 <= radianToDegree (atan2 atan2_finite y x) <= 180.
Proof.
  intros Ny Nx. destruct (atan2_within_pi y x Ny Nx) as (V & Hlo & Hhi).
  apply degrees_within_180; assumption.
Qed.

End Atan2.

(** X15.  With a C library whose [atan2] stays between -pi and pi on finite
    arguments, [atan2] in degrees is between -180 and 180 for all arguments
    but NaN: on the axes and at infinity the model answers 0, pi/4, pi/2,
    3 pi/4 or pi, with a sign. *)
Theorem atan2_in_degrees
    (atan2_finite : Float.t -> Float.t -> Float.t) (y x : Float.t) :
  atan2_in_range atan2_finite ->
  is_nan y = false -> is_nan x = false ->
  -180 <= radianToDegree (atan2 atan2_finite y x) <= 180.
Proof. intros Hlibm. apply atan2_degrees. exact Hlibm. Qed.

(** [atan2] of minus infinity and minus infinity: -3 pi/4, that is -135
    degrees. *)
Lemma atan2_in_degrees_witness :
  radianToDegree
    (atan2 (fun _ _ => S754_zero false) (S754_infinity true) (S754_infinity true))
  = -135
  /\ -180 <= radianToDegree
               (atan2 (fun _ _ => S754_zero false)
                  (S754_infinity true) (S754_infinity true)) <= 180.
Proof.
  split; [vm_compute; reflexivity|].
  refine (atan2_in_degrees (fun _ _ => S754_zero false) _ _ _ _ _).
  - intros sy my ey sx mx ex. vm_compute. repeat split.
  - reflexivity.
  - reflexivity.
Defined.

(** ** The angle of a hand with normalised landmarks *)

(** The reference point [x + 0.1] of a normalised [x] is a float between 0
    and 2. *)
Lemma reference_point (px : Float.t) :
  normalized px = true ->
  let ref :=
    Float.of_double (Double.add (Double.of_float px) (Double.literal 1 10)) in
  valid_binary Float.prec Float.emax ref = true /\ is_finite ref = true
  /\ 0 <= sv ref <= 2 ^ (1 + off).
Proof.
  intros Nx. cbv zeta.
  destruct (normalized_cases px Nx) as (Vx & Fx & [Hx0 Hx1] & Hshape).
  destruct Hshape as [(s & ->)|(m & e & ->)].
  { destruct s; vm_compute; repeat split; discriminate. }
  rewrite literal_tenth.
  destruct tenth_checks as (_ & _ & _ & K4 & _). cbv zeta in K4.
  set (C := 7205759403792794 * 2 ^ (-56 + off)) in *.
  set (c01 := S754_finite false 7205759403792794 (-56)).
  assert (Vc : valid_binary Double.prec Double.emax c01 = true) by reflexivity.
  assert (Ec : sv c01 = C) by reflexivity.
  assert (PC : 0 <= C) by (unfold C; apply Z.mul_nonneg_nonneg; [lia|apply Z.pow_nonneg; lia]).
  destruct (of_float_exact false m e Vx) as (md & ed & Hd & Hbd & Hvd).
  rewrite Hd. set (d := S754_finite false md ed).
  assert (Ed : sv d = sv (S754_finite false m e)) by (unfold sv, d; cbn [Zval cond_Zopp]; exact Hvd).
  set (X := sv (S754_finite false m e)) in *.
  destruct (SFadd_sandwich Double.prec Double.emax d c01 (S754_zero false) (d_pow2 1) off
              prec64 Hbd eq_refl Vc eq_refl eq_refl eq_refl
              (d_pow2_valid 1 ltac:(lia)) eq_refl off64) as (Vs & Fs & Hs0 & Hs1).
  { fold (sv (d_pow2 1)) (sv d) (sv c01) (sv (S754_zero false)).
    rewrite d_pow2_value by (unfold off; lia). rewrite Ed, Ec.
    change (sv (S754_zero false)) with 0. change (2 ^ (0 + off)) with (2 ^ off) in K4.
    clear - Hx0 Hx1 K4 PC. clearbody X C. lia. }
  fold (sv (d_pow2 1)) in Hs1. rewrite d_pow2_value in Hs1 by (unfold off; lia).
  change (Zval off (S754_zero false)) with 0 in Hs0.
  unfold Double.add.
  remember (SFadd Double.prec Double.emax d c01) as D eqn:ED. clear ED.
  destruct D as [s|s| |s ms es]; [|discriminate Fs|discriminate Fs|].
  - cbn [Float.of_double]. split; [reflexivity|]. split; [reflexivity|].
    unfold sv. cbn [Zval]. split; [reflexivity|]. apply Z.pow_nonneg. clear. lia.
  - destruct (bounded64 ms es Vs) as (Hes & _).
    pose proof (pow2_pos (es + off) ltac:(unfold off; lia)) as Pes.
    cbn [Zval] in Hs0, Hs1.
    destruct s; cbn [cond_Zopp] in Hs0, Hs1; [lia|].
    pose proof (f_pow2_valid 1 ltac:(lia)) as V1.
    pose proof (f_pow2_value 1 ltac:(unfold off; lia)) as E1.
    unfold sv, f_pow2 in E1. cbn [Zval cond_Zopp] in E1.
    unfold f_pow2 in V1. cbn [valid_binary] in V1.
    cbn [Float.of_double].
    destruct (binary_round_le Float.prec Float.emax prec32 false ms es _ _ off V1
                ltac:(unfold off; lia) off32 ltac:(rewrite E1; exact Hs1))
      as [Hz|(mr & er & Er & Hbr & Hr1)].
    + rewrite Hz. split; [reflexivity|]. split; [reflexivity|].
      unfold sv. cbn [Zval]. split; [reflexivity|]. apply Z.pow_nonneg. clear. lia.
    + rewrite Er. split; [exact Hbr|]. split; [reflexivity|].
      destruct (bounded32 mr er Hbr) as (Her & _).
      pose proof (pow2_pos (er + off) ltac:(unfold off; lia)) as Per.
      unfold sv. cbn [Zval cond_Zopp]. rewrite E1 in Hr1. lia.
Qed.

(** The product of two finite floats of magnitude at most 1 and 2 is
    finite. *)
Lemma mul_finite a b :
  valid_binary Float.prec Float.emax a = true -> is_finite a = true ->
  valid_binary Float.prec Float.emax b = true -> is_finite b = true ->
  - 2 ^ off <= sv a <= 2 ^ off ->
  - 2 ^ (1 + off) <= sv b <= 2 ^ (1 + off) ->
  is_finite (Float.mul a b) = true.
Proof.
  intros Va Fa Vb Fb Ha Hb. unfold Float.mul.
  destruct a as [sa|sa| |sa ma ea], b as [sb|sb| |sb mb eb];
    try discriminate; try reflexivity.
  pose proof (f_pow2_valid 1 ltac:(lia)) as V1.
  pose proof (f_pow2_value 1 ltac:(unfold off; lia)) as E1.
  unfold sv, f_pow2 in E1. cbn [Zval cond_Zopp] in E1.
  unfold f_pow2 in V1. cbn [valid_binary] in V1.
  destruct (bounded32 ma ea Va) as (Hea & _). destruct (bounded32 mb eb Vb) as (Heb & _).
  pose proof (pow2_pos (ea + off) ltac:(unfold off; lia)) as Pa.
  pose proof (pow2_pos (eb + off) ltac:(unfold off; lia)) as Pb.
  unfold sv in Ha, Hb. cbn [Zval] in Ha, Hb.
  assert (Ha' : Zpos ma * 2 ^ (ea + off) <= 2 ^ off)
    by (destruct sa; cbn [cond_Zopp] in Ha; lia).
  assert (Hb' : Zpos mb * 2 ^ (eb + off) <= 2 ^ (1 + off))
    by (destruct sb; cbn [cond_Zopp] in Hb; lia).
  destruct (SFmul_le Float.prec Float.emax prec32 emax32 sa ma ea sb mb eb _ _ off
              Va Vb V1 off32) as [Hz|(mR & eR & ER & _)].
  { rewrite E1. rewrite (Z.mul_comm (2 ^ (1 + off))).
    apply Z.mul_le_mono_nonneg; lia. }
  - cbv zeta in Hz. rewrite Hz. reflexivity.
  - rewrite ER. reflexivity.
Qed.

Lemma mul_zero_r a s :
  is_finite a = true -> exists s', Float.mul a (S754_zero s) = S754_zero s'.
Proof.
  intros Fa. destruct a as [sa|sa| |sa ma ea]; try discriminate; eexists; reflexivity.
Qed.

Lemma finite_is_not_nan a : is_finite a = true -> is_nan a = false.
Proof. destruct a; try reflexivity; discriminate. Qed.

(** The two arguments that [getAngleABC] hands to [atan2] are finite when
    the points a and b are normalised and c is the reference point of b. *)
Lemma getAngleABC_of_normalized
    (atan2_finite : Float.t -> Float.t -> Float.t) a_x a_y b_x b_y :
  normalized a_x = true -> normalized a_y = true ->
  normalized b_x = true -> normalized b_y = true ->
  exists cross dot,
    is_finite cross = true /\ is_finite dot = true
    /\ getAngleABC atan2_finite a_x a_y b_x b_y
         (Float.of_double (Double.add (Double.of_float b_x) (Double.literal 1 10)))
         b_y
       = atan2 atan2_finite cross dot.
Proof.
  intros Nax Nay Nbx Nby.
  destruct (normalized_cases _ Nax) as (_ & _ & Hax & _).
  destruct (normalized_cases _ Nay) as (_ & _ & Hay & _).
  destruct (normalized_cases _ Nbx) as (Vbx & Fbx & Hbx & _).
  destruct (normalized_cases _ Nby) as (_ & Fby & Hby & _).
  destruct (reference_point b_x Nbx) as (Vr & Fr & Hr). cbv zeta in Vr, Fr, Hr.
  set (ref := Float.of_double (Double.add (Double.of_float b_x) (Double.literal 1 10))) in *.
  pose proof (f_pow2_valid 0 ltac:(lia)) as V0.
  pose proof (f_pow2_valid 1 ltac:(lia)) as V1.
  pose proof (f_pow2_value 0 ltac:(unfold off; lia)) as E0.
  pose proof (f_pow2_value 1 ltac:(unfold off; lia)) as E1.
  change (2 ^ (0 + off)) with (2 ^ off) in E0.
  assert (Vo : forall k, -126 <= k <= 127 ->
            valid_binary Float.prec Float.emax (SFopp (f_pow2 k)) = true).
  { intros k Hk. rewrite valid_opp. apply f_pow2_valid. exact Hk. }
  assert (Eo : forall k, sv (SFopp (f_pow2 k)) = - sv (f_pow2 k)).
  { intros k. unfold sv. apply Zval_opp. }
  destruct (sub_sandwich b_x a_x (SFopp (f_pow2 0)) (f_pow2 0) Nbx Nax
              (Vo 0 ltac:(lia)) eq_refl V0 eq_refl) as (Vabx & Fabx & Habx).
  { rewrite Eo, E0. clear - Hax Hbx. lia. }
  destruct (sub_sandwich b_y a_y (SFopp (f_pow2 0)) (f_pow2 0) Nby Nay
              (Vo 0 ltac:(lia)) eq_refl V0 eq_refl) as (Vaby & Faby & Haby).
  { rewrite Eo, E0. clear - Hay Hby. lia. }
  destruct (Float_sub_sandwich b_x ref (SFopp (f_pow2 1)) (f_pow2 0)
              Vbx Fbx Vr Fr (Vo 1 ltac:(lia)) eq_refl V0 eq_refl) as (Vcbx & Fcbx & Hcbx).
  { rewrite Eo, E0, E1. clear - Hbx Hr. lia. }
  rewrite Eo, E0 in Habx, Haby. rewrite Eo, E0, E1 in Hcbx.
  assert (P1 : 2 ^ off <= 2 ^ (1 + off)) by (apply Z.pow_le_mono_r; unfold off; lia).
  pose proof (mul_finite _ _ Vabx Fabx Vcbx Fcbx Habx ltac:(clear - Hcbx P1; lia)) as FP.
  pose proof (mul_finite _ _ Vaby Faby Vcbx Fcbx Haby ltac:(clear - Hcbx P1; lia)) as FQ.
  unfold getAngleABC. rewrite (sub_diag b_y), Fby.
  destruct (mul_zero_r (Float.sub b_x a_x) false Fabx) as (s1 & Z1).
  destruct (mul_zero_r (Float.sub b_y a_y) false Faby) as (s2 & Z2).
  rewrite Z1, Z2.
  eexists _, _. split; [|split; [|reflexivity]].
  - unfold Float.sub at 1.
    destruct (Float.mul (Float.sub b_y a_y) (Float.sub b_x ref)) as [?|?| |? ? ?];
      try discriminate; destruct s1; try reflexivity; destruct s; reflexivity.
  - unfold Float.add.
    destruct (Float.mul (Float.sub b_x a_x) (Float.sub b_x ref)) as [?|?| |? ? ?];
      try discriminate; destruct s2; try reflexivity; destruct s; reflexivity.
Qed.

(** X16.  With a C library whose [atan2] stays between -pi and pi, an evaluated
    call on a hand whose wrist and middle-finger MCP are normalised stores an
    angle that is an integer between -180 and 180. *)
Theorem stored_angle_within_180
    (atan2_finite : Float.t -> Float.t -> Float.t) (n : Node) (cc : Inputs)
    (n' : Node) (out : Outputs) (wrist MCP_of_second_finger : NormalizedLandmark.t) :
  atan2_in_range atan2_finite ->
  Process atan2_finite n cc = Emitted n' out ->
  (Z.rem (frameCounter n + 1) 2 =? 0) = true ->
  NormalizedLandmarkList.get (NORM_LANDMARKS cc) 0 = Some wrist ->
  NormalizedLandmarkList.get (NORM_LANDMARKS cc) 9 = Some MCP_of_second_finger ->
  normalized_landmark wrist = true ->
  normalized_landmark MCP_of_second_finger = true ->
  exists a, -180 <= a <= 180 /\ previous_angle (this n') = Float.of_int a.
Proof.
  intros Hlibm H Heven E0 E9 Nw Nm.
  destruct (emitted_cases _ _ _ _ _ H) as (Hc & _ & _ & Hs).
  destruct Hs as [(Hodd & _)|(_ & w & m & E0' & E9' & Ht & _)].
  { rewrite Hc, Heven in Hodd. discriminate. }
  rewrite E0 in E0'. rewrite E9 in E9'. injection E0' as <-. injection E9' as <-.
  exists (ang_in_degree atan2_finite wrist MCP_of_second_finger).
  split; [|rewrite Ht; reflexivity].
  unfold normalized_landmark in Nw, Nm.
  apply andb_prop in Nw, Nm. destruct Nw as [Nwx Nwy], Nm as [Nmx Nmy].
  unfold ang_in_degree.
  destruct (getAngleABC_of_normalized atan2_finite _ _ _ _ Nmx Nmy Nwx Nwy)
    as (cross & dot & Fc & Fd & ->).
  apply (atan2_degrees atan2_finite Hlibm); apply finite_is_not_nan; assumption.
Qed.

(** A C library that answers 0 everywhere is within the range; the hand of
    the frame is at 90 degrees. *)
Lemma stored_angle_within_180_witness :
  Process (fun _ _ => S754_zero false) (node (flt 1 2) (flt 1 2) (flt 3 10) 0 1)
    (frame (flt 1 2) (flt 1 2) (flt 3 10) upright_hand)
  = Emitted (node (flt 1 2) (flt 1 2) (flt 3 10) 90 2)
      {| RECOGNIZED_HAND_MOVEMENT_SCROLLING := "___";
         RECOGNIZED_HAND_MOVEMENT_ZOOMING := "___";
         RECOGNIZED_HAND_MOVEMENT_SLIDING := "___" |}
  /\ exists a, -180 <= a <= 180
       /\ previous_angle (this (node (flt 1 2) (flt 1 2) (flt 3 10) 90 2))
          = Float.of_int a.
Proof.
  assert (Hp : Process (fun _ _ => S754_zero false)
                 (node (flt 1 2) (flt 1 2) (flt 3 10) 0 1)
                 (frame (flt 1 2) (flt 1 2) (flt 3 10) upright_hand)
               = Emitted (node (flt 1 2) (flt 1 2) (flt 3 10) 90 2)
                   {| RECOGNIZED_HAND_MOVEMENT_SCROLLING := "___";
                      RECOGNIZED_HAND_MOVEMENT_ZOOMING := "___";
                      RECOGNIZED_HAND_MOVEMENT_SLIDING := "___" |}).
  { vm_compute. reflexivity. }
  split; [exact Hp|].
  refine (stored_angle_within_180 (fun _ _ => S754_zero false) _ _ _ _
            (point (flt 1 2) (flt 1 2)) (point (flt 1 2) (flt 1 4)) _ Hp _ _ _ _ _).
  - intros sy my ey sx mx ex. vm_compute. repeat split.
  - reflexivity.
  - reflexivity.
  - reflexivity.
  - vm_compute. reflexivity.
  - vm_compute. reflexivity.
Defined.

(** ** GetContract *)

Lemma HasTag_Set_ s tag T tag' : HasTag (Set_ s tag T) tag' = HasTag s tag'.
Proof.
  induction s as [|[t T0] rest IH]; [reflexivity|].
  cbn [Set_]. destruct (String.eqb t tag); cbn [HasTag existsb fst] in *.
  - reflexivity.
  - unfold HasTag in IH. rewrite IH. reflexivity.
Qed.

Lemma Tag_Set_same s tag T :
  HasTag s tag = true -> Tag (Set_ s tag T) tag = Some T.
Proof.
  unfold HasTag, Tag. induction s as [|[t T0] rest IH]; [discriminate|].
  cbn [existsb Set_ fst]. destruct (String.eqb t tag) eqn:E.
  - intros _. cbn [find fst]. rewrite E. reflexivity.
  - cbn [orb]. intros H. cbn [find fst]. rewrite E. apply IH. exact H.
Qed.

Lemma Tag_Set_other s tag T tag' :
  String.eqb tag tag' = false -> Tag (Set_ s tag T) tag' = Tag s tag'.
Proof.
  intros Hne. unfold Tag. induction s as [|[t T0] rest IH]; [reflexivity|].
  cbn [Set_]. destruct (String.eqb t tag) eqn:E.
  - apply String.eqb_eq in E. subst t. cbn [find fst]. rewrite Hne. reflexivity.
  - cbn [find fst]. destruct (String.eqb t tag'); [reflexivity|]. exact IH.
Qed.


(** X18.  A contract with both input tags and without the scrolling output tag is
    refused, and the refused contract has the types of its two input streams
    declared: the checks and the declarations alternate. *)
Theorem GetContract_fails_half_way (cc : CalculatorContract) :
  HasTag (contract_Inputs cc) normalizedLandmarkListTag = true ->
  HasTag (contract_Inputs cc) normRectTag = true ->
  HasTag (contract_Outputs cc) recognizedHandMovementScrollingTag = false ->
  fst (GetContract cc) = RetCheckFailure recognizedHandMovementScrollingTag
  /\ Tag (contract_Inputs (snd (GetContract cc))) normalizedLandmarkListTag
     = Some NormalizedLandmarkListType
  /\ Tag (contract_Inputs (snd (GetContract cc))) normRectTag
     = Some NormalizedRectType
  /\ contract_Outputs (snd (GetContract cc)) = contract_Outputs cc.
Proof.
  intros H1 H2 H3. unfold GetContract, set_input, set_output.
  cbn [contract_Inputs contract_Outputs]. rewrite !HasTag_Set_, H1, H2, H3.
  cbn [negb fst snd contract_Inputs contract_Outputs]. repeat split.
  - rewrite Tag_Set_other by reflexivity. apply Tag_Set_same. exact H1.
  - apply Tag_Set_same. rewrite HasTag_Set_. exact H2.
Qed.

(** A contract with the two input streams and no output stream. *)
Lemma GetContract_fails_half_way_witness :
  fst (GetContract
         {| contract_Inputs :=
              [(normalizedLandmarkListTag, AnyType); (normRectTag, AnyType)];
            contract_Outputs := [] |})
  = RetCheckFailure recognizedHandMovementScrollingTag.
Proof.
  refine (proj1 (GetContract_fails_half_way _ _ _ _)); reflexivity.
Defined.
